(** * hueshortcut: the device-state cache, the toggle dispatcher and the
      registration poll of [hueshortcut.py], embedded as state-passing
      functions over an abstract bridge.

    The program keeps one global dictionary [device_states] and talks to the
    Hue bridge with [requests].  The embedding threads an explicit program
    state (the dictionary, the log, the bound hotkeys, the history of HTTP
    exchanges and the outside world) through a small state-and-exception
    monad; the bridge, the clock and [time.sleep] are operations on the
    world, given as section variables. *)

From Stdlib Require Import ZArith Ascii String List Bool Lia.
From stdpp Require Import base option gmap strings list.

Open Scope string_scope.
Open Scope Z_scope.

(** ** Values

    [response.json()] yields Python values built from JSON; the same values
    are what the cache stores and what [register_hue_username] returns, with
    [JNull] standing for Python's [None].  [JObj] lists the items of a
    parsed dictionary (its keys are distinct); numbers are integers, the
    program never computes with them. *)

#[warnings="-register-all"]
Inductive json : Type :=
| JNull
| JBool (b : bool)
| JNum (n : Z)
| JStr (s : string)
| JList (xs : list json)
| JObj (kvs : list (string * json)).

(** Exceptions that the modelled statements can raise; every one of them is a
    subclass of [Exception]. *)
Inductive exn : Type :=
| RequestException
| JSONDecodeError
| KeyError
| IndexError
| TypeError
| AttributeError
| ValueError.

Inductive result (A : Type) : Type :=
| Ok (a : A)
| Raise (e : exn).
Arguments Ok {A} a.
Arguments Raise {A} e.

(** The members of a parsed object, looked up by key (first match). *)
Fixpoint assoc (k : string) (kvs : list (string * json)) : option json :=
  match kvs with
  | [] => None
  | (k', v) :: rest => if String.eqb k k' then Some v else assoc k rest
  end.

(** Python truthiness: [not v], [if v], ["ON" if v else "OFF"]. *)
Definition truthy (v : json) : bool :=
  match v with
  | JNull => false
  | JBool b => b
  | JNum n => negb (n =? 0)
  | JStr s => negb (String.eqb s "")
  | JList xs => match xs with [] => false | _ => true end
  | JObj kvs => match kvs with [] => false | _ => true end
  end.

(** [v[k]] for a string key [k]. *)
Definition getitem_str (v : json) (k : string) : result json :=
  match v with
  | JObj kvs => match assoc k kvs with Some x => Ok x | None => Raise KeyError end
  | _ => Raise TypeError
  end.

(** [v[0]]. *)
Definition getitem_0 (v : json) : result json :=
  match v with
  | JList (x :: _) => Ok x
  | JList [] => Raise IndexError
  | JStr (String c _) => Ok (JStr (String c EmptyString))
  | JStr EmptyString => Raise IndexError
  | JObj _ => Raise KeyError
  | _ => Raise TypeError
  end.

(** [v.get(k, d)]: only dictionaries have the method. *)
Definition dict_get (v : json) (k : string) (d : json) : result json :=
  match v with
  | JObj kvs => Ok (default d (assoc k kvs))
  | _ => Raise AttributeError
  end.

Fixpoint is_infix (p s : string) : bool :=
  String.prefix p s ||
  match s with
  | EmptyString => false
  | String _ s' => is_infix p s'
  end.

(** [k in v] for a string [k]: key test on a dictionary, substring test on a
    string, element test on a list. *)
Definition contains (k : string) (v : json) : result bool :=
  match v with
  | JObj kvs => Ok (bool_decide (is_Some (assoc k kvs)))
  | JStr s => Ok (is_infix k s)
  | JList xs =>
      Ok (existsb (fun x => match x with JStr s => String.eqb s k | _ => false end) xs)
  | _ => Raise TypeError
  end.

Definition isinstance_list (v : json) : bool :=
  match v with JList _ => true | _ => false end.

(** ** HTTP exchanges *)

Inductive request : Type :=
| GET (url : string)
| PUT (url : string) (payload : json)
| POST (url : string) (payload : json).

(** What [requests] hands back: a status code and a body, the body being
    [None] when it is not JSON (then [.json()] raises). *)
Record response : Type := { status_code : Z; body : option json }.

(** ** Logging *)

Inductive level : Type := DEBUG | INFO | WARNING | ERROR.

Inductive logarg : Type :=
| LStr (s : string)
| LVal (v : json)
| LExn (e : exn).

Record log_record : Type := { lvl : level; fmt : string; args : list logarg }.

Definition on_off (b : bool) : logarg := LStr (if b then "ON" else "OFF").

(** ** The program

    [W] is the world outside the process: [http req w] performs one HTTP
    exchange ([None] when [requests] raises: refused connection, timeout,
    ...), [clock w] is what [time.time()] reads, in milliseconds, and
    [sleep ms w] is the world after [time.sleep]. *)

Section Program.

Variable W : Type.
Variable http : request -> W -> option response * W.
Variable clock : W -> Z.
Variable sleep : Z -> W -> W.

(** The process state.  [device_states] is the module-level dictionary;
    [hotkeys] lists the bindings made with [keyboard.add_hotkey], each with the
    [device_id] its callback captured; [exchanges] is the history of requests
    sent and what came back, oldest first. *)
Record state : Type := {
  device_states : gmap string json;
  logged : list log_record;
  hotkeys : list (string * string);
  exchanges : list (request * option response);
  world : W
}.

Definition M (A : Type) : Type := state -> result A * state.

Definition ret {A} (a : A) : M A := fun s => (Ok a, s).

Definition bind {A B} (m : M A) (k : A -> M B) : M B :=
  fun s =>
    match m s with
    | (Ok a, s') => k a s'
    | (Raise e, s') => (Raise e, s')
    end.

Definition lift {A} (r : result A) : M A := fun s => (r, s).

(** [try: body except Exception as e: handler]. *)
Definition try_except {A} (body : M A) (handler : exn -> M A) : M A :=
  fun s =>
    match body s with
    | (Ok a, s') => (Ok a, s')
    | (Raise e, s') => handler e s'
    end.

Notation "x <- m ;; k" := (bind m (fun x => k))
  (at level 100, m at next level, right associativity).
Notation "m ;; k" := (bind m (fun _ => k))
  (at level 100, right associativity).

Definition log (l : level) (f : string) (a : list logarg) : M unit :=
  fun s =>
    (Ok tt,
     {| device_states := device_states s;
        logged := logged s ++ [{| lvl := l; fmt := f; args := a |}];
        hotkeys := hotkeys s;
        exchanges := exchanges s;
        world := world s |}).

(** [logging.exception] logs at level ERROR. *)
Definition log_exception (f : string) (a : list logarg) : M unit := log ERROR f a.

(** [requests.get], [requests.put], [requests.post]. *)
Definition requests (req : request) : M response :=
  fun s =>
    let '(r, w) := http req (world s) in
    let s' := {| device_states := device_states s;
                 logged := logged s;
                 hotkeys := hotkeys s;
                 exchanges := exchanges s ++ [(req, r)];
                 world := w |} in
    match r with
    | Some resp => (Ok resp, s')
    | None => (Raise RequestException, s')
    end.

(** [res.json()]. *)
Definition response_json (r : response) : M json :=
  lift (match body r with Some j => Ok j | None => Raise JSONDecodeError end).

(** [device_states.get(device_id, False)]. *)
Definition read_state (device_id : string) : M json :=
  fun s => (Ok (default (JBool false) (device_states s !! device_id)), s).

(** [device_states[device_id] = v]. *)
Definition write_state (device_id : string) (v : json) : M unit :=
  fun s =>
    (Ok tt,
     {| device_states := <[device_id := v]> (device_states s);
        logged := logged s;
        hotkeys := hotkeys s;
        exchanges := exchanges s;
        world := world s |}).

Definition light_url (bridge_ip username device_id : string) : string :=
  "http://" +:+ bridge_ip +:+ "/api/" +:+ username +:+ "/lights/" +:+ device_id.

(** The read both [initialize_state] and [toggle_device] perform:
    [requests.get(url)], [.json()], [data["state"].get("on", False)]. *)
Definition fetch_on (url : string) : M json :=
  res <- requests (GET url) ;;
  data <- response_json res ;;
  st <- lift (getitem_str data "state") ;;
  lift (dict_get st "on" (JBool false)).

Definition initialize_state (bridge_ip username device_id : string) : M unit :=
  let state_url := light_url bridge_ip username device_id in
  try_except
    (st <- fetch_on state_url ;;
     log INFO "Initial state for device %s: %s" [LStr device_id; on_off (truthy st)] ;;
     write_state device_id st)
    (fun e =>
       log_exception "Error initializing state for device %s: %s" [LStr device_id; LExn e] ;;
       write_state device_id (JBool false)).

Definition toggle_device (bridge_ip username device_id : string) : M unit :=
  current_state <- read_state device_id ;;
  let new_state := negb (truthy current_state) in
  log INFO "Toggling device %s to %s" [LStr device_id; on_off new_state] ;;
  let command_url := light_url bridge_ip username device_id +:+ "/state" in
  let payload := JObj [("on", JBool new_state)] in
  try_except
    (res <- requests (PUT command_url payload) ;;
     ack <- response_json res ;;
     log DEBUG "Response from bridge: %s" [LVal ack] ;;
     write_state device_id (JBool new_state) ;;
     let confirm_url := light_url bridge_ip username device_id in
     confirmed_state <- fetch_on confirm_url ;;
     log INFO "Confirmed state for device %s: %s" [LStr device_id; on_off (truthy confirmed_state)])
    (fun e =>
       log_exception "Error toggling device %s: %s" [LStr device_id; LExn e]).

(** *** [toggle_device], statement by statement

    Two invocations of [toggle_device] share nothing but [device_states] and
    the world.  The program starts no thread of its own: when, and whether,
    callbacks overlap is the [keyboard] library's affair.  The model below
    lets invocations interleave between the statements of the function,
    in any order a schedule names; it serves for properties that hold of
    every schedule, and so of whichever ones the library allows.  An
    invocation in progress is a point in the function body together with
    its local [current_state]. *)

Inductive point : Type :=
| Called
| Commanding (current_state : json)
| Committing (current_state : json)
| Confirming (current_state : json)
| Returned (current_state : json).

(** From each point, the statements up to the next one: the cache read and
    the first log line; the command and the parse of its reply; the cache
    write; the confirmation read.  An exception at [Commanding] or
    [Confirming] goes to the handler, which logs and returns. *)
Definition toggle_step (bridge_ip username device_id : string) (p : point) : M point :=
  match p with
  | Called =>
      current_state <- read_state device_id ;;
      log INFO "Toggling device %s to %s"
        [LStr device_id; on_off (negb (truthy current_state))] ;;
      ret (Commanding current_state)
  | Commanding current_state =>
      let new_state := negb (truthy current_state) in
      let command_url := light_url bridge_ip username device_id +:+ "/state" in
      let payload := JObj [("on", JBool new_state)] in
      try_except
        (res <- requests (PUT command_url payload) ;;
         ack <- response_json res ;;
         log DEBUG "Response from bridge: %s" [LVal ack] ;;
         ret (Committing current_state))
        (fun e =>
           log_exception "Error toggling device %s: %s" [LStr device_id; LExn e] ;;
           ret (Returned current_state))
  | Committing current_state =>
      write_state device_id (JBool (negb (truthy current_state))) ;;
      ret (Confirming current_state)
  | Confirming current_state =>
      let confirm_url := light_url bridge_ip username device_id in
      try_except
        (confirmed_state <- fetch_on confirm_url ;;
         log INFO "Confirmed state for device %s: %s"
           [LStr device_id; on_off (truthy confirmed_state)] ;;
         ret (Returned current_state))
        (fun e =>
           log_exception "Error toggling device %s: %s" [LStr device_id; LExn e] ;;
           ret (Returned current_state))
  | Returned current_state => ret (Returned current_state)
  end.

(** The invocations in progress, each with the [device_id] it was called
    with.  A schedule names, step by step, the invocation that runs next. *)
Definition advance (bridge_ip username : string) (i : nat)
    (pool : list (string * point)) (s : state) : list (string * point) * state :=
  match pool !! i with
  | Some (device_id, p) =>
      match toggle_step bridge_ip username device_id p s with
      | (Ok p', s') => (<[i := (device_id, p')]> pool, s')
      | (Raise _, s') => (pool, s')
      end
  | None => (pool, s)
  end.

Fixpoint interleave (bridge_ip username : string) (schedule : list nat)
    (pool : list (string * point)) (s : state) : list (string * point) * state :=
  match schedule with
  | [] => (pool, s)
  | i :: rest =>
      let '(pool', s') := advance bridge_ip username i pool s in
      interleave bridge_ip username rest pool' s'
  end.

(** *** Registration *)

(** [time.time()]. *)
Definition time_time : M Z := fun s => (Ok (clock (world s)), s).

(** [time.sleep(seconds)]. *)
Definition time_sleep (seconds : Z) : M unit :=
  fun s =>
    (Ok tt,
     {| device_states := device_states s;
        logged := logged s;
        hotkeys := hotkeys s;
        exchanges := exchanges s;
        world := sleep (1000 * seconds) (world s) |}).

(** One pass through the [try] statement in the loop of
    [register_hue_username]: [Some username] when the pass executes
    [return username], [None] when it falls through to [time.sleep(2)]. *)
Definition register_attempt (url : string) (payload : json) : M (option json) :=
  try_except
    (response <- requests (POST url payload) ;;
     result <- response_json response ;;
     log DEBUG "Received registration response: %s" [LVal result] ;;
     is_success <-
       (if isinstance_list result
        then (first <- lift (getitem_0 result) ;; lift (contains "success" first))
        else ret false) ;;
     if (is_success : bool) then
       first <- lift (getitem_0 result) ;;
       success <- lift (getitem_str first "success") ;;
       username <- lift (getitem_str success "username") ;;
       log INFO "Registration successful. Username: %s" [LVal username] ;;
       ret (Some username)
     else
       first <- lift (getitem_0 result) ;;
       err <- lift (dict_get first "error" (JObj [])) ;;
       error <- lift (dict_get err "description" (JStr "Waiting for link button press...")) ;;
       log WARNING "Registration response: %s" [LVal error] ;;
       ret None)
    (fun e =>
       log_exception "Error during registration: %s" [LExn e] ;;
       ret None).

(** The [while] loop and the statements after it.  [timeout] is in seconds,
    the clock in milliseconds.  The result is [None] when [fuel] passes do not
    reach a [return], and [Some v] when the function returns [v] ([JNull]
    for [return None]). *)
Fixpoint register_poll (fuel : nat) (url : string) (payload : json)
    (start_time timeout : Z) : M (option json) :=
  match fuel with
  | O => ret None
  | S fuel' =>
      now <- time_time ;;
      if now - start_time <? 1000 * timeout then
        r <- register_attempt url payload ;;
        match r with
        | Some username => ret (Some username)
        | None => time_sleep 2 ;; register_poll fuel' url payload start_time timeout
        end
      else
        log ERROR "Failed to register with the Hue Bridge within the timeout period." [] ;;
        ret (Some JNull)
  end.

Definition register_hue_username (fuel : nat) (bridge_ip device_type : string)
    (timeout : Z) : M (option json) :=
  let url := "http://" +:+ bridge_ip +:+ "/api" in
  let payload := JObj [("devicetype", JStr device_type)] in
  log INFO "Attempting to register with the Hue Bridge. Please press the link button on your bridge." [] ;;
  start_time <- time_time ;;
  register_poll fuel url payload start_time timeout.

(** *** Startup: seeding and binding *)

(** One entry of the DEVICES configuration. *)
Record DeviceBinding : Type := {
  device_id : string;
  hotkey : string;
  name : option string
}.

(** What the [keyboard] library makes of a hotkey string: [None] when it
    accepts it, [Some e] when [keyboard.add_hotkey] raises [e] on it (the
    library parses the string and raises on a key name it does not know).
    Which strings it accepts is the library's affair. *)
Variable hotkey_error : string -> option exn.

(** [keyboard.add_hotkey(hotkey, lambda device_id=device_id: ...)]: the
    callback keeps the [device_id] of its own iteration.  The call is
    outside any [try]: what the library raises leaves the loop and
    [main]. *)
Definition add_hotkey (hk dev : string) : M unit :=
  fun s =>
    match hotkey_error hk with
    | Some e => (Raise e, s)
    | None =>
        (Ok tt,
         {| device_states := device_states s;
            logged := logged s;
            hotkeys := hotkeys s ++ [(hk, dev)];
            exchanges := exchanges s;
            world := world s |})
    end.

(** The [for device in devices] loop of [main]. *)
Fixpoint bind_devices (bridge_ip username : string) (devices : list DeviceBinding) : M unit :=
  match devices with
  | [] => ret tt
  | device :: rest =>
      let dev := device_id device in
      initialize_state bridge_ip username dev ;;
      let hk := hotkey device in
      log INFO "Registering hotkey %s for device %s (%s)"
        [LStr hk; LStr dev; LStr (default "Unknown" (name device))] ;;
      add_hotkey hk dev ;;
      bind_devices bridge_ip username rest
  end.

End Program.

Arguments device_states {W} s.
Arguments logged {W} s.
Arguments hotkeys {W} s.
Arguments exchanges {W} s.
Arguments world {W} s.
Arguments log {W} l f a s.
Arguments time_time {W} clock s.
Arguments time_sleep {W} sleep seconds s.
Arguments add_hotkey {W} hotkey_error hk dev s.
Arguments requests {W} http req s.
Arguments read_state {W} device_id s.
Arguments write_state {W} device_id v s.
Arguments fetch_on {W} http url s.
Arguments initialize_state {W} http bridge_ip username device_id s.
Arguments toggle_device {W} http bridge_ip username device_id s.
Arguments toggle_step {W} http bridge_ip username device_id p s.
Arguments advance {W} http bridge_ip username i pool s.
Arguments interleave {W} http bridge_ip username schedule pool s.
Arguments register_attempt {W} http url payload s.
Arguments register_poll {W} http clock sleep fuel url payload start_time timeout s.
Arguments register_hue_username {W} http clock sleep fuel bridge_ip device_type timeout s.
Arguments bind_devices {W} http hotkey_error bridge_ip username devices s.

(** ** The configuration file

    [update_config_value] and [edit_devices] read [.env] with the same loop
    and write it back with the same loop.  The file is the text it holds,
    or [None] when it does not exist; a [string] is the sequence of its
    characters.  The file is opened in text mode: what is written is
    stored as it is (the line separator of the platform is taken to be
    ["\n"]), and what is read comes with its line ends translated, a
    carriage return and a carriage return followed by a line feed both
    read as ["\n"]. *)

Definition newline : ascii := "010"%char.

Definition carriage_return : ascii := "013"%char.

Definition equals_sign : ascii := "="%char.

(** The characters [str.strip()] removes, among those below 256: tab to
    carriage return, the four separators, the space, NEL and the
    no-break space. *)
Definition is_space (c : ascii) : bool :=
  let n := nat_of_ascii c in
  ((9 <=? n)%nat && (n <=? 13)%nat) || ((28 <=? n)%nat && (n <=? 32)%nat) ||
  (n =? 133)%nat || (n =? 160)%nat.

Fixpoint lstrip (s : string) : string :=
  match s with
  | EmptyString => EmptyString
  | String c rest => if is_space c then lstrip rest else s
  end.

Fixpoint rstrip (s : string) : string :=
  match s with
  | EmptyString => EmptyString
  | String c rest =>
      match rstrip rest with
      | EmptyString => if is_space c then EmptyString else String c EmptyString
      | kept => String c kept
      end
  end.

(** [s.strip()]. *)
Definition strip (s : string) : string := rstrip (lstrip s).

(** [c in s] for a character [c]. *)
Fixpoint has_char (c : ascii) (s : string) : bool :=
  match s with
  | EmptyString => false
  | String a rest => Ascii.eqb a c || has_char c rest
  end.

(** [s.split(c, 1)] when [c] occurs in [s]: what is before the first [c]
    and what is after it; [None] when [c] does not occur (the split then
    has one element). *)
Fixpoint split_once (c : ascii) (s : string) : option (string * string) :=
  match s with
  | EmptyString => None
  | String a rest =>
      if Ascii.eqb a c then Some (EmptyString, rest)
      else match split_once c rest with
           | Some (k, v) => Some (String a k, v)
           | None => None
           end
  end.

(** What text mode makes of the characters of a file on reading
    (universal newlines): a carriage return is read as ["\n"], and a line
    feed that follows one directly is dropped with it.  [after_cr] tells
    that the character before was a carriage return. *)
Fixpoint translate (after_cr : bool) (s : string) : string :=
  match s with
  | EmptyString => EmptyString
  | String c rest =>
      if Ascii.eqb c carriage_return then String newline (translate true rest)
      else if Ascii.eqb c newline && after_cr then translate false rest
      else String c (translate false rest)
  end.

Definition universal_newlines (content : string) : string := translate false content.

(** The lines of a text, each with its ["\n"], the last one possibly
    without. *)
Fixpoint split_lines (s : string) : list string :=
  match s with
  | EmptyString => []
  | String c rest =>
      if Ascii.eqb c newline then String c EmptyString :: split_lines rest
      else match split_lines rest with
           | [] => [String c EmptyString]
           | line :: more => String c line :: more
           end
  end.

(** [for line in f], on a file opened with [open(CONFIG_FILE, "r")]: the
    lines of the translated text. *)
Definition file_lines (content : string) : list string :=
  split_lines (universal_newlines content).

(** [config[k] = v] on a dictionary, which keeps its keys in the order of
    their first insertion. *)
Fixpoint dict_set (k v : string) (config : list (string * string)) : list (string * string) :=
  match config with
  | [] => [(k, v)]
  | (k', v') :: rest =>
      if String.eqb k' k then (k, v) :: rest else (k', v') :: dict_set k v rest
  end.

(** The body of the reading loop: a line with an ["="] is stripped and
    split at its first ["="]; other lines are skipped.  (After the test the
    split always has two parts, so the unpacking cannot fail.) *)
Definition read_line (config : list (string * string)) (line : string)
  : list (string * string) :=
  if has_char equals_sign line then
    match split_once equals_sign (strip line) with
    | Some (k, v) => dict_set k v config
    | None => config
    end
  else config.

Definition parse_config (content : string) : list (string * string) :=
  fold_left read_line (file_lines content) [].

(** The writing loop: [f.write(f"{k}={v}\n")] for every item. *)
Fixpoint render_config (config : list (string * string)) : string :=
  match config with
  | [] => EmptyString
  | (k, v) :: rest =>
      k +:+ String equals_sign (v +:+ String newline (render_config rest))
  end.

(** The dictionary the reading loop builds, empty when the file does not
    exist. *)
Definition read_config (file : option string) : list (string * string) :=
  match file with
  | Some content => parse_config content
  | None => []
  end.

(** [update_config_value(key, value)], as a function of the file. *)
Definition update_config_value (key value : string) (file : option string) : option string :=
  Some (render_config (dict_set key value (read_config file))).

(** [config.get(k)] on such a dictionary. *)
Fixpoint dict_lookup (k : string) (config : list (string * string)) : option string :=
  match config with
  | [] => None
  | (k', v) :: rest => if String.eqb k' k then Some v else dict_lookup k rest
  end.

(** A key that survives a round trip through the file: no ["="], no line
    end (neither a line feed nor a carriage return), no leading white
    space; and a value that does: no line end, no trailing white space. *)
Definition key_ok (k : string) : Prop :=
  has_char equals_sign k = false /\ has_char newline k = false /\
  has_char carriage_return k = false /\ lstrip k = k.

Definition value_ok (v : string) : Prop :=
  has_char newline v = false /\ has_char carriage_return v = false /\ rstrip v = v.

(** The line the writing loop writes for a pair. *)
Definition written_line (kv : string * string) : string :=
  fst kv +:+ String equals_sign (snd kv +:+ String newline "").

(** A dictionary as the reading loop builds it: keys and values that survive
    the round trip, no key twice. *)
Definition config_ok (config : list (string * string)) : Prop :=
  Forall (fun kv => key_ok (fst kv) /\ value_ok (snd kv)) config /\
  NoDup (map fst config).

(** A line as [for line in f] yields it, as far as line feeds go: none
    except, possibly, as its last character. *)
Definition line_shape (line : string) : Prop :=
  exists text, has_char newline text = false /\
    (line = text \/ line = text +:+ String newline "").

(** ** Vocabulary of the properties *)

(** *** Replies

    What the two statements [res = requests...; res.json()] make of a reply,
    and what the state read [data["state"].get("on", False)] makes of it. *)

Definition reply (code : Z) (j : json) : option response :=
  Some {| status_code := code; body := Some j |}.

Definition parsed (r : option response) : result json :=
  match r with
  | None => Raise RequestException
  | Some resp =>
      match body resp with
      | Some j => Ok j
      | None => Raise JSONDecodeError
      end
  end.

Definition on_of (r : option response) : result json :=
  match parsed r with
  | Ok data =>
      match getitem_str data "state" with
      | Ok st => dict_get st "on" (JBool false)
      | Raise e => Raise e
      end
  | Raise e => Raise e
  end.

(** A parsed body without a ["state"] member. *)
Definition lacks_state (data : json) : Prop :=
  match data with
  | JObj kvs => assoc "state" kvs = None
  | _ => True
  end.

(** The on/off field of a device object: the ["on"] member of its ["state"]
    object, when the body has one. *)
Definition on_off_field (data : json) : option json :=
  match data with
  | JObj kvs =>
      match assoc "state" kvs with
      | Some (JObj st) => assoc "on" st
      | _ => None
      end
  | _ => None
  end.

(** *** Toggling *)

Definition command_url (bridge_ip username device_id : string) : string :=
  light_url bridge_ip username device_id +:+ "/state".

Definition command (b : bool) : json := JObj [("on", JBool b)].

(** [device_states.get(device_id, False)] on a dictionary. *)
Definition cached (ds : gmap string json) (device_id : string) : json :=
  default (JBool false) (ds !! device_id).

(** What a toggle that starts in [s] commands, the exchange that carries the
    command, and the confirmation exchange that follows it. *)
Definition desired {W} (s : state W) (dev : string) : bool :=
  negb (truthy (cached (device_states s) dev)).

Definition command_exchange {W} (http : request -> W -> option response * W)
    (bridge_ip username dev : string) (s : state W) : option response * W :=
  http (PUT (command_url bridge_ip username dev) (command (desired s dev))) (world s).

Definition confirm_exchange {W} (http : request -> W -> option response * W)
    (bridge_ip username dev : string) (s : state W) : option response * W :=
  http (GET (light_url bridge_ip username dev))
       (snd (command_exchange http bridge_ip username dev s)).

(** [n] presses of one hotkey, one after the other. *)
Fixpoint press_times {W} (http : request -> W -> option response * W)
    (bridge_ip username dev : string) (n : nat) (s : state W) : state W :=
  match n with
  | O => s
  | S n' =>
      press_times http bridge_ip username dev n'
        (snd (toggle_device http bridge_ip username dev s))
  end.

(** The bridge is reliable over [n] presses that start in [s]: every
    command is acknowledged with a JSON body and every confirmation read
    reports the commanded value. *)
Fixpoint reliable_run {W} (http : request -> W -> option response * W)
    (bridge_ip username dev : string) (n : nat) (s : state W) : Prop :=
  match n with
  | O => True
  | S n' =>
      (exists ack, parsed (fst (command_exchange http bridge_ip username dev s)) = Ok ack) /\
      on_of (fst (confirm_exchange http bridge_ip username dev s)) = Ok (JBool (desired s dev)) /\
      reliable_run http bridge_ip username dev n'
        (snd (toggle_device http bridge_ip username dev s))
  end.

(** A bridge that is reliable for a light whatever the state of the world. *)
Definition reliable {W} (http : request -> W -> option response * W)
    (bridge_ip username dev : string) : Prop :=
  forall (w : W) (b : bool),
    (exists ack,
       parsed (fst (http (PUT (command_url bridge_ip username dev) (command b)) w)) = Ok ack) /\
    on_of (fst (http (GET (light_url bridge_ip username dev))
                     (snd (http (PUT (command_url bridge_ip username dev) (command b)) w))))
      = Ok (JBool b).

(** C1 as the specification words it: after an acknowledged command, a
    confirmation read that reports the opposite of the commanded value is
    what the cache holds when the toggle returns. *)
Definition confirmation_overrides {W} (http : request -> W -> option response * W)
    (bridge_ip username dev : string) (s : state W) : Prop :=
  forall ack c,
    parsed (fst (command_exchange http bridge_ip username dev s)) = Ok ack ->
    on_of (fst (confirm_exchange http bridge_ip username dev s)) = Ok (JBool c) ->
    c <> desired s dev ->
    cached (device_states (snd (toggle_device http bridge_ip username dev s))) dev = JBool c.

(** *** Seeding *)

(** C8 as the specification words it: a reply that parses but carries no
    on/off field makes the read fail. *)
Definition missing_state_is_failure {W} (http : request -> W -> option response * W)
    (url : string) (s : state W) : Prop :=
  forall code data,
    fst (http (GET url) (world s)) = reply code data ->
    on_off_field data = None ->
    exists e, fst (fetch_on http url s) = Raise e.

(** What [initialize_state] stores for a device: the value read, or [False]
    when the read raised. *)
Definition seeded_value {W} (http : request -> W -> option response * W)
    (bridge_ip username dev : string) (s : state W) : json :=
  match on_of (fst (http (GET (light_url bridge_ip username dev)) (world s))) with
  | Ok v => v
  | Raise _ => JBool false
  end.

(** *** Registration *)

(** The arguments [register_hue_username] takes by default. *)
Definition default_device_type : string := "hueshortcut#pc".

Definition default_timeout : Z := 30.

(** The pairing request. *)
Definition register_url (bridge_ip : string) : string := "http://" +:+ bridge_ip +:+ "/api".

Definition register_payload (device_type : string) : json :=
  JObj [("devicetype", JStr device_type)].

(** A reply whose body is a list whose first element is an object with a
    ["success"] member, itself an object holding the credential under
    ["username"]. *)
Definition success_reply (r : option response) (u : json) : Prop :=
  exists code kvs rest cred,
    r = Some {| status_code := code; body := Some (JList (JObj kvs :: rest)) |} /\
    assoc "success" kvs = Some (JObj cred) /\
    assoc "username" cred = Some u.

(** A reply whose body is a list whose first element is an object with an
    ["error"] member and no ["success"] member. *)
Definition error_reply (r : option response) : Prop :=
  exists code kvs rest err,
    r = Some {| status_code := code; body := Some (JList (JObj kvs :: rest)) |} /\
    assoc "success" kvs = None /\
    assoc "error" kvs = Some err.

Definition no_success (x : request * option response) : Prop :=
  forall u, ~ success_reply (snd x) u.

(** Exchanges never make the clock go back, and [time.sleep] lasts at least
    as long as asked. *)
Definition clock_monotone {W} (http : request -> W -> option response * W)
    (clock : W -> Z) : Prop :=
  forall req w, clock w <= clock (snd (http req w)).

Definition sleep_lasts {W} (clock : W -> Z) (sleep : Z -> W -> W) : Prop :=
  forall ms w, clock w + ms <= clock (sleep ms w).

(** The state in which the next pass of the registration loop starts after
    a pass that did not return: the attempt, then [time.sleep(2)]. *)
Definition after_pass {W} (http : request -> W -> option response * W)
    (sleep : Z -> W -> W) (url : string) (payload : json) (s : state W) : state W :=
  snd (time_sleep sleep 2 (snd (register_attempt http url payload s))).

(** C6 as the specification words it: the protocol as a state machine on
    the world, started at [start] with [timeout] seconds to go.  While
    waiting for the button, with time left, a pairing request is sent; a
    success reply ends the run at once with its credential
    ([WaitingForButton -> Registered]); any other reply (an error object,
    a failed request, a body that is not JSON or has another shape) is
    followed by a wait of two seconds and another round; and once the
    timeout has elapsed the run ends with [None]
    ([WaitingForButton -> Failed]).  [polling w xs v w'] is a run from the
    world [w] to [w'] that sent [xs] and returned [v]. *)
Inductive polling {W} (http : request -> W -> option response * W) (clock : W -> Z)
    (sleep : Z -> W -> W) (url : string) (payload : json) (start timeout : Z)
  : W -> list (request * option response) -> json -> W -> Prop :=
| polling_failed w :
    1000 * timeout <= clock w - start ->
    polling http clock sleep url payload start timeout w [] JNull w
| polling_registered w u :
    clock w - start < 1000 * timeout ->
    success_reply (fst (http (POST url payload) w)) u ->
    polling http clock sleep url payload start timeout w
      [(POST url payload, fst (http (POST url payload) w))] u
      (snd (http (POST url payload) w))
| polling_waiting w xs v w' :
    clock w - start < 1000 * timeout ->
    (forall u, ~ success_reply (fst (http (POST url payload) w)) u) ->
    polling http clock sleep url payload start timeout
      (sleep 2000 (snd (http (POST url payload) w))) xs v w' ->
    polling http clock sleep url payload start timeout w
      ((POST url payload, fst (http (POST url payload) w)) :: xs) v w'.

(** *** Startup *)

(** The records the startup loop can add to the log: the two that
    [initialize_state] writes and the one that announces a binding. *)
Definition startup_record (r : log_record) : Prop :=
  (lvl r = INFO /\ fmt r = "Initial state for device %s: %s") \/
  (lvl r = ERROR /\ fmt r = "Error initializing state for device %s: %s") \/
  (lvl r = INFO /\ fmt r = "Registering hotkey %s for device %s (%s)").

(** A device list the [keyboard] library takes whole: it accepts the
    hotkey of every binding. *)
Definition accepted (hotkey_error : string -> option exn) (devices : list DeviceBinding)
  : Prop :=
  Forall (fun d => hotkey_error (hotkey d) = None) devices.

(** The state after one pass of the startup loop, on binding [d]: the
    device is seeded, the binding is announced, and the hotkey is
    registered unless the library refuses it. *)
Definition bound_one {W} (http : request -> W -> option response * W)
    (hotkey_error : string -> option exn)
    (bridge_ip username : string) (d : DeviceBinding) (s : state W) : state W :=
  snd (add_hotkey hotkey_error (hotkey d) (device_id d)
         (snd (log INFO "Registering hotkey %s for device %s (%s)"
                 [LStr (hotkey d); LStr (device_id d); LStr (default "Unknown" (name d))]
                 (snd (initialize_state http bridge_ip username (device_id d) s))))).

(** C9 as the specification words it: on a device list in which two
    bindings share a [device_id], the startup loop either does not complete
    (it raises), or leaves a binding unregistered, or logs a warning or an
    error. *)
Definition duplicates_rejected_or_warned {W} (http : request -> W -> option response * W)
    (hotkey_error : string -> option exn)
    (bridge_ip username : string) (devices : list DeviceBinding) (s : state W) : Prop :=
  ~ NoDup (map device_id devices) ->
  (exists e, fst (bind_devices http hotkey_error bridge_ip username devices s) = Raise e) \/
  (length (hotkeys (snd (bind_devices http hotkey_error bridge_ip username devices s)))
     < length (hotkeys s) + length devices)%nat \/
  (exists r, In r (logged (snd (bind_devices http hotkey_error bridge_ip username devices s))) /\
             (lvl r = WARNING \/ lvl r = ERROR)).

(** *** Scheduled invocations *)

(** [n] steps of one invocation, nothing else running. *)
Fixpoint steps {W} (http : request -> W -> option response * W)
    (bridge_ip username dev : string) (n : nat) (p : point) (s : state W)
  : point * state W :=
  match n with
  | O => (p, s)
  | S n' =>
      match toggle_step http bridge_ip username dev p s with
      | (Ok p', s') => steps http bridge_ip username dev n' p' s'
      | (Raise _, s') => steps http bridge_ip username dev n' p s'
      end
  end.

(** An invocation for [dev] that started when the cache was [ds0] is
    consistent with a later cache [ds]: whatever it holds in
    [current_state] is what [ds0] held for [dev], and [ds] holds for [dev]
    what [ds0] held until the invocation has written, and from then on the
    negation it wrote (an invocation that has returned may have skipped the
    write). *)
Definition tracks (ds0 : gmap string json) (dev : string) (p : point)
    (ds : gmap string json) : Prop :=
  match p with
  | Called => ds !! dev = ds0 !! dev
  | Commanding c | Committing c => c = cached ds0 dev /\ ds !! dev = ds0 !! dev
  | Confirming c => c = cached ds0 dev /\ ds !! dev = Some (JBool (negb (truthy c)))
  | Returned c =>
      c = cached ds0 dev /\
      (ds !! dev = ds0 !! dev \/ ds !! dev = Some (JBool (negb (truthy c))))
  end.

(** What one step of an invocation for [dev] does: where it goes from [p],
    and what becomes of the cache. *)
Definition step_effect (dev : string) (p p' : point) (ds ds' : gmap string json) : Prop :=
  match p with
  | Called => p' = Commanding (cached ds dev) /\ ds' = ds
  | Commanding c => (p' = Committing c \/ p' = Returned c) /\ ds' = ds
  | Committing c => p' = Confirming c /\ ds' = <[dev := JBool (negb (truthy c))]> ds
  | Confirming c => p' = Returned c /\ ds' = ds
  | Returned c => p' = Returned c /\ ds' = ds
  end.

(** The commands sent so far, oldest first. *)
Definition commands_sent (xs : list (request * option response)) : list json :=
  flat_map (fun x => match fst x with PUT _ payload => [payload] | _ => [] end) xs.

(** ** The interactive setup

    The setup functions talk to the user with [input] and [print] and keep
    the configuration in [.env].  A session is the process state together
    with the lines the user types (in order; when they are used up the
    input is at its end), what has been printed, and the file.  Four library
    functions are parameters: [repr] is Python's [str()] on a value that is
    not a string, [dumps] is [json.dumps], [loads] is [json.loads] ([None]
    when it raises), [getenv file name] is [os.getenv(name)] after
    [load_dotenv] has read the file, and [exc_text] is [str(e)] for a
    caught exception. *)

(** [c.lower()] for a character below 256. *)
Definition lower_char (c : ascii) : ascii :=
  let n := nat_of_ascii c in
  if ((65 <=? n)%nat && (n <=? 90)%nat) ||
     ((192 <=? n)%nat && (n <=? 222)%nat && negb (n =? 215)%nat)
  then ascii_of_nat (n + 32)
  else c.

Fixpoint lower (s : string) : string :=
  match s with
  | EmptyString => EmptyString
  | String c rest => String (lower_char c) (lower rest)
  end.

(** What ends a setup function other than a [return]: an exception that
    escapes it, the end of the input at an [input()], or the end of the fuel
    given to a loop. *)
Inductive failure : Type :=
| Uncaught (e : exn)
| EOFError
| Unfinished.

Inductive outcome (A : Type) : Type :=
| Returns (a : A)
| Fails (f : failure).
Arguments Returns {A} a.
Arguments Fails {A} f.

Section Setup.

Variable W : Type.
Variable http : request -> W -> option response * W.
Variable clock : W -> Z.
Variable sleep : Z -> W -> W.
Variable repr : json -> string.
Variable dumps : json -> string.
Variable loads : string -> option json.
Variable getenv : option string -> string -> option string.
Variable exc_text : failure -> string.

Record session : Type := {
  core : state W;
  typed : list string;
  printed : list string;
  env_file : option string
}.

Definition IO (A : Type) : Type := session -> outcome A * session.

Definition io_ret {A} (a : A) : IO A := fun t => (Returns a, t).

Definition io_bind {A B} (m : IO A) (k : A -> IO B) : IO B :=
  fun t =>
    match m t with
    | (Returns a, t') => k a t'
    | (Fails f, t') => (Fails f, t')
    end.

Notation "x <- m ;; k" := (io_bind m (fun x => k))
  (at level 100, m at next level, right associativity).
Notation "m ;; k" := (io_bind m (fun _ => k))
  (at level 100, right associativity).

(** A statement of the core program, run in the session. *)
Definition run_core {A} (m : M W A) : IO A :=
  fun t =>
    match m (core t) with
    | (r, c) =>
        (match r with Ok a => Returns a | Raise e => Fails (Uncaught e) end,
         {| core := c; typed := typed t; printed := printed t; env_file := env_file t |})
    end.

Definition io_lift {A} (r : result A) : IO A :=
  fun t => (match r with Ok a => Returns a | Raise e => Fails (Uncaught e) end, t).

(** [try: body except Exception: handler].  The end of the input is an
    exception too; the end of the fuel is not. *)
Definition io_try {A} (body : IO A) (handler : failure -> IO A) : IO A :=
  fun t =>
    match body t with
    | (Returns a, t') => (Returns a, t')
    | (Fails Unfinished, t') => (Fails Unfinished, t')
    | (Fails f, t') => handler f t'
    end.

(** [print(text)]. *)
Definition print (text : string) : IO unit :=
  fun t =>
    (Returns tt,
     {| core := core t; typed := typed t; printed := printed t ++ [text];
        env_file := env_file t |}).

(** [input(prompt)]: the prompt is printed, the next typed line is
    returned. *)
Definition input (prompt : string) : IO string :=
  fun t =>
    match typed t with
    | line :: rest =>
        (Returns line,
         {| core := core t; typed := rest; printed := printed t ++ [prompt];
            env_file := env_file t |})
    | [] =>
        (Fails EOFError,
         {| core := core t; typed := []; printed := printed t ++ [prompt];
            env_file := env_file t |})
    end.

(** [str(v)], as an f-string formats a value. *)
Definition py_str (v : json) : string :=
  match v with
  | JStr text => text
  | _ => repr v
  end.

(** [os.path.exists(CONFIG_FILE)]. *)
Definition config_exists : IO bool :=
  fun t => (Returns (bool_decide (is_Some (env_file t))), t).

(** [load_dotenv(CONFIG_FILE)] followed by [os.getenv(name)]. *)
Definition os_getenv (name : string) : IO (option string) :=
  fun t => (Returns (getenv (env_file t) name), t).

(** [update_config_value(key, value)] on the session's file. *)
Definition io_update_config_value (key value : string) : IO unit :=
  fun t =>
    (Returns tt,
     {| core := core t; typed := typed t; printed := printed t;
        env_file := update_config_value key value (env_file t) |}).

(** *** [interactive_device_setup] *)

(** The [for dev_id, info in devices.items()] loop that prints the list. *)
Fixpoint print_items (items : list (string * json)) : IO unit :=
  match items with
  | [] => io_ret tt
  | (dev_id, info) :: rest =>
      nm <- io_lift (dict_get info "name" (JStr "Unknown")) ;;
      ty <- io_lift (dict_get info "type" (JStr "N/A")) ;;
      print ("ID: " +:+ dev_id +:+ " - Name: " +:+ py_str nm +:+
             " (Type: " +:+ py_str ty +:+ ")") ;;
      print_items rest
  end.

Definition print_devices (devices : json) : IO unit :=
  print (String newline "Available devices:") ;;
  match devices with
  | JObj items => print_items items
  | _ => io_lift (Raise AttributeError)
  end.

(** The [while True] loop; [configured] is [configured_devices] so far. *)
Fixpoint device_loop (fuel : nat) (devices : json) (configured : list json) : IO json :=
  match fuel with
  | O => fun t => (Fails Unfinished, t)
  | S fuel' =>
      print_devices devices ;;
      answer <- input "Enter the ID of the device you want to add (or press Enter to finish): " ;;
      let selected_device := strip answer in
      if String.eqb selected_device "" then io_ret (JList configured)
      else
        known <- io_lift (contains selected_device devices) ;;
        if negb known then
          print "Invalid device ID. Please try again." ;;
          device_loop fuel' devices configured
        else
          info <- io_lift (getitem_str devices selected_device) ;;
          device_name <- io_lift (dict_get info "name" (JStr "Unknown")) ;;
          answer <- input ("Enter your desired keyboard shortcut for '" +:+ py_str device_name
                           +:+ "' (e.g., ctrl+shift+l): ") ;;
          let hotkey := strip answer in
          let configured' :=
            (configured ++ [JObj [("device_id", JStr selected_device);
                                  ("hotkey", JStr hotkey);
                                  ("name", device_name)]])%list in
          answer <- input "Would you like to add another device? (y/n): " ;;
          let cont := lower (strip answer) in
          if negb (String.eqb cont "y") then io_ret (JList configured')
          else device_loop fuel' devices configured'
  end.

(** The function returns [None] ([JNull]) or the list of configured
    devices. *)
Definition interactive_device_setup (fuel : nat) (bridge_ip username : string) : IO json :=
  let url := "http://" +:+ bridge_ip +:+ "/api/" +:+ username +:+ "/lights" in
  fetched <-
    io_try
      (response <- run_core (requests http (GET url)) ;;
       devices <- io_lift (match body response with
                           | Some j => Ok j
                           | None => Raise JSONDecodeError
                           end) ;;
       run_core (log DEBUG "Retrieved devices: %s" [LVal devices]) ;;
       io_ret (Some devices))
      (fun f =>
         run_core (log ERROR "Error retrieving devices: %s" [LStr (exc_text f)]) ;;
         io_ret None) ;;
  match fetched with
  | None => io_ret JNull
  | Some devices =>
      if negb (truthy devices) then
        run_core (log ERROR "No devices found!" []) ;;
        io_ret JNull
      else device_loop fuel devices []
  end.

(** *** Credentials *)

(** [isinstance(result, dict) and result]. *)
Definition is_nonempty_dict (v : json) : bool :=
  match v with
  | JObj (_ :: _) => true
  | _ => false
  end.

(** [register_hue_username(bridge_ip)], with the default device type and
    timeout. *)
Definition io_register (fuel : nat) (bridge_ip : string) : IO json :=
  fun t =>
    match register_hue_username http clock sleep fuel bridge_ip
            default_device_type default_timeout (core t) with
    | (r, c) =>
        (match r with
         | Ok (Some v) => Returns v
         | Ok None => Fails Unfinished
         | Raise e => Fails (Uncaught e)
         end,
         {| core := c; typed := typed t; printed := printed t; env_file := env_file t |})
    end.

(** [requests.get(test_url, timeout=5)] and [response.json()]. *)
Definition fetch_lights (bridge_ip username : string) : IO json :=
  response <- run_core (requests http
                          (GET ("http://" +:+ bridge_ip +:+ "/api/" +:+ username +:+ "/lights"))) ;;
  io_lift (match body response with
           | Some j => Ok j
           | None => Raise JSONDecodeError
           end).

(** The part of [update_username] after the two configuration checks;
    [true] stands for the [return] inside the [try]. *)
Definition update_username_from (fuel : nat) (bridge_ip : string) : IO unit :=
  answer <- input "Do you want to use an existing username? (y/n): " ;;
  let choice := lower (strip answer) in
  done <-
    (if String.eqb choice "y" then
       answer <- input "Enter your Hue API username: " ;;
       let new_username := strip answer in
       io_try
         (result <- fetch_lights bridge_ip new_username ;;
          if is_nonempty_dict result then
            print "Username is valid." ;;
            io_update_config_value "HUE_USERNAME" new_username ;;
            io_ret true
          else
            print "Invalid username or no devices found. Falling back to automatic registration." ;;
            io_ret false)
         (fun f =>
            print ("Error validating username: " +:+ exc_text f) ;;
            io_ret false)
     else io_ret false) ;;
  if (done : bool) then io_ret tt
  else
    print "Proceeding with automatic registration. Please press the link button on your Hue Bridge." ;;
    new_username <- io_register fuel bridge_ip ;;
    if truthy new_username then
      io_update_config_value "HUE_USERNAME" (py_str new_username) ;;
      print "Username updated successfully."
    else print "Failed to update username.".

Definition update_username (fuel : nat) : IO unit :=
  present <- config_exists ;;
  if negb present then print "No configuration found. Run the full setup first."
  else
    bridge_ip <- os_getenv "HUE_BRIDGE_IP" ;;
    match bridge_ip with
    | None | Some EmptyString =>
        print "HUE_BRIDGE_IP not found in configuration. Please run the full setup."
    | Some bridge_ip => update_username_from fuel bridge_ip
    end.

(** *** [interactive_setup] and [edit_devices] *)

(** [not devices_config or len(devices_config) == 0], on what
    [interactive_device_setup] returns. *)
Definition no_devices (devices_config : json) : bool := negb (truthy devices_config).

(** The three [f.write] calls of [interactive_setup]. *)
Definition write_setup (bridge_ip username devices : string) : IO unit :=
  fun t =>
    (Returns tt,
     {| core := core t; typed := typed t; printed := printed t;
        env_file :=
          Some ("HUE_BRIDGE_IP=" +:+ bridge_ip +:+ String newline
                ("HUE_USERNAME=" +:+ username +:+ String newline
                 ("DEVICES=" +:+ devices +:+ String newline ""))) |}).

Definition interactive_setup (fuel : nat) : IO bool :=
  answer <- input "Enter your Hue Bridge IP address: " ;;
  let bridge_ip := strip answer in
  answer <- input "Do you want to use an existing Hue API username? (y/n): " ;;
  let choice := lower (strip answer) in
  username <-
    (if String.eqb choice "y" then
       answer <- input "Enter your Hue API username: " ;;
       let username := strip answer in
       io_try
         (result <- fetch_lights bridge_ip username ;;
          if is_nonempty_dict result then
            print "Username is valid. Using provided username." ;;
            io_ret (JStr username)
          else
            print "Provided username is not valid. Falling back to automatic registration." ;;
            io_register fuel bridge_ip)
         (fun f =>
            print ("Error validating username: " +:+ exc_text f) ;;
            io_register fuel bridge_ip)
     else io_register fuel bridge_ip) ;;
  if negb (truthy username) then
    run_core (log ERROR "Could not register with the Hue Bridge." []) ;;
    io_ret false
  else
    devices_config <- interactive_device_setup fuel bridge_ip (py_str username) ;;
    if no_devices devices_config then
      run_core (log ERROR "No devices configured." []) ;;
      io_ret false
    else
      write_setup bridge_ip (py_str username) (dumps devices_config) ;;
      run_core (log INFO "Configuration saved to %s" [LStr ".env"]) ;;
      io_ret true.

(** [edit_devices]; its last two blocks (read the file into a dictionary,
    set ["DEVICES"], write every pair) are the body of
    [update_config_value], repeated in the source for a file known to
    exist. *)
Definition edit_devices (fuel : nat) : IO unit :=
  present <- config_exists ;;
  if negb present then
    run_core (log ERROR "Configuration file not found. Run the script without '--edit' first." [])
  else
    bridge_ip <- os_getenv "HUE_BRIDGE_IP" ;;
    username <- os_getenv "HUE_USERNAME" ;;
    match bridge_ip, username with
    | Some (String a ip), Some (String b user) =>
        new_devices_config <-
          interactive_device_setup fuel (String a ip) (String b user) ;;
        if no_devices new_devices_config then
          run_core (log ERROR "No devices configured." [])
        else
          io_update_config_value "DEVICES" (dumps new_devices_config) ;;
          run_core (log INFO "Device configuration updated." [])
    | _, _ =>
        run_core (log ERROR "Missing HUE_BRIDGE_IP or HUE_USERNAME in configuration. Cannot edit devices." [])
    end.

End Setup.

Arguments core {W} s.
Arguments typed {W} s.
Arguments printed {W} s.
Arguments env_file {W} s.
Arguments io_ret {W A} a t.
Arguments io_bind {W A B} m k t.
Arguments run_core {W A} m t.
Arguments io_lift {W A} r t.
Arguments io_try {W A} body handler t.
Arguments print {W} text t.
Arguments input {W} prompt t.
Arguments config_exists {W} t.
Arguments os_getenv {W} getenv name t.
Arguments io_update_config_value {W} key value t.
Arguments print_items {W} repr items t.
Arguments print_devices {W} repr devices t.
Arguments device_loop {W} repr fuel devices configured t.
Arguments interactive_device_setup {W} http repr exc_text fuel bridge_ip username t.
Arguments io_register {W} http clock sleep fuel bridge_ip t.
Arguments fetch_lights {W} http bridge_ip username t.
Arguments update_username_from {W} http clock sleep repr exc_text fuel bridge_ip t.
Arguments update_username {W} http clock sleep repr getenv exc_text fuel t.
Arguments write_setup {W} bridge_ip username devices t.
Arguments interactive_setup {W} http clock sleep repr dumps exc_text fuel t.
Arguments edit_devices {W} http repr dumps getenv exc_text fuel t.

(** A statement [m] of the setup, started in a session that satisfies
    [P], ends (with a result or a failure) in one that satisfies [Q]. *)
Definition triple {W A} (P : session W -> Prop) (m : IO W A)
    (Q : outcome A -> session W -> Prop) : Prop :=
  forall t, P t -> Q (fst (m t)) (snd (m t)).

(** An invariant of the session that printing, asking and the requests of
    the setup do not disturb: it speaks of the file, the cache and the
    hotkeys only. *)
Definition settled {W} (F : option string) (ds : gmap string json)
    (hk : list (string * string)) (t : session W) : Prop :=
  env_file t = F /\ device_states (core t) = ds /\ hotkeys (core t) = hk.


(** The file [interactive_setup] writes. *)
Definition setup_file (bridge_ip username devices : string) : string :=
  "HUE_BRIDGE_IP=" +:+ bridge_ip +:+ String newline
  ("HUE_USERNAME=" +:+ username +:+ String newline
   ("DEVICES=" +:+ devices +:+ String newline "")).

(** The request for the list of lights. *)
Definition lights_url (bridge_ip username : string) : string :=
  "http://" +:+ bridge_ip +:+ "/api/" +:+ username +:+ "/lights".

(** An entry of the list [interactive_device_setup] returns, chosen from the
    devices [items] the bridge listed: its identifier is a key of the list,
    its name is what the list gives for that key (["Unknown"] without a
    name), its hotkey is a stripped line. *)
Definition chosen_from (items : list (string * json)) (entry : json) : Prop :=
  exists dev hk info,
    assoc dev items = Some (JObj info) /\
    dev <> "" /\ strip hk = hk /\
    entry = JObj [("device_id", JStr dev); ("hotkey", JStr hk);
                  ("name", default (JStr "Unknown") (assoc "name" info))].

(** ** Concrete worlds *)

(** Bodies the bridge sends: a device object, the acknowledgement of a
    command, the refusal of one, and the two answers to a pairing request. *)
Definition light_data (b : bool) : json := JObj [("state", JObj [("on", JBool b)])].

Definition ack_data (b : bool) : json :=
  JList [JObj [("success", JObj [("/lights/1/state/on", JBool b)])]].

Definition error_data : json :=
  JList [JObj [("error", JObj [("type", JNum 201);
                               ("description", JStr "parameter, on, is not modifiable")])]].

Definition link_error : json :=
  JList [JObj [("error", JObj [("type", JNum 101); ("address", JStr "");
                               ("description", JStr "link button not pressed")])]].

Definition pairing_success (u : string) : json :=
  JList [JObj [("success", JObj [("username", JStr u)])]].

(** A world that answers from a script: each entry gives how long the
    exchange takes (milliseconds) and what comes back; when the script is
    used up the bridge is unreachable. *)
Record scripted : Type := { now : Z; script : list (N * option response) }.

Definition scripted_http (req : request) (w : scripted) : option response * scripted :=
  match script w with
  | [] => (None, w)
  | (ms, r) :: rest => (r, {| now := now w + Z.of_N ms; script := rest |})
  end.

Definition scripted_sleep (ms : Z) (w : scripted) : scripted :=
  {| now := now w + ms; script := script w |}.

(** A single light behind a bridge that obeys: a command [{"on": b}] switches
    the light, a read reports it. *)
Record lamp : Type := { lamp_on : bool }.

Definition lamp_http (req : request) (w : lamp) : option response * lamp :=
  match req with
  | PUT _ (JObj [(_, JBool b)]) => (reply 200 (ack_data b), {| lamp_on := b |})
  | GET _ => (reply 200 (light_data (lamp_on w)), w)
  | _ => (None, w)
  end.

Definition start {W} (ds : gmap string json) (w : W) : state W :=
  {| device_states := ds; logged := []; hotkeys := []; exchanges := []; world := w |}.

(** Scenarios: device "1" behind the bridge at 192.168.1.2. *)

(** Cached on, bridge unreachable. *)
Definition lit_unreachable : state scripted :=
  start {["1" := JBool true]} {| now := 0; script := [] |}.

(** Cached off; the command is acknowledged, the confirmation read still
    reports off. *)
Definition dark_contradicted : state scripted :=
  start {["1" := JBool false]}
    {| now := 0;
       script := [(20%N, reply 200 (ack_data true)); (20%N, reply 200 (light_data false))] |}.

(** Cached off; the command is acknowledged, the confirmation read times
    out. *)
Definition dark_confirm_lost : state scripted :=
  start {["1" := JBool false]}
    {| now := 0; script := [(20%N, reply 200 (ack_data true)); (5000%N, None)] |}.

(** Cached off; the command is acknowledged, the confirmation read returns
    an object without ["state"]. *)
Definition dark_confirm_stateless : state scripted :=
  start {["1" := JBool false]}
    {| now := 0;
       script := [(20%N, reply 200 (ack_data true));
                  (20%N, reply 200 (JObj [("name", JStr "Desk lamp")]))] |}.

(** Cached off; the bridge answers the command with status 500 and an error
    object, then reports off. *)
Definition dark_rejected : state scripted :=
  start {["1" := JBool false]}
    {| now := 0;
       script := [(20%N, reply 500 error_data); (20%N, reply 200 (light_data false))] |}.

(** Cached off, the light off, an obedient bridge. *)
Definition dark_obedient : state lamp :=
  start {["1" := JBool false]} {| lamp_on := false |}.

(** Nothing cached yet, the light off, an obedient bridge. *)
Definition fresh_obedient : state lamp := start ∅ {| lamp_on := false |}.

(** Nothing cached; the light is on. *)
Definition unseeded_lit : state scripted :=
  start ∅ {| now := 0; script := [(20%N, reply 200 (light_data true))] |}.

(** Nothing cached; the bridge answers the read with the error list it
    sends to an unknown user. *)
Definition unseeded_unauthorized : state scripted :=
  start ∅
    {| now := 0;
       script := [(20%N, reply 200 (JList [JObj [("error", JObj [("type", JNum 1);
                                     ("description", JStr "unauthorized user")])]]))] |}.

(** Nothing cached; the bridge answers the read with a device object whose
    state has no ["on"] member. *)
Definition unseeded_onless : state scripted :=
  start ∅
    {| now := 0;
       script := [(20%N, reply 200 (JObj [("state", JObj [("reachable", JBool false)])]))] |}.

(** The link button is pressed before the first pairing request. *)
Definition pressed_early : state scripted :=
  start ∅ {| now := 0; script := [(20%N, reply 200 (pairing_success "k3yQ"))] |}.

(** The link button is pressed between the second and the third request. *)
Definition pressed_late : state scripted :=
  start ∅
    {| now := 0;
       script := [(20%N, reply 200 link_error); (20%N, reply 200 link_error);
                  (20%N, reply 200 (pairing_success "k3yQ"))] |}.

(** The button is never pressed: one refusal, then nothing but timeouts. *)
Definition never_pressed : state scripted :=
  start ∅ {| now := 0; script := [(20%N, reply 200 link_error)] |}.

(** The bridge announces success without a credential. *)
Definition pairing_emptyhanded : state scripted :=
  start ∅
    {| now := 0; script := [(20%N, reply 200 (JList [JObj [("success", JObj [])]]))] |}.

(** Stand-ins for the library functions in the scenarios: values that are
    not strings print as ["<value>"], exceptions as ["<error>"]. *)
Definition plain_repr (v : json) : string := "<value>".

Definition plain_exc_text (f : failure) : string := "<error>".

(** A user at the console of a process in state [c], about to type
    [lines], with the configuration file [file]. *)
Definition sitting {W} (lines : list string) (c : state W) (file : option string)
  : session W :=
  {| core := c; typed := lines; printed := []; env_file := file |}.

(** The list of lights of a bridge with two lamps. *)
Definition two_lights : json :=
  JObj [("1", JObj [("name", JStr "Desk lamp"); ("type", JStr "Dimmable light")]);
        ("2", JObj [("type", JStr "On/Off plug-in unit")])].

(** The bridge lists two lights; the user picks light 1 twice, with two
    hotkeys, then stops. *)
Definition picks_one_twice : session scripted :=
  sitting ["1"; "ctrl+shift+l"; "Y"; " 1 "; " ctrl+alt+l"; "n"]
    (start ∅ {| now := 0; script := [(20%N, reply 200 two_lights)] |}) None.

(** The bridge does not know the user: it answers the request for the list
    with an error list. *)
Definition asks_unauthorized : session scripted :=
  sitting ["1"; "ctrl+shift+l"; "n"]
    (start ∅ {| now := 0;
                script := [(20%N, reply 200 (JList [JObj [("error",
                             JObj [("type", JNum 1);
                                   ("description", JStr "unauthorized user")])]]))] |})
    None.

(** The bridge cannot be reached. *)
Definition asks_unreachable : session scripted :=
  sitting ["1"; "ctrl+shift+l"; "n"] (start ∅ {| now := 0; script := [] |}) None.

(** More stand-ins: every value is dumped as ["<json>"], and the
    environment is read from the file by the program's own reader. *)
Definition plain_dumps (v : json) : string := "<json>".

Definition plain_getenv (file : option string) (name : string) : option string :=
  dict_lookup name (read_config file).

(** A configuration file that names the bridge and a credential. *)
Definition paired_env : string :=
  "HUE_BRIDGE_IP=192.168.1.2" +:+ String newline
  ("HUE_USERNAME=old" +:+ String newline
  ("DEVICES=[]" +:+ String newline "")).


(** The user gives a username the bridge knows. *)
Definition gives_known_username : session scripted :=
  sitting ["Y "; " k3yQ "; "left over"]
    (start ∅ {| now := 0; script := [(20%N, reply 200 two_lights)] |}) (Some paired_env).

(** A first setup: the address, a username the bridge knows, light 2 on
    one hotkey. *)
Definition first_setup : session scripted :=
  sitting [" 192.168.1.2"; "y"; "k3yQ"; "2"; "ctrl+alt+p"; "n"]
    (start ∅ {| now := 0;
                script := [(20%N, reply 200 two_lights); (20%N, reply 200 two_lights)] |})
    None.

(** Editing the devices of a configured program: light 1 on one hotkey. *)
Definition edits_devices : session scripted :=
  sitting ["1"; "ctrl+shift+l"; "n"]
    (start ∅ {| now := 0; script := [(20%N, reply 200 two_lights)] |}) (Some paired_env).

(** A configuration file with a comment, a blank line and padded pairs. *)
Definition sample_env : string :=
  "# Hue shortcut" +:+ String newline
  ("HUE_BRIDGE_IP=192.168.1.2" +:+ String newline
  (String newline
  ("  HUE_USERNAME = old  " +:+ String newline
  ("DEVICES=[]" +:+ String newline "")))).

(** A stand-in for the [keyboard] library in the scenarios: it refuses the
    empty hotkey and takes every other string. *)
Definition plain_keyboard (hk : string) : option exn :=
  if String.eqb hk "" then Some ValueError else None.

(** Three lights, the second with the empty hotkey that
    [interactive_device_setup] stores when the user just presses Enter. *)
Definition unbound_second : list DeviceBinding :=
  [{| device_id := "1"; hotkey := "ctrl+shift+l"; name := Some "Desk lamp" |};
   {| device_id := "2"; hotkey := ""; name := None |};
   {| device_id := "3"; hotkey := "ctrl+alt+p"; name := None |}].

(** Two hotkeys configured for the same light. *)
Definition twice_bound : list DeviceBinding :=
  [{| device_id := "1"; hotkey := "ctrl+shift+l"; name := Some "Desk lamp" |};
   {| device_id := "1"; hotkey := "ctrl+alt+l"; name := Some "Desk lamp" |}].

(** * Properties *)

(** Unfold the program down to the exchanges with the world. *)
Ltac run :=
  unfold toggle_device, initialize_state, register_attempt, fetch_on, try_except,
    bind, ret, lift, log_exception, log, requests, response_json, read_state,
    write_state in *;
  simpl in *.

(** ** The toggle dispatcher *)

Section Toggle_properties.

Context {W : Type} (http : request -> W -> option response * W).

Lemma fetch_on_spec url (s : state W) :
  fst (fetch_on http url s) = on_of (fst (http (GET url) (world s))) /\
  device_states (snd (fetch_on http url s)) = device_states s /\
  world (snd (fetch_on http url s)) = snd (http (GET url) (world s)).
Proof.
  run. unfold on_of, parsed.
  destruct (http (GET url) (world s)) as [[resp|] w]; simpl; [|done].
  destruct (body resp) as [data|]; simpl; [|done].
  destruct (getitem_str data "state") as [st|e]; simpl; [|done].
  destruct (dict_get st "on" (JBool false)); done.
Qed.

(** [toggle_device] never raises, and writes the cache exactly when the
    command's reply parses. *)
Lemma toggle_device_cache bridge_ip username dev (s : state W) :
  fst (toggle_device http bridge_ip username dev s) = Ok tt /\
  device_states (snd (toggle_device http bridge_ip username dev s)) =
    match parsed (fst (command_exchange http bridge_ip username dev s)) with
    | Ok _ => <[dev := JBool (desired s dev)]> (device_states s)
    | Raise _ => device_states s
    end.
Proof.
  unfold command_exchange, desired, cached, command_url, command, parsed.
  run.
  destruct (http (PUT _ _) (world s)) as [[resp|] w]; simpl; [|done].
  destruct (body resp) as [ack|]; simpl; [|done].
  destruct (http (GET _) w) as [[resp'|] w']; simpl; [|done].
  destruct (body resp') as [data|]; simpl; [|done].
  destruct (getitem_str data "state") as [st|e]; simpl; [|done].
  destruct (dict_get st "on" (JBool false)); done.
Qed.

(** The state in which a toggle ends when the command is acknowledged and
    the confirmation read yields [c]: the cache holds the commanded value,
    and [c] appears only in the last log record. *)
Lemma toggle_device_confirmed bridge_ip username dev (s : state W) ack c :
  parsed (fst (command_exchange http bridge_ip username dev s)) = Ok ack ->
  on_of (fst (confirm_exchange http bridge_ip username dev s)) = Ok c ->
  toggle_device http bridge_ip username dev s =
    (Ok tt,
     {| device_states := <[dev := JBool (desired s dev)]> (device_states s);
        logged := logged s ++
          [{| lvl := INFO; fmt := "Toggling device %s to %s";
              args := [LStr dev; on_off (desired s dev)] |};
           {| lvl := DEBUG; fmt := "Response from bridge: %s"; args := [LVal ack] |};
           {| lvl := INFO; fmt := "Confirmed state for device %s: %s";
              args := [LStr dev; on_off (truthy c)] |}];
        hotkeys := hotkeys s;
        exchanges := exchanges s ++
          [(PUT (command_url bridge_ip username dev) (command (desired s dev)),
            fst (command_exchange http bridge_ip username dev s));
           (GET (light_url bridge_ip username dev),
            fst (confirm_exchange http bridge_ip username dev s))];
        world := snd (confirm_exchange http bridge_ip username dev s) |}).
Proof.
  unfold confirm_exchange, command_exchange, desired, cached, command_url, command,
    on_of, parsed.
  run.
  destruct (http (PUT _ _) (world s)) as [[resp|] w]; simpl; [|done].
  destruct (body resp) as [ack'|]; simpl; [|done].
  destruct (http (GET _) w) as [[resp'|] w']; simpl; [|done].
  destruct (body resp') as [data|]; simpl; [|done].
  destruct (getitem_str data "state") as [st|e]; simpl; [|done].
  destruct (dict_get st "on" (JBool false)); [|done].
  intros [= ->] [= ->]. by rewrite <- !app_assoc.
Qed.

(** C1, amended: after an acknowledged command, when the confirmation read
    reports an on/off value that disagrees with the commanded value, the
    cached state when the toggle returns is the commanded value; the value
    read is logged ("Confirmed state ...") and not written to the cache. *)
Theorem toggle_keeps_commanded_value bridge_ip username dev (s : state W) ack c :
  parsed (fst (command_exchange http bridge_ip username dev s)) = Ok ack ->
  on_of (fst (confirm_exchange http bridge_ip username dev s)) = Ok (JBool c) ->
  c <> desired s dev ->
  cached (device_states (snd (toggle_device http bridge_ip username dev s))) dev
    = JBool (desired s dev) /\
  last (logged (snd (toggle_device http bridge_ip username dev s))) =
    Some {| lvl := INFO; fmt := "Confirmed state for device %s: %s";
            args := [LStr dev; on_off c] |}.
Proof.
  intros Hput Hget _.
  rewrite (toggle_device_confirmed bridge_ip username dev s ack (JBool c) Hput Hget).
  simpl. split.
  - unfold cached. by rewrite lookup_insert_eq.
  - by rewrite last_app.
Qed.

(** C2: when the command fails (the request raises, or its body is not
    JSON), [toggle_device] returns normally and [device_states] is exactly what
    it was before the call, so the cached state of the device is still the old
    value. *)
Theorem toggle_failed_command_keeps_cache bridge_ip username dev (s : state W) e :
  parsed (fst (command_exchange http bridge_ip username dev s)) = Raise e ->
  fst (toggle_device http bridge_ip username dev s) = Ok tt /\
  device_states (snd (toggle_device http bridge_ip username dev s)) = device_states s /\
  cached (device_states (snd (toggle_device http bridge_ip username dev s))) dev =
    cached (device_states s) dev.
Proof.
  intros Hput.
  destruct (toggle_device_cache bridge_ip username dev s) as [Hret Hds].
  rewrite Hput in Hds.
  split; [exact Hret|]. split; [exact Hds|]. by rewrite Hds.
Qed.

(** C3: when the command is acknowledged and the confirmation read raises,
    [toggle_device] returns normally and the cache holds the commanded
    value, the negation of the state cached before the call. *)
Theorem toggle_failed_confirmation_keeps_commanded bridge_ip username dev (s : state W) ack e :
  parsed (fst (command_exchange http bridge_ip username dev s)) = Ok ack ->
  on_of (fst (confirm_exchange http bridge_ip username dev s)) = Raise e ->
  fst (toggle_device http bridge_ip username dev s) = Ok tt /\
  cached (device_states (snd (toggle_device http bridge_ip username dev s))) dev
    = JBool (negb (truthy (cached (device_states s) dev))).
Proof.
  intros Hput _.
  destruct (toggle_device_cache bridge_ip username dev s) as [Hret Hds].
  rewrite Hput in Hds.
  split; [exact Hret|]. rewrite Hds. unfold cached at 1. by rewrite lookup_insert_eq.
Qed.

(** A bridge that is reliable in every state of the world is reliable over
    every run. *)
Lemma reliable_bridge_run bridge_ip username dev :
  reliable http bridge_ip username dev ->
  forall n (s : state W), reliable_run http bridge_ip username dev n s.
Proof.
  intros Hrel n. induction n as [|n IH]; intros s; [done|].
  destruct (Hrel (world s) (desired s dev)) as [Hack Hget].
  cbn [reliable_run]. by repeat split.
Qed.

(** C4: over [n] presses for which the bridge is reliable, starting from
    cached state [b0], the cached state after the [n] toggles is [b0] XOR
    ([n] odd). *)
Theorem toggle_parity bridge_ip username dev (n : nat) (s : state W) (b0 : bool) :
  reliable_run http bridge_ip username dev n s ->
  cached (device_states s) dev = JBool b0 ->
  cached (device_states (press_times http bridge_ip username dev n s)) dev
    = JBool (xorb b0 (Nat.odd n)).
Proof.
  revert s b0. induction n as [|n IH]; intros s b0 Hrel Hs.
  - simpl. rewrite Hs. by destruct b0.
  - cbn [press_times]. cbn [reliable_run] in Hrel.
    destruct Hrel as ([ack Hack] & _ & Hrest).
    destruct (toggle_device_cache bridge_ip username dev s) as [_ Hds].
    rewrite Hack in Hds.
    rewrite (IH _ (negb b0) Hrest).
    + rewrite Nat.odd_succ, <- Nat.negb_odd. by destruct b0, (Nat.odd n).
    + rewrite Hds. unfold cached at 1. rewrite lookup_insert_eq.
      unfold desired. by rewrite Hs.
Qed.

(** C10: the cache write depends on nothing but the command's reply being
    JSON.  Whatever the status code and whatever the parsed body (an error
    object included), the commanded value is in the cache when the toggle
    returns; when the request raises or the body does not parse, the cache
    is left as it was. *)
Theorem toggle_commits_on_any_json_reply bridge_ip username dev (s : state W) :
  (forall code j,
     fst (command_exchange http bridge_ip username dev s)
       = Some {| status_code := code; body := Some j |} ->
     device_states (snd (toggle_device http bridge_ip username dev s))
       = <[dev := JBool (desired s dev)]> (device_states s)) /\
  (fst (command_exchange http bridge_ip username dev s) = None \/
   (exists code, fst (command_exchange http bridge_ip username dev s)
                   = Some {| status_code := code; body := None |}) ->
   device_states (snd (toggle_device http bridge_ip username dev s)) = device_states s).
Proof.
  destruct (toggle_device_cache bridge_ip username dev s) as [_ Hds].
  split.
  - intros code j Hr. by rewrite Hr in Hds.
  - intros [Hr | [code Hr]]; by rewrite Hr in Hds.
Qed.

End Toggle_properties.

(** Device "1" cached off, an obedient bridge: one toggle sends one PUT
    with [{"on": true}] and one GET, and the cache holds on. *)
Example toggle_once :
  let s := snd (toggle_device lamp_http "192.168.1.2" "user" "1" dark_obedient) in
  cached (device_states s) "1" = JBool true /\
  map fst (exchanges s) =
    [PUT "http://192.168.1.2/api/user/lights/1/state" (command true);
     GET "http://192.168.1.2/api/user/lights/1"] /\
  lamp_on (world s) = true.
Proof. vm_compute. done. Qed.

(** The device is cached on; the bridge refuses the connection. *)
Lemma toggle_failed_command_keeps_cache_witness :
  fst (toggle_device scripted_http "192.168.1.2" "user" "1" lit_unreachable) = Ok tt /\
  device_states (snd (toggle_device scripted_http "192.168.1.2" "user" "1" lit_unreachable))
    = device_states lit_unreachable /\
  cached (device_states (snd (toggle_device scripted_http "192.168.1.2" "user" "1" lit_unreachable))) "1"
    = cached (device_states lit_unreachable) "1".
Proof.
  apply (toggle_failed_command_keeps_cache scripted_http "192.168.1.2" "user" "1"
           lit_unreachable RequestException).
  reflexivity.
Defined.

(** Cached off; the command is acknowledged and the confirmation read reports
    off: the cache holds on, not the value read. *)
Lemma toggle_keeps_commanded_value_counterexample :
  ~ confirmation_overrides scripted_http "192.168.1.2" "user" "1" dark_contradicted.
Proof.
  intros H.
  specialize (H (ack_data true) false eq_refl eq_refl).
  assert (Hc : false <> desired dark_contradicted "1") by (vm_compute; discriminate).
  specialize (H Hc). vm_compute in H. discriminate H.
Qed.

Lemma toggle_keeps_commanded_value_witness :
  cached (device_states (snd (toggle_device scripted_http "192.168.1.2" "user" "1"
                                dark_contradicted))) "1" = JBool true /\
  last (logged (snd (toggle_device scripted_http "192.168.1.2" "user" "1" dark_contradicted))) =
    Some {| lvl := INFO; fmt := "Confirmed state for device %s: %s";
            args := [LStr "1"; on_off false] |}.
Proof.
  apply (toggle_keeps_commanded_value scripted_http "192.168.1.2" "user" "1"
           dark_contradicted (ack_data true) false).
  - reflexivity.
  - reflexivity.
  - vm_compute. discriminate.
Defined.

Lemma toggle_failed_confirmation_keeps_commanded_witness :
  fst (toggle_device scripted_http "192.168.1.2" "user" "1" dark_confirm_lost) = Ok tt /\
  cached (device_states (snd (toggle_device scripted_http "192.168.1.2" "user" "1"
                                dark_confirm_lost))) "1" = JBool true.
Proof.
  apply (toggle_failed_confirmation_keeps_commanded scripted_http "192.168.1.2" "user" "1"
           dark_confirm_lost (ack_data true) RequestException).
  - reflexivity.
  - reflexivity.
Defined.

Lemma toggle_parity_witness :
  cached (device_states (press_times lamp_http "192.168.1.2" "user" "1" 3 dark_obedient)) "1"
    = JBool true.
Proof.
  apply (toggle_parity lamp_http "192.168.1.2" "user" "1" 3 dark_obedient false).
  - cbn [reliable_run]. repeat split; try (eexists; reflexivity); reflexivity.
  - reflexivity.
Defined.

(** The obedient bridge is reliable in every state of the world. *)
Lemma lamp_reliable bridge_ip username dev : reliable lamp_http bridge_ip username dev.
Proof. intros w b. split; [eexists|]; reflexivity. Qed.

Lemma toggle_commits_on_any_json_reply_witness :
  device_states (snd (toggle_device scripted_http "192.168.1.2" "user" "1" dark_rejected))
    = <["1" := JBool true]> (device_states dark_rejected).
Proof.
  apply (proj1 (toggle_commits_on_any_json_reply scripted_http "192.168.1.2" "user" "1"
                  dark_rejected) 500 error_data).
  reflexivity.
Defined.

(** ** Seeding *)

Section Seeding_properties.

Context {W : Type} (http : request -> W -> option response * W).

(** What [initialize_state] does with the outcome of its read. *)
Lemma initialize_state_spec bridge_ip username dev (s : state W) :
  fst (initialize_state http bridge_ip username dev s) = Ok tt /\
  device_states (snd (initialize_state http bridge_ip username dev s)) =
    <[dev := match on_of (fst (http (GET (light_url bridge_ip username dev)) (world s))) with
             | Ok v => v
             | Raise _ => JBool false
             end]> (device_states s) /\
  last (logged (snd (initialize_state http bridge_ip username dev s))) =
    Some match on_of (fst (http (GET (light_url bridge_ip username dev)) (world s))) with
         | Ok v => {| lvl := INFO; fmt := "Initial state for device %s: %s";
                      args := [LStr dev; on_off (truthy v)] |}
         | Raise e => {| lvl := ERROR; fmt := "Error initializing state for device %s: %s";
                         args := [LStr dev; LExn e] |}
         end.
Proof.
  unfold on_of, parsed. run.
  destruct (http (GET _) (world s)) as [[resp|] w]; simpl;
    [|by rewrite last_app].
  destruct (body resp) as [data|]; simpl; [|by rewrite last_app].
  destruct (getitem_str data "state") as [st|e]; simpl; [|by rewrite last_app].
  destruct (dict_get st "on" (JBool false)); simpl; by rewrite last_app.
Qed.

Lemma lacks_state_raises data :
  lacks_state data ->
  exists e, (e = KeyError \/ e = TypeError) /\ getitem_str data "state" = Raise e.
Proof.
  destruct data; simpl; intros H; try (exists TypeError; by auto).
  exists KeyError. rewrite H. by auto.
Qed.

(** C7: [initialize_state] never raises.  When the read fails, because the
    request raises, the body is not JSON, or the parsed body has no
    ["state"] member, it stores [False] for the device; when the read
    succeeds it stores the value read. *)
Theorem seed_stores_fetched_or_off bridge_ip username dev (s : state W) :
  fst (initialize_state http bridge_ip username dev s) = Ok tt /\
  (fst (http (GET (light_url bridge_ip username dev)) (world s)) = None \/
   (exists code, fst (http (GET (light_url bridge_ip username dev)) (world s))
                   = Some {| status_code := code; body := None |}) \/
   (exists code data, fst (http (GET (light_url bridge_ip username dev)) (world s))
                        = reply code data /\ lacks_state data) ->
   device_states (snd (initialize_state http bridge_ip username dev s))
     = <[dev := JBool false]> (device_states s)) /\
  (forall e, on_of (fst (http (GET (light_url bridge_ip username dev)) (world s))) = Raise e ->
   device_states (snd (initialize_state http bridge_ip username dev s))
     = <[dev := JBool false]> (device_states s)) /\
  (forall v, on_of (fst (http (GET (light_url bridge_ip username dev)) (world s))) = Ok v ->
   device_states (snd (initialize_state http bridge_ip username dev s))
     = <[dev := v]> (device_states s)).
Proof.
  destruct (initialize_state_spec bridge_ip username dev s) as (Hret & Hds & _).
  split; [exact Hret|]. split; [|split].
  - intros [Hr | [[code Hr] | (code & data & Hr & Hlack)]]; rewrite Hr in Hds;
      try exact Hds.
    destruct (lacks_state_raises data Hlack) as (e & _ & He).
    unfold on_of in Hds. simpl in Hds. by rewrite He in Hds.
  - intros e He. by rewrite He in Hds.
  - intros v Hv. by rewrite Hv in Hds.
Qed.

(** The last log record of a toggle whose command was acknowledged tells
    how the confirmation read went. *)
Lemma toggle_device_last_log bridge_ip username dev (s : state W) ack :
  parsed (fst (command_exchange http bridge_ip username dev s)) = Ok ack ->
  last (logged (snd (toggle_device http bridge_ip username dev s))) =
    Some match on_of (fst (confirm_exchange http bridge_ip username dev s)) with
         | Ok c => {| lvl := INFO; fmt := "Confirmed state for device %s: %s";
                      args := [LStr dev; on_off (truthy c)] |}
         | Raise e => {| lvl := ERROR; fmt := "Error toggling device %s: %s";
                         args := [LStr dev; LExn e] |}
         end.
Proof.
  unfold confirm_exchange, command_exchange, desired, cached, command_url, command,
    on_of, parsed.
  run.
  destruct (http (PUT _ _) (world s)) as [[resp|] w]; simpl; [|done].
  destruct (body resp) as [ack'|]; simpl; [|done].
  intros _.
  destruct (http (GET _) w) as [[resp'|] w']; simpl; [|by rewrite last_app].
  destruct (body resp') as [data|]; simpl; [|by rewrite last_app].
  destruct (getitem_str data "state") as [st|e]; simpl; [|by rewrite last_app].
  destruct (dict_get st "on" (JBool false)); simpl; by rewrite last_app.
Qed.

(** C8, amended: a reply that parses but has no ["state"] member makes the
    read raise ([KeyError], or [TypeError] when the body is not an object);
    in [initialize_state] and in the confirmation step of [toggle_device]
    the exception reaches the handler, which logs it.  A reply whose
    ["state"] object has no ["on"] member is read as [False]:
    [initialize_state] logs "Initial state ... OFF" and [toggle_device] logs
    "Confirmed state ... OFF". *)
Theorem state_read_fails_or_defaults bridge_ip username dev (s : state W) code data :
  (lacks_state data ->
   (fst (http (GET (light_url bridge_ip username dev)) (world s)) = reply code data ->
    exists e, (e = KeyError \/ e = TypeError) /\
      fst (fetch_on http (light_url bridge_ip username dev) s) = Raise e /\
      last (logged (snd (initialize_state http bridge_ip username dev s))) =
        Some {| lvl := ERROR; fmt := "Error initializing state for device %s: %s";
                args := [LStr dev; LExn e] |}) /\
   (forall ack,
      parsed (fst (command_exchange http bridge_ip username dev s)) = Ok ack ->
      fst (confirm_exchange http bridge_ip username dev s) = reply code data ->
      exists e, (e = KeyError \/ e = TypeError) /\
        last (logged (snd (toggle_device http bridge_ip username dev s))) =
          Some {| lvl := ERROR; fmt := "Error toggling device %s: %s";
                  args := [LStr dev; LExn e] |})) /\
  (forall kvs st,
     data = JObj kvs -> assoc "state" kvs = Some (JObj st) -> assoc "on" st = None ->
     (fst (http (GET (light_url bridge_ip username dev)) (world s)) = reply code data ->
      fst (fetch_on http (light_url bridge_ip username dev) s) = Ok (JBool false) /\
      last (logged (snd (initialize_state http bridge_ip username dev s))) =
        Some {| lvl := INFO; fmt := "Initial state for device %s: %s";
                args := [LStr dev; on_off false] |}) /\
     (forall ack,
        parsed (fst (command_exchange http bridge_ip username dev s)) = Ok ack ->
        fst (confirm_exchange http bridge_ip username dev s) = reply code data ->
        last (logged (snd (toggle_device http bridge_ip username dev s))) =
          Some {| lvl := INFO; fmt := "Confirmed state for device %s: %s";
                  args := [LStr dev; on_off false] |})).
Proof.
  split.
  - intros Hlack. destruct (lacks_state_raises data Hlack) as (e & Hkind & He).
    assert (Hon : on_of (reply code data) = Raise e)
      by (unfold on_of; simpl; by rewrite He).
    split.
    + intros Hr. exists e. split; [exact Hkind|].
      destruct (fetch_on_spec http (light_url bridge_ip username dev) s) as (Hf & _).
      destruct (initialize_state_spec bridge_ip username dev s) as (_ & _ & Hlog).
      rewrite Hr in Hf, Hlog. rewrite Hon in Hf, Hlog. by split.
    + intros ack Hput Hr. exists e. split; [exact Hkind|].
      rewrite (toggle_device_last_log bridge_ip username dev s ack Hput).
      by rewrite Hr, Hon.
  - intros kvs st -> Hst Hno.
    assert (Hon : on_of (reply code (JObj kvs)) = Ok (JBool false))
      by (unfold on_of; simpl; by rewrite Hst; simpl; rewrite Hno).
    split.
    + intros Hr.
      destruct (fetch_on_spec http (light_url bridge_ip username dev) s) as (Hf & _).
      destruct (initialize_state_spec bridge_ip username dev s) as (_ & _ & Hlog).
      rewrite Hr in Hf, Hlog. rewrite Hon in Hf, Hlog. by split.
    + intros ack Hput Hr.
      rewrite (toggle_device_last_log bridge_ip username dev s ack Hput).
      by rewrite Hr, Hon.
Qed.

End Seeding_properties.

(** Seeding against a bridge that does not know the user: the error list
    has no ["state"], the device is cached off. *)
Example seed_unauthorized :
  let r := initialize_state scripted_http "192.168.1.2" "user" "1" unseeded_unauthorized in
  fst r = Ok tt /\ device_states (snd r) !! "1" = Some (JBool false) /\
  last (logged (snd r)) =
    Some {| lvl := ERROR; fmt := "Error initializing state for device %s: %s";
            args := [LStr "1"; LExn TypeError] |}.
Proof. vm_compute. done. Qed.

Lemma seed_stores_fetched_or_off_witness :
  device_states (snd (initialize_state scripted_http "192.168.1.2" "user" "1" unseeded_lit))
    = <["1" := JBool true]> (device_states unseeded_lit).
Proof.
  apply (proj2 (proj2 (proj2 (seed_stores_fetched_or_off scripted_http
                                "192.168.1.2" "user" "1" unseeded_lit))) (JBool true)).
  reflexivity.
Defined.

(** Nothing cached; the read returns a device object whose state has no
    ["on"]: the read yields [False] instead of failing. *)
Lemma state_read_fails_or_defaults_counterexample :
  ~ missing_state_is_failure scripted_http (light_url "192.168.1.2" "user" "1") unseeded_onless.
Proof.
  intros H.
  destruct (H 200 (JObj [("state", JObj [("reachable", JBool false)])]) eq_refl eq_refl)
    as [e He].
  vm_compute in He. discriminate He.
Qed.

Lemma state_read_fails_or_defaults_witness :
  (exists e, (e = KeyError \/ e = TypeError) /\
     last (logged (snd (toggle_device scripted_http "192.168.1.2" "user" "1"
                          dark_confirm_stateless))) =
       Some {| lvl := ERROR; fmt := "Error toggling device %s: %s";
               args := [LStr "1"; LExn e] |}) /\
  (fst (fetch_on scripted_http (light_url "192.168.1.2" "user" "1") unseeded_onless)
     = Ok (JBool false) /\
   last (logged (snd (initialize_state scripted_http "192.168.1.2" "user" "1" unseeded_onless))) =
     Some {| lvl := INFO; fmt := "Initial state for device %s: %s";
             args := [LStr "1"; on_off false] |}).
Proof.
  split.
  - apply (proj2 (proj1 (state_read_fails_or_defaults scripted_http "192.168.1.2" "user" "1"
                           dark_confirm_stateless 200 (JObj [("name", JStr "Desk lamp")]))
                    eq_refl) (ack_data true)).
    + reflexivity.
    + reflexivity.
  - apply (proj1 (proj2 (state_read_fails_or_defaults scripted_http "192.168.1.2" "user" "1"
                           unseeded_onless 200
                           (JObj [("state", JObj [("reachable", JBool false)])]))
                    [("state", JObj [("reachable", JBool false)])]
                    [("reachable", JBool false)] eq_refl eq_refl eq_refl)).
    reflexivity.
Defined.

(** ** Registration *)

Section Registration_properties.

Context {W : Type} (http : request -> W -> option response * W).
Context (clock : W -> Z) (sleep : Z -> W -> W).

Lemma register_attempt_cases url payload (s : state W) :
  let r := fst (http (POST url payload) (world s)) in
  let s' := snd (register_attempt http url payload s) in
  ((exists u, success_reply r u /\ fst (register_attempt http url payload s) = Ok (Some u)) \/
   ((forall u, ~ success_reply r u) /\ fst (register_attempt http url payload s) = Ok None)) /\
  device_states s' = device_states s /\
  hotkeys s' = hotkeys s /\
  exchanges s' = (exchanges s ++ [(POST url payload, r)])%list /\
  world s' = snd (http (POST url payload) (world s)).
Proof.
  intros r s'. subst r s'. run.
  destruct (http (POST url payload) (world s)) as [[[code bd]|] w]; simpl.
  2:{ split; [right; split; [|done]|done]. intros u (?&?&?&?&?&_); discriminate. }
  destruct bd as [result|]; simpl.
  2:{ split; [right; split; [|done]|done]. intros u (?&?&?&?&?&_); discriminate. }
  destruct result as [| b | n | str | xs | obj]; simpl;
    try (split; [right; split; [|done]|done];
         intros u (?&?&?&?&?&_); discriminate).
  - destruct str; simpl;
      (split; [right; split; [|done]|done]; intros u (?&?&?&?&?&_); discriminate).
  - destruct xs as [|first rest]; simpl.
    { split; [right; split; [|done]|done]. intros u (?&?&?&?&?&_); discriminate. }
    destruct first as [| b | n | str | ys | kvs]; simpl;
      try (split; [right; split; [|done]|done];
           intros u (?&?&?&?&?&_); discriminate).
    + destruct (is_infix "success" str); simpl;
        (split; [right; split; [|done]|done]; intros u (?&?&?&?&?&_); discriminate).
    + destruct (existsb _ ys); simpl;
        (split; [right; split; [|done]|done]; intros u (?&?&?&?&?&_); discriminate).
    + destruct (assoc "success" kvs) as [succ|] eqn:Hsucc; simpl.
      * try rewrite Hsucc. simpl.
        destruct succ as [| b | n | str | ys | cred]; simpl;
          try (split; [right; split; [|done]|done];
               intros u (?&?&?&?&?&?&?); simplify_eq).
        destruct (assoc "username" cred) as [u|] eqn:Hu; simpl.
        -- split; [left|done]. exists u. split; [|done].
           by exists code, kvs, rest, cred.
        -- split; [right; split; [|done]|done].
           intros u (?&?&?&?&?&?&?); simplify_eq.
      *         destruct (default (JObj []) (assoc "error" kvs)); simpl;
          (split; [right; split; [|done]|done];
           intros u (?&?&?&?&?&?&?); simplify_eq).
Qed.

Lemma success_reply_functional r u u' :
  success_reply r u -> success_reply r u' -> u = u'.
Proof.
  intros (?&?&?&?&?&?&?) (?&?&?&?&?&?&?). simplify_eq. congruence.
Qed.

Lemma error_reply_no_success r u : error_reply r -> ~ success_reply r u.
Proof.
  intros (?&?&?&?&?&?&?) (?&?&?&?&?&?&?). simplify_eq.
Qed.

Lemma raise_no_success r e u : parsed r = Raise e -> ~ success_reply r u.
Proof.
  intros Hr (?&?&?&?&?&?&?). by subst r.
Qed.

Lemma register_poll_unfold fuel url payload start timeout (s : state W) :
  register_poll http clock sleep (S fuel) url payload start timeout s =
    if clock (world s) - start <? 1000 * timeout then
      match fst (register_attempt http url payload s) with
      | Ok (Some u) => (Ok (Some u), snd (register_attempt http url payload s))
      | Ok None =>
          register_poll http clock sleep fuel url payload start timeout
            (after_pass http sleep url payload s)
      | Raise e => (Raise e, snd (register_attempt http url payload s))
      end
    else
      (Ok (Some JNull),
       snd (log ERROR "Failed to register with the Hue Bridge within the timeout period." [] s)).
Proof.
  cbn [register_poll]. unfold after_pass, bind, time_time, ret. simpl.
  destruct (clock (world s) - start <? 1000 * timeout); [|done].
  by destruct (register_attempt http url payload s) as [[[u|]|e] s1].
Qed.

Lemma poll_success fuel url payload start timeout (s : state W) u :
  clock (world s) - start < 1000 * timeout ->
  success_reply (fst (http (POST url payload) (world s))) u ->
  exists s',
    register_poll http clock sleep (S fuel) url payload start timeout s = (Ok (Some u), s') /\
    world s' = snd (http (POST url payload) (world s)).
Proof.
  intros Hguard Hsucc. rewrite register_poll_unfold.
  apply Z.ltb_lt in Hguard. rewrite Hguard.
  destruct (register_attempt_cases url payload s) as ([(u' & Hu' & Hret) | [Hno _]] & _ & _ & _ & Hw).
  - rewrite Hret. rewrite (success_reply_functional _ _ _ Hsucc Hu'). eauto.
  - by destruct (Hno u).
Qed.

Lemma poll_continue fuel url payload start timeout (s : state W) :
  clock (world s) - start < 1000 * timeout ->
  (forall u, ~ success_reply (fst (http (POST url payload) (world s))) u) ->
  register_poll http clock sleep (S fuel) url payload start timeout s =
    register_poll http clock sleep fuel url payload start timeout (after_pass http sleep url payload s) /\
  world (after_pass http sleep url payload s) = sleep 2000 (snd (http (POST url payload) (world s))) /\
  exchanges (after_pass http sleep url payload s) =
    (exchanges s ++ [(POST url payload, fst (http (POST url payload) (world s)))])%list.
Proof.
  intros Hguard Hno. rewrite register_poll_unfold.
  apply Z.ltb_lt in Hguard. rewrite Hguard.
  destruct (register_attempt_cases url payload s) as ([(u' & Hu' & _) | [_ Hret]] & _ & _ & Hex & Hw).
  - by destruct (Hno u').
  - rewrite Hret. unfold after_pass. simpl. by rewrite Hw, Hex.
Qed.

(** How a run of the loop can end. *)
Lemma poll_outcome url payload start timeout fuel (s : state W) :
  exists new,
    exchanges (snd (register_poll http clock sleep fuel url payload start timeout s))
      = (exchanges s ++ new)%list /\
    ((fst (register_poll http clock sleep fuel url payload start timeout s) = Ok None /\
      Forall no_success new) \/
     (exists v pre r,
        fst (register_poll http clock sleep fuel url payload start timeout s) = Ok (Some v) /\
        new = (pre ++ [(POST url payload, r)])%list /\
        success_reply r v /\ Forall no_success pre) \/
     (fst (register_poll http clock sleep fuel url payload start timeout s) = Ok (Some JNull) /\
      Forall no_success new /\
      1000 * timeout <=
        clock (world (snd (register_poll http clock sleep fuel url payload start timeout s)))
        - start)).
Proof.
  revert s. induction fuel as [|fuel IH]; intros s.
  - exists []. simpl. rewrite app_nil_r. split; [done|]. left. by split.
  - rewrite register_poll_unfold.
    destruct (clock (world s) - start <? 1000 * timeout) eqn:Hguard.
    + destruct (register_attempt_cases url payload s)
        as ([(u & Hu & Hret) | [Hno Hret]] & _ & _ & Hex & Hw); rewrite Hret.
      * exists [(POST url payload, fst (http (POST url payload) (world s)))].
        split; [exact Hex|]. right. left.
        exists u, [], (fst (http (POST url payload) (world s))). by repeat split.
      * destruct (IH (after_pass http sleep url payload s)) as (new & Hnew & Hcases).
        assert (Hex' : exchanges (after_pass http sleep url payload s) =
                       (exchanges s ++ [(POST url payload,
                                         fst (http (POST url payload) (world s)))])%list)
          by (unfold after_pass; simpl; exact Hex).
        exists ((POST url payload, fst (http (POST url payload) (world s))) :: new).
        split.
        { rewrite Hnew, Hex', <- app_assoc. done. }
        destruct Hcases as [[Hr Hall] | [(v & pre & r & Hr & Hn & Hs & Hall) | (Hr & Hall & Hlate)]].
        -- left. split; [exact Hr|]. constructor; [exact Hno | exact Hall].
        -- right. left.
           exists v, ((POST url payload, fst (http (POST url payload) (world s))) :: pre), r.
           split; [exact Hr|]. split; [by rewrite Hn|]. split; [exact Hs|].
           constructor; [exact Hno | exact Hall].
        -- right. right. split; [exact Hr|]. split; [|exact Hlate].
           constructor; [exact Hno | exact Hall].
    + exists []. simpl. rewrite app_nil_r. split; [done|]. right. right.
      split; [done|]. split; [constructor|]. apply Z.ltb_ge in Hguard. lia.
Qed.

(** With a clock that does not go back and a sleep that lasts, enough fuel
    reaches a [return]. *)
Lemma poll_returns url payload start timeout fuel (s : state W) :
  clock_monotone http clock ->
  sleep_lasts clock sleep ->
  (0 < fuel)%nat ->
  1000 * timeout - (clock (world s) - start) <= 2000 * (Z.of_nat fuel - 1) ->
  fst (register_poll http clock sleep fuel url payload start timeout s) <> Ok None.
Proof.
  intros Hmono Hsleep. revert s. induction fuel as [|fuel IH]; intros s Hpos Hfuel; [lia|].
  rewrite register_poll_unfold.
  destruct (clock (world s) - start <? 1000 * timeout) eqn:Hguard; [|done].
  apply Z.ltb_lt in Hguard.
  destruct (register_attempt_cases url payload s)
    as ([(u & Hu & Hret) | [Hno Hret]] & _ & _ & _ & Hw); rewrite Hret; [done|].
  assert (Hclock : clock (world s) + 2000 <= clock (world (after_pass http sleep url payload s))).
  { unfold after_pass. simpl. rewrite Hw.
    pose proof (Hmono (POST url payload) (world s)).
    pose proof (Hsleep (1000 * 2) (snd (http (POST url payload) (world s)))). lia. }
  apply IH; lia.
Qed.

(** A run of the loop that returns is a run of the protocol. *)
Lemma poll_polling url payload start timeout fuel (s : state W) v s' :
  register_poll http clock sleep fuel url payload start timeout s = (Ok (Some v), s') ->
  exists new,
    exchanges s' = (exchanges s ++ new)%list /\
    polling http clock sleep url payload start timeout (world s) new v (world s').
Proof.
  revert s. induction fuel as [|fuel IH]; intros s; [done|].
  rewrite register_poll_unfold.
  destruct (clock (world s) - start <? 1000 * timeout) eqn:Hguard.
  - apply Z.ltb_lt in Hguard.
    destruct (register_attempt_cases url payload s)
      as ([(u & Hu & Hret) | [Hno Hret]] & _ & _ & Hex & Hw); rewrite Hret.
    + intros [= <- <-]. eexists. split; [exact Hex|]. rewrite Hw.
      by apply polling_registered.
    + intros Hrun. destruct (IH _ Hrun) as (new & Hnew & Hpoll).
      destruct (poll_continue fuel url payload start timeout s Hguard Hno) as (_ & Hw' & Hex').
      rewrite Hw' in Hpoll. rewrite Hex', <- app_assoc in Hnew.
      eexists. split; [exact Hnew|]. by apply polling_waiting.
  - apply Z.ltb_ge in Hguard. intros [= <- <-]. exists []. rewrite app_nil_r.
    split; [done|]. by apply polling_failed.
Qed.

(** What a run of the protocol amounts to: every request but the last got
    no success reply; the run ended on the first success reply, with its
    credential and without waiting, or with [None], no reply having been a
    success, at a moment when the timeout had elapsed. *)
Lemma polling_summary url payload start timeout w xs v w' :
  polling http clock sleep url payload start timeout w xs v w' ->
  Forall (fun x => fst x = POST url payload) xs /\
  ((exists pre r, xs = (pre ++ [(POST url payload, r)])%list /\
                  success_reply r v /\ Forall no_success pre) \/
   (v = JNull /\ Forall no_success xs /\ 1000 * timeout <= clock w' - start)).
Proof.
  induction 1 as [w Hlate | w u Hguard Hsucc | w xs v w' Hguard Hno _ [IHall IH]].
  - split; [constructor|]. right. by repeat split.
  - split; [by repeat constructor|]. left. exists [], (fst (http (POST url payload) w)).
    by repeat split.
  - split; [by constructor|].
    destruct IH as [(pre & r & -> & Hs & Hpre) | (-> & Hall & Hlate)].
    + left. exists ((POST url payload, fst (http (POST url payload) w)) :: pre), r.
      split; [done|]. split; [done|]. by constructor.
    + right. split; [done|]. split; [by constructor | done].
Qed.

(** C6: the registration poll.  Whenever [register_hue_username] returns,
    what it did is a run of the protocol from the moment it was called:
    while time was left it sent the pairing request; it returned the
    credential of the first success reply, at once and not before; after
    every other reply (an error object, a failed request or parse) it
    waited two seconds and polled again; and it returned [None] only with
    no success reply and the timeout elapsed.  It never raises, and with a
    clock that does not go back and a sleep that lasts it does return. *)
Theorem registration_polling bridge_ip device_type timeout fuel (s : state W) :
  (forall v s',
     register_hue_username http clock sleep fuel bridge_ip device_type timeout s
       = (Ok (Some v), s') ->
     exists new,
       exchanges s' = (exchanges s ++ new)%list /\
       polling http clock sleep (register_url bridge_ip) (register_payload device_type)
         (clock (world s)) timeout (world s) new v (world s') /\
       ((exists pre r,
           new = (pre ++ [(POST (register_url bridge_ip) (register_payload device_type), r)])%list /\
           success_reply r v /\ Forall no_success pre) \/
        (v = JNull /\ Forall no_success new /\
         1000 * timeout <= clock (world s') - clock (world s)))) /\
  (forall e,
     fst (register_hue_username http clock sleep fuel bridge_ip device_type timeout s)
       <> Raise e) /\
  (clock_monotone http clock ->
   sleep_lasts clock sleep ->
   (0 < fuel)%nat ->
   timeout <= 2 * (Z.of_nat fuel - 1) ->
   exists v s',
     register_hue_username http clock sleep fuel bridge_ip device_type timeout s
       = (Ok (Some v), s')).
Proof.
  unfold register_hue_username, bind, time_time. simpl.
  fold (register_url bridge_ip) (register_payload device_type).
  set (s0 := {| device_states := device_states s; logged := _; hotkeys := hotkeys s;
                exchanges := exchanges s; world := world s |}).
  split; [|split].
  - intros v s' Hrun.
    destruct (poll_polling _ _ _ _ _ _ _ _ Hrun) as (new & Hex & Hpoll).
    exists new. split; [exact Hex|]. split; [exact Hpoll|].
    by destruct (polling_summary _ _ _ _ _ _ _ _ Hpoll) as [_ ?].
  - intros e He.
    destruct (poll_outcome (register_url bridge_ip) (register_payload device_type)
                (clock (world s)) timeout fuel s0)
      as (new & _ & [[Hr _] | [(v & pre & r & Hr & _) | (Hr & _)]]);
      rewrite Hr in He; discriminate.
  - intros Hmono Hsleep Hpos Hfuel.
    pose proof (poll_returns (register_url bridge_ip) (register_payload device_type)
                  (clock (world s)) timeout fuel s0 Hmono Hsleep Hpos) as Hret.
    destruct (poll_outcome (register_url bridge_ip) (register_payload device_type)
                (clock (world s)) timeout fuel s0) as (new & _ & Hcases).
    destruct (register_poll http clock sleep fuel (register_url bridge_ip)
                (register_payload device_type) (clock (world s)) timeout s0) as [res s'].
    simpl in *.
    destruct Hcases as [[Hr _] | [(v & pre & r & Hr & _) | (Hr & _)]].
    + exfalso. apply Hret; [lia | exact Hr].
    + subst res. by exists v, s'.
    + subst res. by exists JNull, s'.
Qed.

End Registration_properties.

(** The two outcomes, run with the default arguments: the button pressed
    between the second and the third request, and a bridge that never
    pairs. *)
Example register_pressed_late :
  let r := register_hue_username scripted_http now scripted_sleep 20
             "192.168.1.2" default_device_type default_timeout pressed_late in
  fst r = Ok (Some (JStr "k3yQ")) /\ now (world (snd r)) = 4060.
Proof. vm_compute. done. Qed.

Example register_never_pressed :
  let r := register_hue_username scripted_http now scripted_sleep 20
             "192.168.1.2" default_device_type default_timeout never_pressed in
  fst r = Ok (Some JNull) /\ now (world (snd r)) = 30020 /\
  length (exchanges (snd r)) = 15%nat.
Proof. vm_compute. done. Qed.

(** The default arguments against a bridge that never pairs: sixteen
    passes are enough to return, and the run is the protocol's, ending in
    [None] half a minute or more after the call. *)
Lemma registration_polling_witness :
  exists v s' new,
    register_hue_username scripted_http now scripted_sleep 16
      "192.168.1.2" "hueshortcut#pc" 30 never_pressed = (Ok (Some v), s') /\
    exchanges s' = (exchanges never_pressed ++ new)%list /\
    polling scripted_http now scripted_sleep (register_url "192.168.1.2")
      (register_payload "hueshortcut#pc") (now (world never_pressed)) 30
      (world never_pressed) new v (world s').
Proof.
  pose proof (registration_polling scripted_http now scripted_sleep
                "192.168.1.2" "hueshortcut#pc" 30 16 never_pressed) as (Hrun & _ & Hret).
  destruct (Hret ltac:(intros req [t [|[ms r] sc]]; simpl; lia)
                 ltac:(intros ms [t sc]; simpl; lia) ltac:(lia) ltac:(lia))
    as (v & s' & Hv).
  destruct (Hrun v s' Hv) as (new & Hex & Hpoll & _).
  exists v, s', new. split; [exact Hv|]. split; [exact Hex | exact Hpoll].
Defined.

(** ** Startup *)

Section Startup_properties.

Context {W : Type} (http : request -> W -> option response * W).
Context (hotkey_error : string -> option exn).

Lemma initialize_state_effects bridge_ip username dev (s : state W) :
  fst (initialize_state http bridge_ip username dev s) = Ok tt /\
  hotkeys (snd (initialize_state http bridge_ip username dev s)) = hotkeys s /\
  exists r, startup_record r /\
    logged (snd (initialize_state http bridge_ip username dev s)) = (logged s ++ [r])%list.
Proof.
  assert (Hfin : forall (l : list log_record) r,
            startup_record r ->
            Ok tt = Ok tt /\ hotkeys s = hotkeys s /\
            exists r', startup_record r' /\ (l ++ [r])%list = (l ++ [r'])%list)
    by (intros l r Hr; split; [done|]; split; [done|]; by exists r).
  unfold initialize_state, fetch_on, try_except, bind, ret, lift,
    log_exception, log, requests, response_json, write_state.
  simpl.
  destruct (http (GET _) (world s)) as [[resp|] w]; simpl;
    [|apply Hfin; right; left; by split].
  destruct (body resp) as [data|]; simpl; [|apply Hfin; right; left; by split].
  destruct (getitem_str data "state") as [st|e]; simpl;
    [|apply Hfin; right; left; by split].
  destruct (dict_get st "on" (JBool false)); simpl; apply Hfin;
    [left | right; left]; by split.
Qed.

(** The state [initialize_state] ends in. *)
Lemma initialize_state_state bridge_ip username dev (s : state W) :
  exists r,
    snd (initialize_state http bridge_ip username dev s) =
      {| device_states := <[dev := seeded_value http bridge_ip username dev s]> (device_states s);
         logged := (logged s ++ [r])%list;
         hotkeys := hotkeys s;
         exchanges := (exchanges s ++
                       [(GET (light_url bridge_ip username dev),
                         fst (http (GET (light_url bridge_ip username dev)) (world s)))])%list;
         world := snd (http (GET (light_url bridge_ip username dev)) (world s)) |}.
Proof.
  unfold seeded_value, on_of, parsed. run.
  destruct (http (GET _) (world s)) as [[resp|] w]; simpl; [|by eexists].
  destruct (body resp) as [data|]; simpl; [|by eexists].
  destruct (getitem_str data "state") as [st|e]; simpl; [|by eexists].
  destruct (dict_get st "on" (JBool false)); simpl; by eexists.
Qed.

(** One pass of the loop on a binding whose hotkey the library accepts,
    and on one it refuses. *)
Lemma bind_devices_cons bridge_ip username d rest (s : state W) :
  hotkey_error (hotkey d) = None ->
  bind_devices http hotkey_error bridge_ip username (d :: rest) s =
  bind_devices http hotkey_error bridge_ip username rest
    (bound_one http hotkey_error bridge_ip username d s).
Proof.
  intros Hacc. cbn [bind_devices]. unfold bound_one, bind at 1.
  destruct (initialize_state_effects bridge_ip username (device_id d) s) as (Hret & _).
  destruct (initialize_state http bridge_ip username (device_id d) s) as [res s1].
  simpl in Hret. subst res. unfold bind, log, add_hotkey. simpl. by rewrite Hacc.
Qed.

Lemma bind_devices_refused bridge_ip username d rest e (s : state W) :
  hotkey_error (hotkey d) = Some e ->
  bind_devices http hotkey_error bridge_ip username (d :: rest) s =
    (Raise e, bound_one http hotkey_error bridge_ip username d s).
Proof.
  intros Href. cbn [bind_devices]. unfold bound_one, bind at 1.
  destruct (initialize_state_effects bridge_ip username (device_id d) s) as (Hret & _).
  destruct (initialize_state http bridge_ip username (device_id d) s) as [res s1].
  simpl in Hret. subst res. unfold bind, log, add_hotkey. simpl. by rewrite Href.
Qed.

(** What one pass leaves: the device seeded by one read, and the hotkey
    registered when the library accepts it. *)
Lemma bound_one_state bridge_ip username d (s : state W) :
  device_states (bound_one http hotkey_error bridge_ip username d s) =
    <[device_id d := seeded_value http bridge_ip username (device_id d) s]> (device_states s) /\
  exchanges (bound_one http hotkey_error bridge_ip username d s) =
    (exchanges s ++
     [(GET (light_url bridge_ip username (device_id d)),
       fst (http (GET (light_url bridge_ip username (device_id d))) (world s)))])%list /\
  hotkeys (bound_one http hotkey_error bridge_ip username d s) =
    match hotkey_error (hotkey d) with
    | None => (hotkeys s ++ [(hotkey d, device_id d)])%list
    | Some _ => hotkeys s
    end /\
  exists r,
    startup_record r /\
    logged (bound_one http hotkey_error bridge_ip username d s) =
      (logged s ++
       [r; {| lvl := INFO; fmt := "Registering hotkey %s for device %s (%s)";
              args := [LStr (hotkey d); LStr (device_id d);
                       LStr (default "Unknown" (name d))] |}])%list.
Proof.
  destruct (initialize_state_effects bridge_ip username (device_id d) s)
    as (_ & _ & r & Hr & Hlog).
  unfold bound_one, add_hotkey, log.
  destruct (initialize_state_state bridge_ip username (device_id d) s) as [r' Hs].
  rewrite Hs in Hlog |- *. simpl in Hlog. apply app_inv_head in Hlog. injection Hlog as ->.
  destruct (hotkey_error (hotkey d)); simpl; (repeat split; try done);
    exists r; by rewrite <- app_assoc.
Qed.

(** The startup loop on a device list the library takes whole: it
    completes, seeds every binding's device with one read, in the order of
    the list, binds one hotkey per entry, in order, and logs nothing but
    startup records. *)
Lemma bind_devices_spec bridge_ip username devices (s : state W) :
  accepted hotkey_error devices ->
  fst (bind_devices http hotkey_error bridge_ip username devices s) = Ok tt /\
  hotkeys (snd (bind_devices http hotkey_error bridge_ip username devices s)) =
    (hotkeys s ++ map (fun d => (hotkey d, device_id d)) devices)%list /\
  (exists new,
     logged (snd (bind_devices http hotkey_error bridge_ip username devices s))
       = (logged s ++ new)%list /\
     Forall startup_record new) /\
  (forall d, In d devices ->
     is_Some (device_states (snd (bind_devices http hotkey_error bridge_ip username devices s))
                !! device_id d)) /\
  (forall k, ~ In k (map device_id devices) ->
     device_states (snd (bind_devices http hotkey_error bridge_ip username devices s)) !! k
       = device_states s !! k) /\
  (forall k, is_Some (device_states s !! k) ->
     is_Some (device_states (snd (bind_devices http hotkey_error bridge_ip username devices s))
                !! k)) /\
  exists reads,
    exchanges (snd (bind_devices http hotkey_error bridge_ip username devices s))
      = (exchanges s ++ reads)%list /\
    map fst reads = map (fun d => GET (light_url bridge_ip username (device_id d))) devices.
Proof.
  intros Hacc. revert s. induction Hacc as [|d rest Hd _ IH]; intros s.
  - simpl. rewrite !app_nil_r. split; [done|]. split; [done|].
    split; [exists []; by rewrite app_nil_r|].
    split; [done|]. split; [done|]. split; [done|].
    exists []. by rewrite app_nil_r.
  - rewrite (bind_devices_cons _ _ _ _ _ Hd).
    destruct (IH (bound_one http hotkey_error bridge_ip username d s))
      as (IHret & IHhk & (new & IHlog & IHall) & IHin & IHout & IHkeep & reads & IHex & IHmap).
    destruct (bound_one_state bridge_ip username d s) as (Hds & Hex & Hhk & r & Hr & Hlog).
    rewrite Hd in Hhk.
    split; [exact IHret|]. split; [|split; [|split; [|split; [|split]]]].
    + rewrite IHhk, Hhk. simpl. by rewrite <- app_assoc.
    + eexists (r :: _ :: new). split.
      * rewrite IHlog, Hlog. rewrite <- !app_assoc. reflexivity.
      * constructor; [exact Hr|]. constructor; [|exact IHall].
        right. right. by split.
    + intros d' [<- | Hin]; [|by apply IHin].
      apply IHkeep. rewrite Hds, lookup_insert_eq. by eexists.
    + intros k Hk. rewrite IHout by (intros Hin; apply Hk; by right).
      rewrite Hds, lookup_insert_ne; [done|]. intros Heq. apply Hk. by left.
    + intros k Hk. apply IHkeep. rewrite Hds.
      destruct (decide (device_id d = k)) as [->|Hne];
        [rewrite lookup_insert_eq; by eexists | by rewrite lookup_insert_ne].
    + eexists (_ :: reads). split.
      * rewrite IHex, Hex, <- app_assoc. reflexivity.
      * simpl. by rewrite IHmap.
Qed.

(** C9, amended: on a device list in which two bindings share a
    [device_id], and whose hotkeys the [keyboard] library accepts, the
    startup loop makes no check for duplicates.  It completes; it seeds
    the device once per binding (one state read per entry of the list, in
    order, so the shared device is read for each of its bindings, and it
    ends with a cached state); it binds both hotkeys to that [device_id]
    (as it binds every entry, in order); and it adds to the log only the
    seeding records and the "Registering hotkey" INFO records. *)
Theorem startup_binds_duplicates bridge_ip username devices (s : state W) i j d1 d2 :
  accepted hotkey_error devices ->
  devices !! i = Some d1 ->
  devices !! j = Some d2 ->
  i <> j ->
  device_id d1 = device_id d2 ->
  fst (bind_devices http hotkey_error bridge_ip username devices s) = Ok tt /\
  hotkeys (snd (bind_devices http hotkey_error bridge_ip username devices s))
    !! (length (hotkeys s) + i)%nat = Some (hotkey d1, device_id d1) /\
  hotkeys (snd (bind_devices http hotkey_error bridge_ip username devices s))
    !! (length (hotkeys s) + j)%nat = Some (hotkey d2, device_id d1) /\
  length (hotkeys (snd (bind_devices http hotkey_error bridge_ip username devices s)))
    = (length (hotkeys s) + length devices)%nat /\
  (exists reads,
     exchanges (snd (bind_devices http hotkey_error bridge_ip username devices s))
       = (exchanges s ++ reads)%list /\
     map fst reads = map (fun d => GET (light_url bridge_ip username (device_id d))) devices /\
     fst <$> reads !! i = Some (GET (light_url bridge_ip username (device_id d1))) /\
     fst <$> reads !! j = Some (GET (light_url bridge_ip username (device_id d1)))) /\
  is_Some (device_states (snd (bind_devices http hotkey_error bridge_ip username devices s))
             !! device_id d1) /\
  exists new,
    logged (snd (bind_devices http hotkey_error bridge_ip username devices s))
      = (logged s ++ new)%list /\
    Forall startup_record new.
Proof.
  intros Hacc Hi Hj _ Hsame.
  destruct (bind_devices_spec bridge_ip username devices s Hacc)
    as (Hret & Hhk & Hlog & Hin & _ & _ & reads & Hex & Hmap).
  split; [exact Hret|]. rewrite Hhk.
  split; [|split; [|split; [|split; [|split; [|exact Hlog]]]]].
  - rewrite lookup_app_r by lia.
    replace (length (hotkeys s) + i - length (hotkeys s))%nat with i by lia.
    by rewrite list_lookup_fmap, Hi.
  - rewrite lookup_app_r by lia.
    replace (length (hotkeys s) + j - length (hotkeys s))%nat with j by lia.
    rewrite list_lookup_fmap, Hj. simpl. by rewrite Hsame.
  - by rewrite length_app, length_map.
  - exists reads. split; [exact Hex|]. split; [exact Hmap|].
    change (map fst reads) with (fst <$> reads) in Hmap.
    rewrite <- !list_lookup_fmap, Hmap.
    change (map ?f devices) with (f <$> devices).
    rewrite !list_lookup_fmap, Hi, Hj. simpl. by rewrite Hsame.
  - apply Hin. by eapply list_elem_of_In, list_elem_of_lookup_2.
Qed.

End Startup_properties.

(** One light bound to two hotkeys, an obedient bridge: both hotkeys are
    bound and the log holds four INFO records. *)
Lemma startup_binds_duplicates_counterexample :
  ~ duplicates_rejected_or_warned lamp_http plain_keyboard "192.168.1.2" "user" twice_bound
      fresh_obedient.
Proof.
  intros H.
  destruct H as [[e He] | [Hlen | (r & Hin & Hlvl)]].
  - intros Hnd. apply NoDup_cons in Hnd as [Hnotin _]. apply Hnotin. left.
  - vm_compute in He. discriminate He.
  - vm_compute in Hlen. lia.
  - vm_compute in Hin.
    destruct Hin as [<- | [<- | [<- | [<- | []]]]]; destruct Hlvl; discriminate.
Qed.

Lemma startup_binds_duplicates_witness :
  fst (bind_devices lamp_http plain_keyboard "192.168.1.2" "user" twice_bound fresh_obedient)
    = Ok tt /\
  hotkeys (snd (bind_devices lamp_http plain_keyboard "192.168.1.2" "user" twice_bound
                  fresh_obedient))
    !! (length (hotkeys fresh_obedient) + 0)%nat = Some ("ctrl+shift+l", "1") /\
  hotkeys (snd (bind_devices lamp_http plain_keyboard "192.168.1.2" "user" twice_bound
                  fresh_obedient))
    !! (length (hotkeys fresh_obedient) + 1)%nat = Some ("ctrl+alt+l", "1") /\
  length (hotkeys (snd (bind_devices lamp_http plain_keyboard "192.168.1.2" "user" twice_bound
                          fresh_obedient)))
    = (length (hotkeys fresh_obedient) + length twice_bound)%nat /\
  (exists reads,
     exchanges (snd (bind_devices lamp_http plain_keyboard "192.168.1.2" "user" twice_bound
                       fresh_obedient))
       = (exchanges fresh_obedient ++ reads)%list /\
     map fst reads
       = map (fun d => GET (light_url "192.168.1.2" "user" (device_id d))) twice_bound /\
     fst <$> reads !! 0%nat = Some (GET (light_url "192.168.1.2" "user" "1")) /\
     fst <$> reads !! 1%nat = Some (GET (light_url "192.168.1.2" "user" "1"))) /\
  is_Some (device_states (snd (bind_devices lamp_http plain_keyboard "192.168.1.2" "user"
                                 twice_bound fresh_obedient)) !! "1") /\
  exists new,
    logged (snd (bind_devices lamp_http plain_keyboard "192.168.1.2" "user" twice_bound
                   fresh_obedient))
      = (logged fresh_obedient ++ new)%list /\
    Forall startup_record new.
Proof.
  apply (startup_binds_duplicates lamp_http plain_keyboard "192.168.1.2" "user" twice_bound
           fresh_obedient 0%nat 1%nat
           {| device_id := "1"; hotkey := "ctrl+shift+l"; name := Some "Desk lamp" |}
           {| device_id := "1"; hotkey := "ctrl+alt+l"; name := Some "Desk lamp" |}).
  - repeat constructor.
  - reflexivity.
  - reflexivity.
  - lia.
  - reflexivity.
Defined.

(** ** Scheduled invocations *)

Section Interleaving_properties.

Context {W : Type} (http : request -> W -> option response * W).

Lemma interleave_app bridge_ip username l1 l2 pool (s : state W) :
  interleave http bridge_ip username (l1 ++ l2) pool s =
  interleave http bridge_ip username l2
    (fst (interleave http bridge_ip username l1 pool s))
    (snd (interleave http bridge_ip username l1 pool s)).
Proof.
  revert pool s. induction l1 as [|i l1 IH]; intros pool s; [done|].
  simpl. destruct (advance http bridge_ip username i pool s) as [pool' s']. apply IH.
Qed.

(** Four steps of an invocation do what [toggle_device] does, and the
    invocation returns having read what the cache held at its first step. *)
Lemma steps_toggle_device bridge_ip username dev (s : state W) :
  steps http bridge_ip username dev 4 Called s =
    (Returned (cached (device_states s) dev),
     snd (toggle_device http bridge_ip username dev s)).
Proof.
  unfold steps, toggle_step, toggle_device, fetch_on, try_except, bind, ret, lift,
    log_exception, log, requests, response_json, read_state, write_state, cached.
  simpl.
  destruct (http (PUT _ _) (world s)) as [[resp|] w]; simpl; [|done].
  destruct (body resp) as [ack|]; simpl; [|done].
  destruct (http (GET _) w) as [[resp'|] w']; simpl; [|done].
  destruct (body resp') as [data|]; simpl; [|done].
  destruct (getitem_str data "state") as [st|e]; simpl; [|done].
  destruct (dict_get st "on" (JBool false)); done.
Qed.

(** A schedule that names one invocation [n] times runs [n] of its steps. *)
Lemma interleave_replicate bridge_ip username dev n i p pool (s : state W) :
  pool !! i = Some (dev, p) ->
  interleave http bridge_ip username (replicate n i) pool s =
    (<[i := (dev, fst (steps http bridge_ip username dev n p s))]> pool,
     snd (steps http bridge_ip username dev n p s)).
Proof.
  revert p pool s. induction n as [|n IH]; intros p pool s Hi.
  - simpl. by rewrite list_insert_id.
  - pose proof (lookup_lt_Some _ _ _ Hi) as Hlt.
    cbn [replicate interleave steps]. unfold advance. rewrite Hi.
    destruct (toggle_step http bridge_ip username dev p s) as [[p'|e] s'].
    + rewrite (IH p') by (by rewrite list_lookup_insert_eq).
      by rewrite list_insert_insert_eq.
    + by rewrite (IH p).
Qed.

(** A schedule that runs one invocation to its end and then the other is
    two calls of [toggle_device] in sequence: the second starts from the
    state the first left. *)
Lemma serial_schedule bridge_ip username dev1 dev2 (s : state W) :
  interleave http bridge_ip username (replicate 4 0%nat ++ replicate 4 1%nat)
      [(dev1, Called); (dev2, Called)] s
    = ([(dev1, Returned (cached (device_states s) dev1));
        (dev2, Returned (cached (device_states
                                   (snd (toggle_device http bridge_ip username dev1 s))) dev2))],
       snd (toggle_device http bridge_ip username dev2
              (snd (toggle_device http bridge_ip username dev1 s)))).
Proof.
  rewrite interleave_app.
  rewrite (interleave_replicate bridge_ip username dev1 4 0 Called) by done.
  rewrite steps_toggle_device. cbn [fst snd].
  rewrite (interleave_replicate bridge_ip username dev2 4 1 Called) by done.
  by rewrite steps_toggle_device.
Qed.

End Interleaving_properties.

(** Two presses on an obedient bridge, one after the other: the second
    commands off. *)
Example serial_presses :
  let r := interleave lamp_http "192.168.1.2" "user"
             [0; 0; 0; 0; 1; 1; 1; 1]%nat [("1", Called); ("1", Called)] dark_obedient in
  fst r = [("1", Returned (JBool false)); ("1", Returned (JBool true))] /\
  commands_sent (exchanges (snd r)) = [command true; command false] /\
  cached (device_states (snd r)) "1" = JBool false /\
  lamp_on (world (snd r)) = false.
Proof. vm_compute. done. Qed.

(** ** More on toggling and seeding *)

Section Dispatch_properties.

Context {W : Type} (http : request -> W -> option response * W).

(** X1: a toggle leaves the cached state of every other device, and the
    hotkey bindings, as they were. *)
Theorem toggle_touches_one_device bridge_ip username dev dev' (s : state W) :
  dev' <> dev ->
  device_states (snd (toggle_device http bridge_ip username dev s)) !! dev'
    = device_states s !! dev' /\
  hotkeys (snd (toggle_device http bridge_ip username dev s)) = hotkeys s.
Proof.
  intros Hne. split.
  - destruct (toggle_device_cache http bridge_ip username dev s) as [_ Hds].
    rewrite Hds.
    destruct (parsed (fst (command_exchange http bridge_ip username dev s))); [|done].
    by rewrite lookup_insert_ne.
  - run.
    destruct (http (PUT _ _) (world s)) as [[resp|] w]; simpl; [|done].
    destruct (body resp) as [ack|]; simpl; [|done].
    destruct (http (GET _) w) as [[resp'|] w']; simpl; [|done].
    destruct (body resp') as [data|]; simpl; [|done].
    destruct (getitem_str data "state") as [st|e]; simpl; [|done].
    destruct (dict_get st "on" (JBool false)); done.
Qed.

(** The exchanges of a toggle. *)
Lemma toggle_device_exchanges bridge_ip username dev (s : state W) :
  exchanges (snd (toggle_device http bridge_ip username dev s)) =
    (exchanges s ++
     (PUT (command_url bridge_ip username dev) (command (desired s dev)),
      fst (command_exchange http bridge_ip username dev s))
     :: match parsed (fst (command_exchange http bridge_ip username dev s)) with
        | Ok _ => [(GET (light_url bridge_ip username dev),
                    fst (confirm_exchange http bridge_ip username dev s))]
        | Raise _ => []
        end)%list.
Proof.
  unfold confirm_exchange, command_exchange, desired, cached, command_url, command, parsed.
  run.
  destruct (http (PUT _ _) (world s)) as [[resp|] w]; simpl; [|done].
  destruct (body resp) as [ack|]; simpl; [|done].
  destruct (http (GET _) w) as [[resp'|] w']; simpl; [|by rewrite <- app_assoc].
  destruct (body resp') as [data|]; simpl; [|by rewrite <- app_assoc].
  destruct (getitem_str data "state") as [st|e]; simpl; [|by rewrite <- app_assoc].
  destruct (dict_get st "on" (JBool false)); simpl; by rewrite <- app_assoc.
Qed.

(** X2: a toggle sends exactly one command, carrying the negation of the
    cached state, and after it one confirmation read if and only if the
    command's reply was JSON; it sends nothing else. *)
Theorem toggle_requests bridge_ip username dev (s : state W) :
  exchanges (snd (toggle_device http bridge_ip username dev s)) =
    (exchanges s ++
     (PUT (command_url bridge_ip username dev) (command (desired s dev)),
      fst (command_exchange http bridge_ip username dev s))
     :: match parsed (fst (command_exchange http bridge_ip username dev s)) with
        | Ok _ => [(GET (light_url bridge_ip username dev),
                    fst (confirm_exchange http bridge_ip username dev s))]
        | Raise _ => []
        end)%list.
Proof. apply toggle_device_exchanges. Qed.

Lemma commands_sent_app xs ys :
  commands_sent (xs ++ ys) = (commands_sent xs ++ commands_sent ys)%list.
Proof. unfold commands_sent. by rewrite !flat_map_concat_map, map_app, concat_app. Qed.

(** X3: seeding sends exactly one read, stores its outcome under the
    device's key and leaves every other device's cached state alone. *)
Theorem seed_touches_one_device bridge_ip username dev dev' (s : state W) :
  dev' <> dev ->
  device_states (snd (initialize_state http bridge_ip username dev s)) !! dev'
    = device_states s !! dev' /\
  device_states (snd (initialize_state http bridge_ip username dev s)) !! dev
    = Some (seeded_value http bridge_ip username dev s) /\
  exchanges (snd (initialize_state http bridge_ip username dev s)) =
    (exchanges s ++
     [(GET (light_url bridge_ip username dev),
       fst (http (GET (light_url bridge_ip username dev)) (world s)))])%list.
Proof.
  intros Hne. destruct (initialize_state_state http bridge_ip username dev s) as [r ->]. simpl.
  split; [by rewrite lookup_insert_ne|]. split; [by rewrite lookup_insert_eq|done].
Qed.

(** X4: the first toggle after seeding commands the opposite of what
    seeding stored; after a failed seeding read it therefore commands on,
    whatever the light is doing. *)
Theorem first_toggle_after_seed bridge_ip username dev (s : state W) :
  commands_sent
    (exchanges (snd (toggle_device http bridge_ip username dev
                       (snd (initialize_state http bridge_ip username dev s))))) =
    (commands_sent (exchanges s) ++
     [command (negb (truthy (seeded_value http bridge_ip username dev s)))])%list /\
  (forall e,
     on_of (fst (http (GET (light_url bridge_ip username dev)) (world s))) = Raise e ->
     desired (snd (initialize_state http bridge_ip username dev s)) dev = true).
Proof.
  assert (Hdes : desired (snd (initialize_state http bridge_ip username dev s)) dev
                 = negb (truthy (seeded_value http bridge_ip username dev s))).
  { destruct (initialize_state_state http bridge_ip username dev s) as [r ->].
    unfold desired, cached. simpl. by rewrite lookup_insert_eq. }
  split.
  - rewrite toggle_device_exchanges, Hdes.
    destruct (initialize_state_state http bridge_ip username dev s) as [r Hs]. rewrite Hs at 1.
    cbn [exchanges]. rewrite !commands_sent_app. simpl.
    rewrite app_nil_r.
    by destruct (parsed _).
  - intros e He. rewrite Hdes. unfold seeded_value. by rewrite He.
Qed.

End Dispatch_properties.

Lemma toggle_touches_one_device_witness :
  device_states (snd (toggle_device lamp_http "192.168.1.2" "user" "1" dark_obedient)) !! "2"
    = device_states dark_obedient !! "2" /\
  hotkeys (snd (toggle_device lamp_http "192.168.1.2" "user" "1" dark_obedient))
    = hotkeys dark_obedient.
Proof.
  apply (toggle_touches_one_device lamp_http "192.168.1.2" "user" "1" "2" dark_obedient).
  discriminate.
Defined.

Lemma seed_touches_one_device_witness :
  device_states (snd (initialize_state scripted_http "192.168.1.2" "user" "1" unseeded_lit)) !! "2"
    = device_states unseeded_lit !! "2" /\
  device_states (snd (initialize_state scripted_http "192.168.1.2" "user" "1" unseeded_lit)) !! "1"
    = Some (seeded_value scripted_http "192.168.1.2" "user" "1" unseeded_lit) /\
  exchanges (snd (initialize_state scripted_http "192.168.1.2" "user" "1" unseeded_lit)) =
    (exchanges unseeded_lit ++
     [(GET (light_url "192.168.1.2" "user" "1"),
       fst (scripted_http (GET (light_url "192.168.1.2" "user" "1")) (world unseeded_lit)))])%list.
Proof.
  apply (seed_touches_one_device scripted_http "192.168.1.2" "user" "1" "2" unseeded_lit).
  discriminate.
Defined.

(** Seeding against a bridge that does not know the user, then one press:
    the command is on. *)
Lemma first_toggle_after_seed_witness :
  desired (snd (initialize_state scripted_http "192.168.1.2" "user" "1" unseeded_unauthorized))
    "1" = true.
Proof.
  apply (proj2 (first_toggle_after_seed scripted_http "192.168.1.2" "user" "1"
                  unseeded_unauthorized) TypeError).
  reflexivity.
Defined.

(** ** More on registration *)

Section Polling_properties.

Context {W : Type} (http : request -> W -> option response * W).
Context (clock : W -> Z) (sleep : Z -> W -> W).

(** What a run of the loop sends and what it leaves alone. *)
Lemma poll_requests url payload start timeout fuel (s : state W) :
  device_states (snd (register_poll http clock sleep fuel url payload start timeout s))
    = device_states s /\
  hotkeys (snd (register_poll http clock sleep fuel url payload start timeout s)) = hotkeys s /\
  exists new,
    exchanges (snd (register_poll http clock sleep fuel url payload start timeout s))
      = (exchanges s ++ new)%list /\
    Forall (fun x => fst x = POST url payload) new /\
    (clock_monotone http clock -> sleep_lasts clock sleep ->
     2000 * Z.of_nat (length new)
       < Z.max (1000 * timeout - (clock (world s) - start)) 0 + 2000).
Proof.
  revert s. induction fuel as [|fuel IH]; intros s.
  - simpl. split; [done|]. split; [done|]. exists []. rewrite app_nil_r.
    split; [done|]. split; [constructor|]. simpl. lia.
  - rewrite register_poll_unfold.
    destruct (clock (world s) - start <? 1000 * timeout) eqn:Hguard.
    + apply Z.ltb_lt in Hguard.
      destruct (register_attempt_cases http url payload s)
        as ([(u & Hu & Hret) | [Hno Hret]] & Hds & Hhk & Hex & Hw); rewrite Hret.
      * cbn [snd]. split; [exact Hds|]. split; [exact Hhk|].
        eexists. split; [exact Hex|]. split; [by repeat constructor|].
        intros _ _. simpl. lia.
      * destruct (IH (after_pass http sleep url payload s)) as (IHds & IHhk & new & IHex & IHall & IHn).
        assert (Hds' : device_states (after_pass http sleep url payload s) = device_states s)
          by (unfold after_pass; simpl; exact Hds).
        assert (Hhk' : hotkeys (after_pass http sleep url payload s) = hotkeys s)
          by (unfold after_pass; simpl; exact Hhk).
        assert (Hex' : exchanges (after_pass http sleep url payload s) =
                       (exchanges s ++ [(POST url payload,
                                         fst (http (POST url payload) (world s)))])%list)
          by (unfold after_pass; simpl; exact Hex).
        split; [by rewrite IHds|]. split; [by rewrite IHhk|].
        exists ((POST url payload, fst (http (POST url payload) (world s))) :: new).
        split; [by rewrite IHex, Hex', <- app_assoc|].
        split; [by constructor|].
        intros Hmono Hsleep. specialize (IHn Hmono Hsleep).
        assert (Hclock : clock (world s) + 2000 <= clock (world (after_pass http sleep url payload s))).
        { unfold after_pass. simpl. rewrite Hw.
          pose proof (Hmono (POST url payload) (world s)).
          pose proof (Hsleep (1000 * 2) (snd (http (POST url payload) (world s)))). lia. }
        cbn [length]. lia.
    + unfold log. simpl. split; [done|]. split; [done|]. exists []. rewrite app_nil_r.
      split; [done|]. split; [constructor|]. simpl. lia.
Qed.

(** X5: registration only ever sends the pairing request, and touches
    neither the cache nor the hotkeys; with a clock that does not go back
    and a sleep that lasts, it sends fewer than [timeout / 2 + 1] of them
    (none when the timeout is not positive). *)
Theorem registration_requests_bounded bridge_ip device_type timeout fuel (s : state W) :
  device_states (snd (register_hue_username http clock sleep fuel bridge_ip device_type timeout s))
    = device_states s /\
  hotkeys (snd (register_hue_username http clock sleep fuel bridge_ip device_type timeout s))
    = hotkeys s /\
  exists new,
    exchanges (snd (register_hue_username http clock sleep fuel bridge_ip device_type timeout s))
      = (exchanges s ++ new)%list /\
    Forall (fun x => fst x = POST (register_url bridge_ip) (register_payload device_type)) new /\
    (clock_monotone http clock -> sleep_lasts clock sleep ->
     2 * Z.of_nat (length new) < Z.max timeout 0 + 2).
Proof.
  unfold register_hue_username, bind, time_time, log. simpl.
  fold (register_url bridge_ip) (register_payload device_type).
  match goal with
  | |- context [register_poll _ _ _ _ _ _ _ _ ?s0] =>
      destruct (poll_requests (register_url bridge_ip) (register_payload device_type)
                  (clock (world s)) timeout fuel s0) as (Hds & Hhk & new & Hex & Hall & Hn)
  end.
  simpl in *.
  split; [exact Hds|]. split; [exact Hhk|].
  exists new. split; [exact Hex|]. split; [exact Hall|].
  intros Hmono Hsleep. specialize (Hn Hmono Hsleep). lia.
Qed.

(** X6: with a timeout that is not positive the function returns [None] at
    once, having sent nothing. *)
Theorem registration_without_time bridge_ip device_type timeout fuel (s : state W) :
  timeout <= 0 ->
  fst (register_hue_username http clock sleep (S fuel) bridge_ip device_type timeout s)
    = Ok (Some JNull) /\
  exchanges (snd (register_hue_username http clock sleep (S fuel) bridge_ip device_type timeout s))
    = exchanges s /\
  world (snd (register_hue_username http clock sleep (S fuel) bridge_ip device_type timeout s))
    = world s.
Proof.
  intros Hneg. unfold register_hue_username, bind, time_time, log.
  cbn -[register_poll Z.mul Z.ltb Z.sub].
  fold (register_url bridge_ip) (register_payload device_type).
  rewrite register_poll_unfold. cbn -[Z.mul Z.ltb Z.sub].
  replace (clock (world s) - clock (world s) <? 1000 * timeout) with false
    by (symmetry; apply Z.ltb_ge; lia).
  done.
Qed.

(** X7: a pairing reply that announces success without a credential (the
    ["success"] member is not an object, or has no ["username"]) does not end
    the poll: the pass logs the exception and falls through to the sleep. *)
Theorem success_without_credential url payload (s : state W) code kvs rest v :
  fst (http (POST url payload) (world s)) = reply code (JList (JObj kvs :: rest)) ->
  assoc "success" kvs = Some v ->
  (forall cred, v = JObj cred -> assoc "username" cred = None) ->
  fst (register_attempt http url payload s) = Ok None /\
  exists e, (e = KeyError \/ e = TypeError) /\
    last (logged (snd (register_attempt http url payload s))) =
      Some {| lvl := ERROR; fmt := "Error during registration: %s"; args := [LExn e] |}.
Proof.
  intros Hr Hsucc Hcred. run.
  destruct (http (POST url payload) (world s)) as [r w]. simpl in Hr. subst r. simpl.
  rewrite Hsucc. simpl.
  destruct v as [| b | n | str | ys | cred]; simpl;
    try (split; [done|]; exists TypeError; split; [by right|]; by rewrite last_app).
  rewrite (Hcred cred eq_refl). simpl.
  split; [done|]. exists KeyError. split; [by left|]. by rewrite last_app.
Qed.

End Polling_properties.

Lemma registration_requests_bounded_witness :
  exists new,
    exchanges (snd (register_hue_username scripted_http now scripted_sleep 20
                      "192.168.1.2" default_device_type default_timeout never_pressed))
      = (exchanges never_pressed ++ new)%list /\
    2 * Z.of_nat (length new) < Z.max default_timeout 0 + 2.
Proof.
  destruct (registration_requests_bounded scripted_http now scripted_sleep
              "192.168.1.2" default_device_type default_timeout 20 never_pressed)
    as (_ & _ & new & Hex & _ & Hn).
  exists new. split; [exact Hex|].
  apply Hn.
  - intros req [t [|[ms r] sc]]; simpl; lia.
  - intros ms [t sc]; simpl; lia.
Defined.

Lemma registration_without_time_witness :
  fst (register_hue_username scripted_http now scripted_sleep 1
         "192.168.1.2" default_device_type 0 pressed_early) = Ok (Some JNull) /\
  exchanges (snd (register_hue_username scripted_http now scripted_sleep 1
                    "192.168.1.2" default_device_type 0 pressed_early))
    = exchanges pressed_early /\
  world (snd (register_hue_username scripted_http now scripted_sleep 1
                "192.168.1.2" default_device_type 0 pressed_early))
    = world pressed_early.
Proof.
  apply (registration_without_time scripted_http now scripted_sleep
           "192.168.1.2" default_device_type 0 0 pressed_early).
  lia.
Defined.

Lemma success_without_credential_witness :
  fst (register_attempt scripted_http (register_url "192.168.1.2")
         (register_payload default_device_type) pairing_emptyhanded) = Ok None /\
  exists e, (e = KeyError \/ e = TypeError) /\
    last (logged (snd (register_attempt scripted_http (register_url "192.168.1.2")
                         (register_payload default_device_type) pairing_emptyhanded))) =
      Some {| lvl := ERROR; fmt := "Error during registration: %s"; args := [LExn e] |}.
Proof.
  apply (success_without_credential scripted_http (register_url "192.168.1.2")
           (register_payload default_device_type) pairing_emptyhanded
           200 [("success", JObj [])] [] (JObj [])).
  - reflexivity.
  - reflexivity.
  - intros cred [= <-]. reflexivity.
Defined.

(** ** More on startup *)

Section Binding_properties.

Context {W : Type} (http : request -> W -> option response * W).
Context (hotkey_error : string -> option exn).

(** The requests of the startup loop are reads. *)
Lemma reads_no_command (devices : list DeviceBinding) bridge_ip username
    (reads : list (request * option response)) :
  map fst reads = map (fun d => GET (light_url bridge_ip username (device_id d))) devices ->
  commands_sent reads = [].
Proof.
  revert devices. induction reads as [|[req r] reads IH]; intros devices Hmap; [done|].
  destruct devices as [|d rest]; [done|]. simpl in Hmap.
  injection Hmap as -> Hrest. simpl. by apply (IH rest).
Qed.

(** X8: on a device list whose hotkeys the [keyboard] library accepts, the
    startup loop sends one state read per binding, in the order of the
    list, and no command; when it is done every configured device has a
    cached state, and the cached state of a device that is not configured is
    what it was. *)
Theorem startup_seeds_every_binding bridge_ip username devices (s : state W) :
  accepted hotkey_error devices ->
  (forall d, In d devices ->
     is_Some (device_states (snd (bind_devices http hotkey_error bridge_ip username devices s))
                !! device_id d)) /\
  (forall k, ~ In k (map device_id devices) ->
     device_states (snd (bind_devices http hotkey_error bridge_ip username devices s)) !! k
       = device_states s !! k) /\
  exists new,
    exchanges (snd (bind_devices http hotkey_error bridge_ip username devices s))
      = (exchanges s ++ new)%list /\
    map fst new = map (fun d => GET (light_url bridge_ip username (device_id d))) devices /\
    commands_sent new = [].
Proof.
  intros Hacc.
  destruct (bind_devices_spec http hotkey_error bridge_ip username devices s Hacc)
    as (_ & _ & _ & Hin & Hout & _ & new & Hex & Hmap).
  split; [exact Hin|]. split; [exact Hout|].
  exists new. split; [exact Hex|]. split; [exact Hmap|].
  by eapply reads_no_command.
Qed.

(** The loop up to a binding whose hotkey the library refuses. *)
Lemma bind_devices_app bridge_ip username pre rest (s : state W) :
  accepted hotkey_error pre ->
  bind_devices http hotkey_error bridge_ip username (pre ++ rest) s =
  bind_devices http hotkey_error bridge_ip username rest
    (snd (bind_devices http hotkey_error bridge_ip username pre s)).
Proof.
  intros Hacc. revert s. induction Hacc as [|d pre Hd _ IH]; intros s; [done|].
  rewrite <- app_comm_cons, !(bind_devices_cons _ _ _ _ _ _ _ Hd). apply IH.
Qed.

(** X23: [keyboard.add_hotkey] is called outside any [try].  When the
    library refuses the hotkey of a binding, all earlier hotkeys having
    been accepted, the loop ends there with the library's exception: the
    earlier bindings are seeded and bound, the refused one is seeded (its
    read is the last request sent) but not bound, and the bindings after
    it are neither seeded nor bound. *)
Theorem startup_stops_at_refused_hotkey bridge_ip username pre d post e (s : state W) :
  accepted hotkey_error pre ->
  hotkey_error (hotkey d) = Some e ->
  fst (bind_devices http hotkey_error bridge_ip username (pre ++ d :: post) s) = Raise e /\
  hotkeys (snd (bind_devices http hotkey_error bridge_ip username (pre ++ d :: post) s)) =
    (hotkeys s ++ map (fun d => (hotkey d, device_id d)) pre)%list /\
  (exists reads,
     exchanges (snd (bind_devices http hotkey_error bridge_ip username (pre ++ d :: post) s))
       = (exchanges s ++ reads)%list /\
     map fst reads =
       map (fun d => GET (light_url bridge_ip username (device_id d))) (pre ++ [d])) /\
  (forall k, ~ In k (map device_id (pre ++ [d])) ->
     device_states (snd (bind_devices http hotkey_error bridge_ip username
                           (pre ++ d :: post) s)) !! k
       = device_states s !! k).
Proof.
  intros Hacc Href. rewrite (bind_devices_app _ _ _ _ _ Hacc).
  destruct (bind_devices_spec http hotkey_error bridge_ip username pre s Hacc)
    as (_ & Hhk & _ & _ & Hout & _ & reads & Hex & Hmap).
  rewrite (bind_devices_refused _ _ _ _ _ _ _ _ Href). cbn [fst snd].
  destruct (bound_one_state http hotkey_error bridge_ip username d
              (snd (bind_devices http hotkey_error bridge_ip username pre s)))
    as (Hds & Hex1 & Hhk1 & _).
  rewrite Href in Hhk1.
  split; [done|]. split; [by rewrite Hhk1, Hhk|]. split.
  - eexists (reads ++ [_])%list. split.
    + rewrite Hex1, Hex, <- app_assoc. reflexivity.
    + rewrite !map_app, Hmap. reflexivity.
  - intros k Hk. rewrite map_app, in_app_iff in Hk. rewrite Hds.
    rewrite lookup_insert_ne by (intros Heq; apply Hk; right; by left).
    apply Hout. intros Hin. apply Hk. by left.
Qed.

End Binding_properties.

Lemma startup_seeds_every_binding_witness :
  is_Some (device_states (snd (bind_devices lamp_http plain_keyboard "192.168.1.2" "user"
                                 twice_bound fresh_obedient)) !! "1") /\
  device_states (snd (bind_devices lamp_http plain_keyboard "192.168.1.2" "user" twice_bound
                        fresh_obedient))
    !! "2" = device_states fresh_obedient !! "2".
Proof.
  pose proof (startup_seeds_every_binding lamp_http plain_keyboard "192.168.1.2" "user"
                twice_bound fresh_obedient ltac:(repeat constructor)) as (Hin & Hout & _).
  split.
  - apply (Hin {| device_id := "1"; hotkey := "ctrl+shift+l"; name := Some "Desk lamp" |}).
    simpl. left. reflexivity.
  - apply Hout. simpl. intros [H | [H | []]]; discriminate H.
Defined.

(** Light 1 on a hotkey, light 2 on the empty hotkey, light 3 on another:
    startup ends with [ValueError] at the second binding; light 3 is never
    read. *)
Lemma startup_stops_at_refused_hotkey_witness :
  fst (bind_devices lamp_http plain_keyboard "192.168.1.2" "user" unbound_second fresh_obedient)
    = Raise ValueError /\
  hotkeys (snd (bind_devices lamp_http plain_keyboard "192.168.1.2" "user" unbound_second
                  fresh_obedient)) = [("ctrl+shift+l", "1")] /\
  device_states (snd (bind_devices lamp_http plain_keyboard "192.168.1.2" "user" unbound_second
                        fresh_obedient)) !! "3" = None.
Proof.
  destruct (startup_stops_at_refused_hotkey lamp_http plain_keyboard "192.168.1.2" "user"
              [{| device_id := "1"; hotkey := "ctrl+shift+l"; name := Some "Desk lamp" |}]
              {| device_id := "2"; hotkey := ""; name := None |}
              [{| device_id := "3"; hotkey := "ctrl+alt+p"; name := None |}]
              ValueError fresh_obedient)
    as (Hret & Hhk & _ & Hout).
  - repeat constructor.
  - reflexivity.
  - split; [exact Hret|]. split; [exact Hhk|].
    apply (Hout "3"). simpl. intros [H | [H | []]]; discriminate H.
Defined.

(** ** Invocations for different devices *)

Section Independence_properties.

Context {W : Type} (http : request -> W -> option response * W).

Lemma toggle_step_effect bridge_ip username dev p (s : state W) :
  exists p' s',
    toggle_step http bridge_ip username dev p s = (Ok p', s') /\
    step_effect dev p p' (device_states s) (device_states s').
Proof.
  destruct p as [| c | c | c | c]; unfold step_effect, toggle_step; run.
  - by eexists _, _.
  - destruct (http (PUT _ _) (world s)) as [[resp|] w]; simpl; [|by eexists _, _; eauto].
    destruct (body resp) as [ack|]; simpl; by eexists _, _; eauto.
  - by eexists _, _.
  - destruct (http (GET _) (world s)) as [[resp|] w]; simpl; [|by eexists _, _].
    destruct (body resp) as [data|]; simpl; [|by eexists _, _].
    destruct (getitem_str data "state") as [st|e]; simpl; [|by eexists _, _].
    destruct (dict_get st "on" (JBool false)); simpl; by eexists _, _.
  - by eexists _, _.
Qed.

(** A step of an invocation keeps it consistent with the cache it started
    from, and a step of an invocation for another device does not disturb
    it. *)
Lemma tracks_own_step ds0 dev p p' (ds ds' : gmap string json) :
  tracks ds0 dev p ds -> step_effect dev p p' ds ds' -> tracks ds0 dev p' ds'.
Proof.
  destruct p as [| c | c | c | c]; simpl.
  - intros H [-> ->]. simpl. unfold cached. by rewrite H.
  - intros [-> H] [[-> | ->] ->]; simpl; auto.
  - intros [-> H] [-> ->]. simpl. by rewrite lookup_insert_eq.
  - intros [-> H] [-> ->]. simpl. auto.
  - intros H [-> ->]. exact H.
Qed.

Lemma step_effect_frame dev q q' (ds ds' : gmap string json) k :
  k <> dev -> step_effect dev q q' ds ds' -> ds' !! k = ds !! k.
Proof.
  intros Hne Hq. destruct q; destruct Hq as [_ ->]; try done.
  by rewrite lookup_insert_ne.
Qed.

Lemma tracks_other_step ds0 dev other p q q' (ds ds' : gmap string json) :
  dev <> other -> tracks ds0 dev p ds -> step_effect other q q' ds ds' ->
  tracks ds0 dev p ds'.
Proof.
  intros Hne Hp Hq.
  pose proof (step_effect_frame other q q' ds ds' dev Hne Hq) as Hsame.
  destruct p; simpl in *; by rewrite Hsame.
Qed.

Lemma independent_invariant bridge_ip username dev1 dev2 ds0 schedule p1 p2 (s : state W) :
  dev1 <> dev2 ->
  tracks ds0 dev1 p1 (device_states s) ->
  tracks ds0 dev2 p2 (device_states s) ->
  (forall k, k <> dev1 -> k <> dev2 -> device_states s !! k = ds0 !! k) ->
  exists q1 q2,
    fst (interleave http bridge_ip username schedule [(dev1, p1); (dev2, p2)] s)
      = [(dev1, q1); (dev2, q2)] /\
    tracks ds0 dev1 q1
      (device_states (snd (interleave http bridge_ip username schedule
                             [(dev1, p1); (dev2, p2)] s))) /\
    tracks ds0 dev2 q2
      (device_states (snd (interleave http bridge_ip username schedule
                             [(dev1, p1); (dev2, p2)] s))) /\
    (forall k, k <> dev1 -> k <> dev2 ->
       device_states (snd (interleave http bridge_ip username schedule
                             [(dev1, p1); (dev2, p2)] s)) !! k = ds0 !! k).
Proof.
  intros Hne. revert p1 p2 s.
  induction schedule as [|i rest IH]; intros p1 p2 s H1 H2 Hframe.
  - by exists p1, p2.
  - cbn [interleave]. unfold advance.
    destruct i as [|[|i]]; simpl.
    + destruct (toggle_step_effect bridge_ip username dev1 p1 s) as (q & s' & -> & Heff).
      simpl. apply IH.
      * by eapply tracks_own_step.
      * by eapply (tracks_other_step ds0 dev2 dev1).
      * intros k Hk1 Hk2. rewrite (step_effect_frame _ _ _ _ _ k Hk1 Heff). auto.
    + destruct (toggle_step_effect bridge_ip username dev2 p2 s) as (q & s' & -> & Heff).
      simpl. apply IH.
      * by eapply (tracks_other_step ds0 dev1 dev2).
      * by eapply tracks_own_step.
      * intros k Hk1 Hk2. rewrite (step_effect_frame _ _ _ _ _ k Hk2 Heff). auto.
    + by apply IH.
Qed.

(** X9: two invocations for different devices, however their statements
    interleave, stay independent.  At every point of every schedule each
    holds in [current_state] what the cache held for its own device when
    both were called; the cache holds for each device that same value until
    its invocation writes, and the negation of it from then on; and the
    cached state of every other device is what it was. *)
Theorem distinct_devices_independent bridge_ip username dev1 dev2 schedule (s : state W) :
  dev1 <> dev2 ->
  exists q1 q2,
    fst (interleave http bridge_ip username schedule [(dev1, Called); (dev2, Called)] s)
      = [(dev1, q1); (dev2, q2)] /\
    tracks (device_states s) dev1 q1
      (device_states (snd (interleave http bridge_ip username schedule
                             [(dev1, Called); (dev2, Called)] s))) /\
    tracks (device_states s) dev2 q2
      (device_states (snd (interleave http bridge_ip username schedule
                             [(dev1, Called); (dev2, Called)] s))) /\
    (forall k, k <> dev1 -> k <> dev2 ->
       device_states (snd (interleave http bridge_ip username schedule
                             [(dev1, Called); (dev2, Called)] s)) !! k
         = device_states s !! k).
Proof.
  intros Hne. by apply independent_invariant.
Qed.

End Independence_properties.

Lemma distinct_devices_independent_witness :
  exists q1 q2,
    fst (interleave lamp_http "192.168.1.2" "user" [0; 1; 1; 0; 1; 0; 0; 1]%nat
           [("1", Called); ("2", Called)] dark_obedient)
      = [("1", q1); ("2", q2)] /\
    tracks (device_states dark_obedient) "1" q1
      (device_states (snd (interleave lamp_http "192.168.1.2" "user"
                             [0; 1; 1; 0; 1; 0; 0; 1]%nat
                             [("1", Called); ("2", Called)] dark_obedient))) /\
    tracks (device_states dark_obedient) "2" q2
      (device_states (snd (interleave lamp_http "192.168.1.2" "user"
                             [0; 1; 1; 0; 1; 0; 0; 1]%nat
                             [("1", Called); ("2", Called)] dark_obedient))) /\
    (forall k, k <> "1" -> k <> "2" ->
       device_states (snd (interleave lamp_http "192.168.1.2" "user"
                             [0; 1; 1; 0; 1; 0; 0; 1]%nat
                             [("1", Called); ("2", Called)] dark_obedient)) !! k
         = device_states dark_obedient !! k).
Proof.
  apply (distinct_devices_independent lamp_http "192.168.1.2" "user" "1" "2"
           [0; 1; 1; 0; 1; 0; 0; 1]%nat dark_obedient).
  discriminate.
Defined.

(** ** The configuration file *)

Section Config_properties.

Lemma app_empty (b : string) : "" +:+ b = b.
Proof. reflexivity. Qed.

Lemma app_cons c (a b : string) : String c a +:+ b = String c (a +:+ b).
Proof. reflexivity. Qed.

Lemma has_char_app c a b : has_char c (a +:+ b) = has_char c a || has_char c b.
Proof.
  induction a as [|x a IH]; simpl; [done|]. rewrite IH. by rewrite orb_assoc.
Qed.

Lemma is_space_newline : is_space newline = true.
Proof. reflexivity. Qed.

Lemma is_space_equals : is_space equals_sign = false.
Proof. reflexivity. Qed.

(** Reading leaves no carriage return, and changes nothing in a text that
    has none. *)
Lemma translate_clean after_cr s : has_char carriage_return (translate after_cr s) = false.
Proof.
  revert after_cr. induction s as [|c s IH]; intros after_cr; [done|]. cbn [translate].
  destruct (Ascii.eqb c carriage_return) eqn:Hc; [cbn [has_char]; by rewrite IH|].
  destruct (Ascii.eqb c newline && after_cr); [apply IH|].
  cbn [has_char]. by rewrite Hc, IH.
Qed.

Lemma translate_fixed s : has_char carriage_return s = false -> translate false s = s.
Proof.
  induction s as [|c s IH]; [done|]. cbn [translate has_char]. intros H.
  apply orb_false_iff in H as [Hc Hs]. rewrite Hc, andb_false_r. by rewrite (IH Hs).
Qed.

Lemma file_lines_fixed content :
  has_char carriage_return content = false -> file_lines content = split_lines content.
Proof. intros H. unfold file_lines, universal_newlines. by rewrite translate_fixed. Qed.

Lemma split_lines_clean c s :
  has_char c s = false -> Forall (fun line => has_char c line = false) (split_lines s).
Proof.
  induction s as [|a s IH]; [constructor|]. cbn [has_char split_lines]. intros H.
  apply orb_false_iff in H as [Ha Hs]. specialize (IH Hs).
  destruct (Ascii.eqb a newline).
  - constructor; [cbn [has_char]; by rewrite Ha | exact IH].
  - destruct (split_lines s) as [|line more].
    + constructor; [cbn [has_char]; by rewrite Ha | constructor].
    + apply Forall_cons in IH as [Hline Hmore].
      constructor; [cbn [has_char]; by rewrite Ha, Hline | exact Hmore].
Qed.

Lemma file_lines_clean content :
  Forall (fun line => has_char carriage_return line = false) (file_lines content).
Proof. apply split_lines_clean, translate_clean. Qed.

Lemma split_lines_line line rest :
  has_char newline line = false ->
  split_lines (line +:+ String newline rest) = (line +:+ String newline "") :: split_lines rest.
Proof.
  induction line as [|c line IH]; simpl; intros H.
  - done.
  - apply orb_false_iff in H as [Hc Hl]. rewrite Hc. by rewrite (IH Hl).
Qed.

Lemma lstrip_length s : (String.length (lstrip s) <= String.length s)%nat.
Proof.
  induction s as [|c s IH]; simpl; [lia|]. destruct (is_space c); simpl; lia.
Qed.

(** A string is its own [lstrip] exactly when it does not start with white
    space. *)
Lemma lstrip_fixed c s : lstrip (String c s) = String c s -> is_space c = false.
Proof.
  simpl. destruct (is_space c); [|done].
  intros H. pose proof (lstrip_length s) as Hlen. rewrite H in Hlen. simpl in Hlen. lia.
Qed.

Lemma lstrip_app_fixed k x :
  lstrip k = k -> lstrip (k +:+ String equals_sign x) = k +:+ String equals_sign x.
Proof.
  destruct k as [|c k]; [done|].
  intros H. apply lstrip_fixed in H. simpl. by rewrite H.
Qed.

Lemma rstrip_app_space v c : is_space c = true -> rstrip (v +:+ String c "") = rstrip v.
Proof.
  intros Hc. induction v as [|a v IH]; simpl; [by rewrite Hc|]. by rewrite IH.
Qed.

Lemma rstrip_cons_kept c s : rstrip s <> "" -> rstrip (String c s) = String c (rstrip s).
Proof. simpl. by destruct (rstrip s). Qed.

Lemma rstrip_app_kept a b : rstrip b <> "" -> rstrip (a +:+ b) = a +:+ rstrip b.
Proof.
  intros Hb. induction a as [|c a IH]; [by rewrite !app_empty|].
  rewrite !app_cons. simpl. rewrite IH.
  destruct (a +:+ rstrip b) eqn:Hab; [|done].
  destruct a; [|by rewrite app_cons in Hab]. by rewrite app_empty in Hab.
Qed.

Lemma rstrip_equals v : rstrip v = v -> rstrip (String equals_sign v) = String equals_sign v.
Proof. simpl. intros ->. by destruct v. Qed.

(** The line written for a pair reads back as that pair. *)
Lemma strip_written k v :
  lstrip k = k -> rstrip v = v ->
  strip (k +:+ String equals_sign (v +:+ String newline "")) = k +:+ String equals_sign v.
Proof.
  intros Hk Hv. unfold strip. rewrite (lstrip_app_fixed k _ Hk).
  assert (Hr : rstrip (String equals_sign (v +:+ String newline "")) = String equals_sign v).
  { cbn [rstrip]. rewrite (rstrip_app_space v newline is_space_newline), Hv.
    by destruct v. }
  rewrite rstrip_app_kept; rewrite Hr; done.
Qed.

Lemma split_once_written k v :
  has_char equals_sign k = false ->
  split_once equals_sign (k +:+ String equals_sign v) = Some (k, v).
Proof.
  induction k as [|c k IH]; simpl; intros H; [done|].
  apply orb_false_iff in H as [Hc Hk]. rewrite Hc. by rewrite (IH Hk).
Qed.

Lemma read_line_written config k v :
  key_ok k -> value_ok v ->
  read_line config (k +:+ String equals_sign (v +:+ String newline "")) = dict_set k v config.
Proof.
  intros (Heq & _ & _ & Hl) (_ & _ & Hr). unfold read_line.
  rewrite has_char_app. cbn [has_char]. rewrite Ascii.eqb_refl, orb_true_r. cbn [orb].
  rewrite (strip_written k v Hl Hr). by rewrite (split_once_written k v Heq).
Qed.

Lemma app_assoc_string (a b c : string) : (a +:+ b) +:+ c = a +:+ (b +:+ c).
Proof.
  induction a as [|x a IH]; [done|]. by rewrite !app_cons, IH.
Qed.

Lemma dict_set_fresh k v config :
  k ∉ map fst config -> dict_set k v config = (config ++ [(k, v)])%list.
Proof.
  induction config as [|[k' v'] rest IH]; simpl; intros Hk; [done|].
  destruct (String.eqb_spec k' k) as [->|Hne]; [by destruct Hk; left|].
  rewrite IH; [done|]. intros Hin. apply Hk. by right.
Qed.

Lemma dict_set_keys k v config :
  map fst (dict_set k v config) =
    if bool_decide (k ∈ map fst config) then map fst config
    else (map fst config ++ [k])%list.
Proof.
  induction config as [|[k' v'] rest IH]; simpl; [done|].
  destruct (String.eqb_spec k' k) as [->|Hne]; simpl.
  - by rewrite bool_decide_eq_true_2 by (by left).
  - rewrite IH. destruct (bool_decide (k ∈ map fst rest)) eqn:Hd.
    + apply bool_decide_eq_true_1 in Hd. by rewrite bool_decide_eq_true_2 by (by right).
    + apply bool_decide_eq_false_1 in Hd.
      rewrite bool_decide_eq_false_2; [done|].
      intros Hin. apply elem_of_cons in Hin as [?|?]; congruence.
Qed.

Lemma dict_set_ok k v config :
  key_ok k -> value_ok v -> config_ok config -> config_ok (dict_set k v config).
Proof.
  intros Hk Hv [Hall Hnd]. split.
  - clear Hnd. induction config as [|[k' v'] rest IH]; simpl.
    + constructor; [by split | constructor].
    + apply Forall_cons in Hall as [Hhd Htl].
      destruct (String.eqb k' k); constructor; auto.
  - rewrite dict_set_keys. destruct (bool_decide (k ∈ map fst config)) eqn:Hd; [done|].
    apply bool_decide_eq_false_1 in Hd.
    apply NoDup_app. split; [exact Hnd|]. split.
    + intros x Hx Hin. apply list_elem_of_singleton in Hin. by subst x.
    + apply NoDup_singleton.
Qed.

Lemma dict_lookup_set k v config : dict_lookup k (dict_set k v config) = Some v.
Proof.
  induction config as [|[k' v'] rest IH]; simpl; [by rewrite String.eqb_refl|].
  destruct (String.eqb k' k) eqn:Hk; simpl; [by rewrite String.eqb_refl|].
  by rewrite Hk.
Qed.

Lemma dict_lookup_set_other k k' v config :
  k' <> k -> dict_lookup k' (dict_set k v config) = dict_lookup k' config.
Proof.
  intros Hne. induction config as [|[k0 v0] rest IH]; simpl.
  - destruct (String.eqb_spec k k'); [congruence|done].
  - destruct (String.eqb_spec k0 k) as [->|Hk0]; simpl.
    + destruct (String.eqb_spec k k'); [congruence|done].
    + by rewrite IH.
Qed.

Lemma dict_set_twice k v v' config :
  dict_set k v (dict_set k v' config) = dict_set k v config.
Proof.
  induction config as [|[k0 v0] rest IH]; simpl; [by rewrite String.eqb_refl|].
  destruct (String.eqb k0 k) eqn:Hk; simpl; [by rewrite String.eqb_refl|].
  by rewrite Hk, IH.
Qed.

(** Reading what the writing loop wrote replays the insertions. *)
Lemma read_rendered config acc :
  Forall (fun kv => key_ok (fst kv) /\ value_ok (snd kv)) config ->
  fold_left read_line (split_lines (render_config config)) acc =
  fold_left (fun c kv => dict_set (fst kv) (snd kv) c) config acc.
Proof.
  intros Hall. revert acc. induction Hall as [|[k v] rest [Hk Hv] _ IH]; intros acc; [done|].
  cbn [fst snd] in Hk, Hv. cbn [render_config fold_left fst snd].
  replace (k +:+ String equals_sign (v +:+ String newline (render_config rest)))
    with ((k +:+ String equals_sign v) +:+ String newline (render_config rest))
    by (by rewrite app_assoc_string, app_cons).
  rewrite split_lines_line.
  - cbn [fold_left]. rewrite IH. f_equal.
    rewrite app_assoc_string, app_cons. by apply read_line_written.
  - rewrite has_char_app. cbn [has_char].
    destruct Hk as (_ & -> & _), Hv as (-> & _). reflexivity.
Qed.

(** What the writing loop writes holds a character only if a key or a
    value does, the ["="] and the line feed apart. *)
Lemma render_clean c config :
  Ascii.eqb equals_sign c = false -> Ascii.eqb newline c = false ->
  Forall (fun kv => has_char c (fst kv) = false /\ has_char c (snd kv) = false) config ->
  has_char c (render_config config) = false.
Proof.
  intros Heq Hnl. induction 1 as [|[k v] rest [Hk Hv] _ IH]; [done|].
  cbn [fst snd] in Hk, Hv. cbn [render_config].
  rewrite has_char_app. cbn [has_char]. rewrite has_char_app. cbn [has_char].
  by rewrite Hk, Hv, Heq, Hnl, IH.
Qed.

Lemma config_ok_clean config :
  Forall (fun kv => key_ok (fst kv) /\ value_ok (snd kv)) config ->
  Forall (fun kv => has_char carriage_return (fst kv) = false /\
                    has_char carriage_return (snd kv) = false) config /\
  Forall (fun kv => has_char newline (fst kv) = false /\
                    has_char newline (snd kv) = false) config.
Proof.
  intros Hall. split; (eapply Forall_impl; [exact Hall|]);
    by intros [k v] [(_ & ? & ? & _) (? & ? & _)].
Qed.

Lemma replay_distinct config acc :
  NoDup (map fst (acc ++ config)) ->
  fold_left (fun c kv => dict_set (fst kv) (snd kv) c) config acc = (acc ++ config)%list.
Proof.
  revert acc. induction config as [|[k v] rest IH]; intros acc Hnd; simpl.
  - by rewrite app_nil_r.
  - rewrite dict_set_fresh.
    + rewrite IH; rewrite <- app_assoc; done.
    + rewrite map_app in Hnd. apply NoDup_app in Hnd as (_ & Hdisj & _).
      intros Hin. apply (Hdisj k Hin). simpl. left.
Qed.

(** What the program wrote, it reads back. *)
Lemma parse_rendered config : config_ok config -> parse_config (render_config config) = config.
Proof.
  intros [Hall Hnd]. unfold parse_config.
  rewrite file_lines_fixed
    by (apply render_clean; [done | done | by apply config_ok_clean]).
  rewrite (read_rendered config [] Hall). by apply replay_distinct.
Qed.

(** Every line the file yields has its line end last, if at all. *)
Lemma split_lines_shape content : Forall line_shape (split_lines content).
Proof.
  induction content as [|c rest IH]; [constructor|].
  cbn [split_lines]. destruct (Ascii.eqb_spec c newline) as [->|Hc].
  - constructor; [|exact IH]. exists "". split; [done|]. by right.
  - assert (Hcf : Ascii.eqb c newline = false) by (by apply Ascii.eqb_neq).
    destruct (split_lines rest) as [|line more]; constructor.
    + exists (String c ""). split; [|by left]. cbn [has_char]. by rewrite Hcf.
    + constructor.
    + apply Forall_cons in IH as [(text & Ht & Hline) _].
      exists (String c text). split; [cbn [has_char]; by rewrite Hcf, Ht|].
      destruct Hline as [-> | ->]; [by left | by right].
    + by apply Forall_cons in IH as [_ ?].
Qed.

Lemma lstrip_idempotent s : lstrip (lstrip s) = lstrip s.
Proof.
  induction s as [|c s IH]; [done|]. cbn [lstrip].
  destruct (is_space c) eqn:Hc; [exact IH|]. cbn [lstrip]. by rewrite Hc.
Qed.

Lemma has_char_lstrip c s : has_char c s = false -> has_char c (lstrip s) = false.
Proof.
  induction s as [|a s IH]; [done|]. cbn [lstrip has_char]. intros H.
  apply orb_false_iff in H as [Ha Hs].
  destruct (is_space a); [by apply IH|]. cbn [has_char]. by rewrite Ha, Hs.
Qed.

Lemma has_char_rstrip c s : has_char c s = false -> has_char c (rstrip s) = false.
Proof.
  induction s as [|a s IH]; [done|]. cbn [rstrip has_char]. intros H.
  apply orb_false_iff in H as [Ha Hs]. specialize (IH Hs).
  destruct (rstrip s) as [|b kept].
  - destruct (is_space a); [done|]. cbn [has_char]. by rewrite Ha.
  - cbn [has_char] in *. by rewrite Ha, IH.
Qed.

Lemma lstrip_shape line : line_shape line -> line_shape (lstrip line).
Proof.
  intros (text & Ht & Hline). revert line Hline.
  induction text as [|c text IH]; intros line Hline.
  - exists "". split; [done|]. left. by destruct Hline as [-> | ->].
  - cbn [has_char] in Ht. apply orb_false_iff in Ht as [Hc Ht].
    destruct (is_space c) eqn:Hsp.
    + destruct Hline as [-> | ->].
      * cbn [lstrip]. rewrite Hsp. apply (IH Ht). by left.
      * rewrite app_cons. cbn [lstrip]. rewrite Hsp. apply (IH Ht). by right.
    + exists (String c text). split; [cbn [has_char]; by rewrite Hc, Ht|].
      destruct Hline as [-> | ->].
      * left. cbn [lstrip]. by rewrite Hsp.
      * right. rewrite app_cons. cbn [lstrip]. by rewrite Hsp.
Qed.

(** A stripped line has no line end, and neither leading nor trailing white
    space. *)
Lemma rstrip_idempotent s : rstrip (rstrip s) = rstrip s.
Proof.
  induction s as [|c s IH]; [done|]. cbn [rstrip].
  destruct (rstrip s) as [|b kept] eqn:Hs.
  - destruct (is_space c) eqn:Hc; [done|]. cbn [rstrip]. by rewrite Hc.
  - cbn [rstrip] in *. rewrite IH. done.
Qed.

Lemma rstrip_head c s :
  rstrip (String c s) = "" \/ exists kept, rstrip (String c s) = String c kept.
Proof.
  cbn [rstrip]. destruct (rstrip s); [|by eauto].
  destruct (is_space c); by eauto.
Qed.

Lemma strip_no_newline line : line_shape line -> has_char newline (strip line) = false.
Proof.
  intros Hline. apply lstrip_shape in Hline as (text & Ht & Hline). unfold strip.
  destruct Hline as [-> | ->].
  - by apply has_char_rstrip.
  - rewrite (rstrip_app_space text newline is_space_newline). by apply has_char_rstrip.
Qed.

Lemma strip_no_leading s : lstrip (strip s) = strip s.
Proof.
  unfold strip. pose proof (lstrip_idempotent s) as Hl.
  destruct (lstrip s) as [|c y]; [done|].
  apply lstrip_fixed in Hl.
  destruct (rstrip_head c y) as [-> | [kept ->]]; [done|].
  cbn [lstrip]. by rewrite Hl.
Qed.

Lemma strip_no_trailing s : rstrip (strip s) = strip s.
Proof. unfold strip. apply rstrip_idempotent. Qed.

Lemma split_once_parts c t k v :
  split_once c t = Some (k, v) -> t = k +:+ String c v /\ has_char c k = false.
Proof.
  revert k. induction t as [|a t IH]; intros k; [done|]. cbn [split_once].
  destruct (Ascii.eqb_spec a c) as [->|Hne].
  - intros [= <- <-]. done.
  - destruct (split_once c t) as [[k' v']|]; [|done].
    intros [= <- <-]. destruct (IH k' eq_refl) as [-> Hk].
    split; [done|]. cbn [has_char]. rewrite Hk.
    by rewrite (proj2 (Ascii.eqb_neq a c) Hne).
Qed.

Lemma rstrip_app_fixed a b : rstrip (a +:+ b) = a +:+ b -> rstrip b = b.
Proof.
  induction a as [|c a IH]; [done|]. rewrite app_cons. cbn [rstrip].
  destruct (rstrip (a +:+ b)) as [|x kept] eqn:Hr.
  - destruct (is_space c); [done|]. intros [= Hab].
    destruct a; [|done]. rewrite app_empty in Hab. by subst b.
  - intros [= Hab]. by apply IH.
Qed.

(** The pair read from a line has a key and a value that survive the round
    trip. *)
Lemma read_pair_ok line k v :
  line_shape line ->
  has_char carriage_return line = false ->
  split_once equals_sign (strip line) = Some (k, v) ->
  key_ok k /\ value_ok v.
Proof.
  intros Hline Hclean Hsplit. apply split_once_parts in Hsplit as [Ht Hk].
  assert (Hcr : has_char carriage_return (strip line) = false)
    by (unfold strip; by apply has_char_rstrip, has_char_lstrip).
  rewrite Ht, has_char_app in Hcr. apply orb_false_iff in Hcr as [Hcrk Hcrv].
  cbn [has_char] in Hcrv. apply orb_false_iff in Hcrv as [_ Hcrv].
  pose proof (strip_no_newline line Hline) as Hnl.
  pose proof (strip_no_leading line) as Hlead.
  pose proof (strip_no_trailing line) as Htrail.
  rewrite Ht in Hnl, Hlead, Htrail.
  rewrite has_char_app in Hnl. apply orb_false_iff in Hnl as [Hnlk Hnlv].
  cbn [has_char] in Hnlv. apply orb_false_iff in Hnlv as [_ Hnlv].
  split; [split; [exact Hk|split; [exact Hnlk|split; [exact Hcrk|]]]
         | split; [exact Hnlv|split; [exact Hcrv|]]].
  - destruct k as [|c k]; [done|]. rewrite app_cons in Hlead.
    apply lstrip_fixed in Hlead. cbn [lstrip]. by rewrite Hlead.
  - change (k +:+ String equals_sign v) with (k +:+ (String equals_sign "" +:+ v)) in Htrail.
    rewrite <- app_assoc_string in Htrail. by apply rstrip_app_fixed in Htrail.
Qed.

Lemma read_line_ok config line :
  line_shape line -> has_char carriage_return line = false ->
  config_ok config -> config_ok (read_line config line).
Proof.
  intros Hline Hclean Hok. unfold read_line.
  destruct (has_char equals_sign line); [|done].
  destruct (split_once equals_sign (strip line)) as [[k v]|] eqn:Hsplit; [|done].
  destruct (read_pair_ok line k v Hline Hclean Hsplit). by apply dict_set_ok.
Qed.

(** Whatever the file holds, the dictionary read from it is one that a
    round trip through the file preserves. *)
Lemma parse_config_ok content : config_ok (parse_config content).
Proof.
  unfold parse_config.
  assert (Hgen : forall lines acc,
            Forall line_shape lines ->
            Forall (fun line => has_char carriage_return line = false) lines ->
            config_ok acc ->
            config_ok (fold_left read_line lines acc)).
  { induction lines as [|l lines IH]; intros acc Hl Hc Hacc; [done|].
    apply Forall_cons in Hl as [Hl Hls]. apply Forall_cons in Hc as [Hc Hcs].
    cbn [fold_left]. apply IH; [exact Hls | exact Hcs |]. by apply read_line_ok. }
  apply Hgen; [apply split_lines_shape | apply file_lines_clean |]. split; constructor.
Qed.

Lemma read_config_ok file : config_ok (read_config file).
Proof.
  destruct file; [apply parse_config_ok|]. split; constructor.
Qed.

Lemma has_char_strip c s : is_space c = false -> has_char c (strip s) = has_char c s.
Proof.
  intros Hc. unfold strip.
  assert (Hl : forall t, has_char c (lstrip t) = has_char c t).
  { induction t as [|a t IH]; [done|]. cbn [lstrip has_char].
    destruct (is_space a) eqn:Ha; [|done]. rewrite IH.
    destruct (Ascii.eqb_spec a c) as [->|]; [congruence|done]. }
  assert (Hr : forall t, has_char c (rstrip t) = has_char c t).
  { induction t as [|a t IH]; [done|]. cbn [rstrip has_char]. rewrite <- IH.
    destruct (rstrip t) as [|b kept]; [|done].
    destruct (is_space a) eqn:Ha; cbn [has_char]; [|done].
    destruct (Ascii.eqb_spec a c) as [->|]; [congruence|done]. }
  by rewrite Hr, Hl.
Qed.

Lemma split_once_some c t : has_char c t = true -> is_Some (split_once c t).
Proof.
  induction t as [|a t IH]; [done|]. cbn [has_char split_once].
  destruct (Ascii.eqb a c); [by eexists|]. cbn [orb]. intros H.
  destruct (IH H) as [[k v] ->]. by eexists.
Qed.

Lemma split_lines_rendered config :
  Forall (fun kv => has_char newline (fst kv) = false /\ has_char newline (snd kv) = false)
         config ->
  split_lines (render_config config) = map written_line config.
Proof.
  induction 1 as [|[k v] rest [Hk Hv] _ IH]; [done|]. cbn [fst snd] in Hk, Hv.
  cbn [render_config map]. unfold written_line at 1. cbn [fst snd].
  replace (k +:+ String equals_sign (v +:+ String newline (render_config rest)))
    with ((k +:+ String equals_sign v) +:+ String newline (render_config rest))
    by (by rewrite app_assoc_string, app_cons).
  rewrite split_lines_line, IH.
  - by rewrite app_assoc_string, app_cons.
  - rewrite has_char_app. cbn [has_char]. by rewrite Hk, Hv.
Qed.

(** Reading back what [update_config_value] wrote. *)
Lemma update_read_back key value file :
  key_ok key -> value_ok value ->
  read_config (update_config_value key value file) = dict_set key value (read_config file).
Proof.
  intros Hk Hv. unfold update_config_value. cbn [read_config].
  apply parse_rendered, dict_set_ok; [done | done | apply read_config_ok].
Qed.

Lemma strip_value_ok a :
  has_char newline a = false -> has_char carriage_return a = false -> value_ok (strip a).
Proof.
  intros Ha Hc. split; [|split; [|apply strip_no_trailing]];
    unfold strip; by apply has_char_rstrip, has_char_lstrip.
Qed.

Lemma dict_set_forall (P : string * string -> Prop) k v config :
  P (k, v) -> Forall P config -> Forall P (dict_set k v config).
Proof.
  intros Hkv. induction 1 as [|[k' v'] rest Hhd Hrest IH]; cbn [dict_set].
  - by repeat constructor.
  - destruct (String.eqb k' k); by constructor.
Qed.

(** X10: what [update_config_value] writes, the reading loop reads back: the
    pair just set, and every pair the file held before, in the same order.
    The key must have no ["="], no line end (line feed or carriage return)
    and no leading white space, the value no line end and no trailing
    white space. *)
Theorem config_read_back key value file :
  key_ok key -> value_ok value ->
  read_config (update_config_value key value file) = dict_set key value (read_config file) /\
  dict_lookup key (read_config (update_config_value key value file)) = Some value /\
  (forall k, k <> key ->
     dict_lookup k (read_config (update_config_value key value file))
       = dict_lookup k (read_config file)).
Proof.
  intros Hk Hv.
  assert (Hread : read_config (update_config_value key value file)
                  = dict_set key value (read_config file)).
  { unfold update_config_value. cbn [read_config].
    apply parse_rendered, dict_set_ok; [done | done | apply read_config_ok]. }
  rewrite Hread. split; [done|]. split; [apply dict_lookup_set|].
  intros k Hne. by apply dict_lookup_set_other.
Qed.

(** X11: setting the same pair twice writes the same file as setting it
    once, for a key and a value that survive the round trip.  *)
Theorem config_update_idempotent key value file :
  key_ok key -> value_ok value ->
  update_config_value key value (update_config_value key value file)
    = update_config_value key value file.
Proof.
  intros Hk Hv. unfold update_config_value at 1 3. f_equal. f_equal.
  fold (update_config_value key value file).
  assert (Hread : read_config (update_config_value key value file)
                  = dict_set key value (read_config file)).
  { unfold update_config_value. cbn [read_config].
    apply parse_rendered, dict_set_ok; [done | done | apply read_config_ok]. }
  rewrite Hread. apply dict_set_twice.
Qed.

(** X12: the file [update_config_value] leaves has, as the program reads
    it, exactly one line per key, each of the form [key=value]; every
    line of the old file without an ["="] (a comment, a blank line) is
    gone.  The key and the value must hold no line end, neither a line
    feed nor a carriage return. *)
Theorem config_rewrite_drops_other_lines key value file :
  has_char newline key = false -> has_char carriage_return key = false ->
  has_char newline value = false -> has_char carriage_return value = false ->
  exists content,
    update_config_value key value file = Some content /\
    file_lines content = map written_line (dict_set key value (read_config file)) /\
    Forall (fun line => has_char equals_sign line = true) (file_lines content).
Proof.
  intros Hk Hkc Hv Hvc. eexists. split; [reflexivity|].
  destruct (read_config_ok file) as [Hall _].
  apply config_ok_clean in Hall as [Hcr Hnl].
  rewrite file_lines_fixed
    by (apply render_clean; [done | done | by apply dict_set_forall]).
  rewrite split_lines_rendered by (by apply dict_set_forall).
  split; [done|].
  apply List.Forall_forall. intros line Hin. apply in_map_iff in Hin as ([k v] & <- & _).
  unfold written_line. rewrite has_char_app. cbn [has_char fst snd].
  by rewrite Ascii.eqb_refl, orb_true_r.
Qed.

(** A carriage return ends a line for the reader: a value written with one
    inside is read back cut short, and what follows it as a line of its
    own. *)
Example carriage_return_ends_line :
  read_config (update_config_value "HUE_USERNAME"
                 ("k3yQ" +:+ String carriage_return "HUE_BRIDGE_IP=6.6.6.6") None)
    = [("HUE_USERNAME", "k3yQ"); ("HUE_BRIDGE_IP", "6.6.6.6")].
Proof. reflexivity. Qed.

(** X13: the reading loop cannot fail on its unpacking: a line that holds an
    ["="] still holds it after [strip], so the split at the first ["="] has
    its two parts, whatever the file holds. *)
Theorem config_line_always_splits line :
  has_char equals_sign line = true ->
  exists k v, split_once equals_sign (strip line) = Some (k, v) /\
              strip line = k +:+ String equals_sign v /\
              has_char equals_sign k = false.
Proof.
  intros Hline.
  destruct (split_once_some equals_sign (strip line)) as [[k v] Hsplit].
  { by rewrite (has_char_strip _ _ is_space_equals). }
  exists k, v. split; [exact Hsplit|]. by apply split_once_parts.
Qed.

(** X22: the file [interactive_setup] writes is one [update_config_value]
    reads back in full: for an address, a username and a dump without a
    line end (line feed or carriage return) or trailing white space, its
    reading loop finds exactly the three pairs, in the order written, so
    that a later update of one key keeps the other two. *)
Theorem setup_file_read_back bridge_ip username devices :
  value_ok bridge_ip -> value_ok username -> value_ok devices ->
  read_config (Some (setup_file bridge_ip username devices))
    = [("HUE_BRIDGE_IP", bridge_ip); ("HUE_USERNAME", username); ("DEVICES", devices)] /\
  forall key value, key_ok key -> value_ok value ->
    read_config (update_config_value key value
                   (Some (setup_file bridge_ip username devices)))
    = dict_set key value
        [("HUE_BRIDGE_IP", bridge_ip); ("HUE_USERNAME", username); ("DEVICES", devices)].
Proof.
  intros Hip Huser Hdevs.
  assert (Hread : read_config (Some (setup_file bridge_ip username devices))
                  = [("HUE_BRIDGE_IP", bridge_ip); ("HUE_USERNAME", username);
                     ("DEVICES", devices)]).
  { change (Some (setup_file bridge_ip username devices))
      with (Some (render_config [("HUE_BRIDGE_IP", bridge_ip); ("HUE_USERNAME", username);
                                 ("DEVICES", devices)])).
    cbn [read_config]. apply parse_rendered. split.
    - repeat (constructor; [split; [by repeat split | done] |]). constructor.
    - cbn [map fst]. compute_done. }
  split; [done|]. intros key value Hk Hv.
  by rewrite (update_read_back key value _ Hk Hv), Hread.
Qed.

End Config_properties.

(** The sample file, after a new credential is stored: the comment and the
    blank line are gone, the padding of the line is gone, the order is kept;
    the key written with a space before its ["="] is another key, so the
    credential is appended. *)
Example config_update_sample :
  update_config_value "HUE_USERNAME" "k3yQ" (Some sample_env) =
    Some ("HUE_BRIDGE_IP=192.168.1.2" +:+ String newline
          ("HUE_USERNAME = old" +:+ String newline
          ("DEVICES=[]" +:+ String newline
          ("HUE_USERNAME=k3yQ" +:+ String newline "")))).
Proof. vm_compute. reflexivity. Qed.

Lemma config_read_back_witness :
  read_config (update_config_value "HUE_USERNAME" "k3yQ" (Some sample_env))
    = dict_set "HUE_USERNAME" "k3yQ" (read_config (Some sample_env)) /\
  dict_lookup "HUE_USERNAME" (read_config (update_config_value "HUE_USERNAME" "k3yQ"
                                             (Some sample_env))) = Some "k3yQ" /\
  (forall k, k <> "HUE_USERNAME" ->
     dict_lookup k (read_config (update_config_value "HUE_USERNAME" "k3yQ" (Some sample_env)))
       = dict_lookup k (read_config (Some sample_env))).
Proof.
  apply (config_read_back "HUE_USERNAME" "k3yQ" (Some sample_env)).
  - repeat split; reflexivity.
  - repeat split; reflexivity.
Defined.

Lemma config_update_idempotent_witness :
  update_config_value "HUE_USERNAME" "k3yQ"
    (update_config_value "HUE_USERNAME" "k3yQ" (Some sample_env))
    = update_config_value "HUE_USERNAME" "k3yQ" (Some sample_env).
Proof.
  apply (config_update_idempotent "HUE_USERNAME" "k3yQ" (Some sample_env)).
  - repeat split; reflexivity.
  - repeat split; reflexivity.
Defined.

Lemma config_rewrite_drops_other_lines_witness :
  exists content,
    update_config_value "HUE_USERNAME" "k3yQ" (Some sample_env) = Some content /\
    file_lines content
      = map written_line (dict_set "HUE_USERNAME" "k3yQ" (read_config (Some sample_env))) /\
    Forall (fun line => has_char equals_sign line = true) (file_lines content).
Proof.
  apply (config_rewrite_drops_other_lines "HUE_USERNAME" "k3yQ" (Some sample_env)).
  - reflexivity.
  - reflexivity.
  - reflexivity.
  - reflexivity.
Defined.

Lemma config_line_always_splits_witness :
  exists k v, split_once equals_sign (strip ("  HUE_USERNAME = old  " +:+ String newline ""))
                = Some (k, v) /\
              strip ("  HUE_USERNAME = old  " +:+ String newline "")
                = k +:+ String equals_sign v /\
              has_char equals_sign k = false.
Proof.
  apply (config_line_always_splits ("  HUE_USERNAME = old  " +:+ String newline "")).
  reflexivity.
Defined.

(** ** The interactive setup *)

Section Setup_properties.

Context {W : Type} (http : request -> W -> option response * W).
Context (clock : W -> Z) (sleep : Z -> W -> W).
Context (repr : json -> string) (dumps : json -> string).
Context (getenv : option string -> string -> option string).
Context (exc_text : failure -> string).

Ltac io_run :=
  unfold interactive_device_setup, fetch_lights, io_try, io_bind, io_ret, io_lift,
    run_core, print, input, config_exists, os_getenv, io_update_config_value,
    requests, log in *;
  simpl in *.

(** Printing the list changes nothing but what is printed, and fails, with
    [AttributeError], exactly on a reply that is not a dictionary of
    dictionaries. *)
Lemma print_items_effect items (t : session W) :
  core (snd (print_items repr items t)) = core t /\
  typed (snd (print_items repr items t)) = typed t /\
  env_file (snd (print_items repr items t)) = env_file t /\
  (fst (print_items repr items t) = Returns tt \/
   fst (print_items repr items t) = Fails (Uncaught AttributeError)).
Proof.
  revert t. induction items as [|[dev info] rest IH]; intros t; [by auto|].
  cbn [print_items]. io_run.
  destruct info; simpl; try by auto.
  match goal with |- context [print_items repr rest ?t'] => destruct (IH t') as (?&?&?&?) end.
  by repeat split.
Qed.

Lemma print_devices_effect devices (t : session W) :
  core (snd (print_devices repr devices t)) = core t /\
  typed (snd (print_devices repr devices t)) = typed t /\
  env_file (snd (print_devices repr devices t)) = env_file t /\
  (fst (print_devices repr devices t) = Returns tt \/
   fst (print_devices repr devices t) = Fails (Uncaught AttributeError)) /\
  ((forall items, devices <> JObj items) ->
   fst (print_devices repr devices t) = Fails (Uncaught AttributeError)).
Proof.
  unfold print_devices. io_run.
  destruct devices; simpl; try by auto 10.
  match goal with |- context [print_items repr kvs ?t'] =>
    destruct (print_items_effect kvs t') as (?&?&?&?) end.
  repeat split; try done. intros Hno. by destruct (Hno kvs).
Qed.

Lemma strip_idempotent x : strip (strip x) = strip x.
Proof.
  unfold strip at 1. by rewrite strip_no_leading, strip_no_trailing.
Qed.

(** The selection loop changes neither the process state nor the file, and
    what it returns is what was configured so far followed by entries chosen
    from the list. *)
Lemma device_loop_spec items fuel configured (t : session W) :
  core (snd (device_loop repr fuel (JObj items) configured t)) = core t /\
  env_file (snd (device_loop repr fuel (JObj items) configured t)) = env_file t /\
  (forall v, fst (device_loop repr fuel (JObj items) configured t) = Returns v ->
     exists added, v = JList (configured ++ added) /\ Forall (chosen_from items) added).
Proof.
  revert configured t. induction fuel as [|fuel IH]; intros configured t; [done|].
  remember (device_loop repr (S fuel) (JObj items) configured t) as r eqn:Hr.
  cbn [device_loop] in Hr. unfold io_bind at 1 in Hr.
  destruct (print_devices_effect (JObj items) t) as (Hc & Hty & He & Ho & _).
  destruct (print_devices repr (JObj items) t) as [o t1]. cbn [fst snd] in *.
  destruct Ho as [-> | ->]; [|by subst r].
  unfold io_bind at 1, input at 1 in Hr.
  destruct (typed t1) as [|line rest]; [by subst r|].
  destruct (String.eqb_spec (strip line) "") as [Hempty|Hsel].
  { subst r. cbn. split; [done|]. split; [done|]. intros v [= <-].
    exists []. by rewrite app_nil_r. }
  unfold io_bind at 1, io_lift at 1 in Hr. cbn [contains] in Hr.
  destruct (assoc (strip line) items) as [info|] eqn:Hinfo.
  - rewrite bool_decide_eq_true_2 in Hr by eauto. cbn [negb] in Hr.
    unfold io_bind at 1, io_lift at 1 in Hr. cbn [getitem_str] in Hr. rewrite Hinfo in Hr.
    unfold io_bind at 1, io_lift at 1 in Hr.
    destruct info as [| b | n | str | xs | info]; try by subst r.
    cbn [dict_get] in Hr. unfold io_bind at 1, input at 1 in Hr. cbn [typed] in Hr.
    destruct rest as [|hk rest]; [by subst r|].
    unfold io_bind at 1, input at 1 in Hr. cbn [typed] in Hr.
    destruct rest as [|more rest]; [by subst r|].
    assert (Hentry : chosen_from items
              (JObj [("device_id", JStr (strip line)); ("hotkey", JStr (strip hk));
                     ("name", default (JStr "Unknown") (assoc "name" info))])).
    { exists (strip line), (strip hk), info. split; [done|]. split; [done|].
      split; [apply strip_idempotent|done]. }
    destruct (negb (lower (strip more) =? "y")%string).
    + subst r. cbn. split; [done|]. split; [done|]. intros v [= <-].
      eexists [_]. split; [done|]. by constructor.
    + match type of Hr with context [device_loop repr fuel (JObj items) ?c ?t'] =>
        destruct (IH c t') as (IHc & IHe & IHv) end.
      subst r.
      split; [by rewrite IHc|]. split; [by rewrite IHe|].
      intros v Hv. destruct (IHv v Hv) as (added & -> & Hall).
      eexists (_ :: added). split; [by rewrite <- app_assoc|]. by constructor.
  - rewrite bool_decide_eq_false_2 in Hr by (intros [? ?]; discriminate). cbn [negb] in Hr.
    unfold io_bind at 1, print at 1 in Hr.
    match type of Hr with context [device_loop repr fuel (JObj items) configured ?t'] =>
      destruct (IH configured t') as (IHc & IHe & IHv) end.
    subst r.
    split; [by rewrite IHc|]. split; [by rewrite IHe|]. exact IHv.
Qed.

(** On a reply that is not a dictionary the loop fails at its first
    statement after the heading, before any question. *)
Lemma device_loop_not_dict devices fuel configured (t : session W) :
  (forall items, devices <> JObj items) ->
  core (snd (device_loop repr fuel devices configured t)) = core t /\
  env_file (snd (device_loop repr fuel devices configured t)) = env_file t /\
  typed (snd (device_loop repr fuel devices configured t)) = typed t /\
  fst (device_loop repr fuel devices configured t)
    = Fails (match fuel with O => Unfinished | S _ => Uncaught AttributeError end).
Proof.
  intros Hno. destruct fuel as [|fuel]; [done|].
  remember (device_loop repr (S fuel) devices configured t) as r eqn:Hr.
  cbn [device_loop] in Hr. unfold io_bind at 1 in Hr.
  destruct (print_devices_effect devices t) as (Hc & Hty & He & _ & Ho).
  specialize (Ho Hno).
  destruct (print_devices repr devices t) as [o t1]. cbn [fst snd] in *. subst o.
  by subst r.
Qed.

(** [interactive_device_setup], by what the bridge answers. *)
Lemma interactive_device_setup_cases fuel bridge_ip username (t : session W) :
  let reply := http (GET (lights_url bridge_ip username)) (world (core t)) in
  let r := interactive_device_setup http repr exc_text fuel bridge_ip username t in
  match parsed (fst reply) with
  | Raise _ => fst r = Returns JNull /\ typed (snd r) = typed t /\ printed (snd r) = printed t
  | Ok devices =>
      if truthy devices then
        exists t1, typed t1 = typed t /\ r = device_loop repr fuel devices [] t1
      else fst r = Returns JNull /\ typed (snd r) = typed t /\ printed (snd r) = printed t
  end.
Proof.
  intros reply r. subst reply r. unfold lights_url, parsed.
  remember (interactive_device_setup http repr exc_text fuel bridge_ip username t) as r eqn:Hr.
  unfold interactive_device_setup in Hr. io_run.
  destruct (http (GET _) (world (core t))) as [[resp|] w]; simpl in *; [|by subst r].
  destruct (body resp) as [devices|]; simpl in *; [|by subst r].
  destruct (truthy devices) eqn:Htruthy; simpl in *; [|by subst r].
  eexists. split; [|exact Hr]. done.
Qed.

(** What [interactive_device_setup] leaves alone, whatever happens: the
    file, the cache and the hotkeys; and the one request it sends. *)
Lemma interactive_device_setup_frame fuel bridge_ip username (t : session W) :
  let r := interactive_device_setup http repr exc_text fuel bridge_ip username t in
  env_file (snd r) = env_file t /\
  device_states (core (snd r)) = device_states (core t) /\
  hotkeys (core (snd r)) = hotkeys (core t) /\
  exchanges (core (snd r)) =
    (exchanges (core t) ++
     [(GET (lights_url bridge_ip username),
       fst (http (GET (lights_url bridge_ip username)) (world (core t))))])%list.
Proof.
  intros r. subst r. unfold lights_url.
  remember (interactive_device_setup http repr exc_text fuel bridge_ip username t) as r eqn:Hr.
  unfold interactive_device_setup in Hr. io_run.
  destruct (http (GET _) (world (core t))) as [[resp|] w]; simpl in *; [|by subst r].
  destruct (body resp) as [devices|]; simpl in *; [|by subst r].
  destruct (truthy devices) eqn:Htruthy; simpl in *; [|by subst r].
  assert (Hloop : core (snd r) = core (snd (Returns tt, {| core := {| device_states := device_states (core t);
                            logged := logged (core t) ++
                              [{| lvl := DEBUG; fmt := "Retrieved devices: %s";
                                  args := [LVal devices] |}];
                            hotkeys := hotkeys (core t);
                            exchanges := exchanges (core t) ++
                              [(GET ("http://" +:+ bridge_ip +:+ "/api/" +:+ username +:+ "/lights"),
                                Some resp)];
                            world := w |};
                 typed := typed t; printed := printed t; env_file := env_file t |})) /\
                  env_file (snd r) = env_file t).
  { subst r.
    destruct devices as [| b | n | str | xs | items];
      try (match goal with |- context [device_loop repr fuel ?d ?c ?t'] =>
             destruct (device_loop_not_dict d fuel c t') as (Hc & He & _); [done|] end;
           by rewrite Hc, He).
    match goal with |- context [device_loop repr fuel (JObj items) ?c ?t'] =>
      destruct (device_loop_spec items fuel c t') as (Hc & He & _) end.
    by rewrite Hc, He. }
  destruct Hloop as [-> ->]. done.
Qed.

(** X14: when the bridge answers the request for the list of lights with
    JSON that is neither empty nor a dictionary (such as the error list it
    sends to an unknown user), [interactive_device_setup] raises
    [AttributeError], which nothing catches, before it asks anything. *)
Theorem device_setup_fails_on_list_reply fuel bridge_ip username (t : session W) devices :
  parsed (fst (http (GET (lights_url bridge_ip username)) (world (core t)))) = Ok devices ->
  truthy devices = true ->
  (forall items, devices <> JObj items) ->
  fst (interactive_device_setup http repr exc_text (S fuel) bridge_ip username t)
    = Fails (Uncaught AttributeError) /\
  typed (snd (interactive_device_setup http repr exc_text (S fuel) bridge_ip username t))
    = typed t.
Proof.
  intros Hp Htruthy Hno.
  pose proof (interactive_device_setup_cases (S fuel) bridge_ip username t) as Hcases.
  cbn zeta in Hcases. rewrite Hp, Htruthy in Hcases.
  destruct Hcases as (t1 & Hty & ->).
  destruct (device_loop_not_dict devices (S fuel) [] t1 Hno) as (_ & _ & Htyped & Hfst).
  by rewrite Hfst, Htyped.
Qed.

(** X15: when the request for the list fails, or its reply is not JSON, or is
    empty (an empty dictionary, an empty list, [null]), the function
    returns [None] without printing or asking anything. *)
Theorem device_setup_returns_none fuel bridge_ip username (t : session W) :
  (exists e, parsed (fst (http (GET (lights_url bridge_ip username)) (world (core t))))
             = Raise e) \/
  (exists devices,
     parsed (fst (http (GET (lights_url bridge_ip username)) (world (core t)))) = Ok devices /\
     truthy devices = false) ->
  fst (interactive_device_setup http repr exc_text fuel bridge_ip username t) = Returns JNull /\
  typed (snd (interactive_device_setup http repr exc_text fuel bridge_ip username t)) = typed t /\
  printed (snd (interactive_device_setup http repr exc_text fuel bridge_ip username t))
    = printed t.
Proof.
  intros Hr.
  pose proof (interactive_device_setup_cases fuel bridge_ip username t) as Hcases.
  cbn zeta in Hcases.
  destruct Hr as [[e He] | (devices & Hd & Hfalsy)].
  - by rewrite He in Hcases.
  - by rewrite Hd, Hfalsy in Hcases.
Qed.

(** X16: every entry of the list [interactive_device_setup] returns names a
    device the bridge listed, with the name the bridge gave for it
    (["Unknown"] when it gave none) and a hotkey without white space around
    it; the function never invents an identifier. *)
Theorem device_setup_entries_from_list fuel bridge_ip username (t : session W) items v :
  parsed (fst (http (GET (lights_url bridge_ip username)) (world (core t)))) = Ok (JObj items) ->
  fst (interactive_device_setup http repr exc_text fuel bridge_ip username t) = Returns v ->
  (v = JNull /\ items = []) \/
  (exists entries, v = JList entries /\ Forall (chosen_from items) entries).
Proof.
  intros Hp Hv.
  pose proof (interactive_device_setup_cases fuel bridge_ip username t) as Hcases.
  cbn zeta in Hcases. rewrite Hp in Hcases.
  destruct items as [|item items]; cbn [truthy] in Hcases.
  - left. destruct Hcases as (Hnull & _). rewrite Hnull in Hv. by injection Hv as <-.
  - right. destruct Hcases as (t1 & _ & Heq). rewrite Heq in Hv.
    destruct (device_loop_spec (item :: items) fuel [] t1) as (_ & _ & Hloop).
    destruct (Hloop v Hv) as (added & -> & Hall). by exists added.
Qed.

(** X17: [interactive_device_setup] sends one request, the one for the list of
    lights, and changes neither the configuration file, nor the cache, nor
    the hotkeys, however it ends. *)
Theorem device_setup_frame fuel bridge_ip username (t : session W) :
  env_file (snd (interactive_device_setup http repr exc_text fuel bridge_ip username t))
    = env_file t /\
  device_states (core (snd (interactive_device_setup http repr exc_text fuel
                              bridge_ip username t))) = device_states (core t) /\
  hotkeys (core (snd (interactive_device_setup http repr exc_text fuel bridge_ip username t)))
    = hotkeys (core t) /\
  exchanges (core (snd (interactive_device_setup http repr exc_text fuel
                          bridge_ip username t))) =
    (exchanges (core t) ++
     [(GET (lights_url bridge_ip username),
       fst (http (GET (lights_url bridge_ip username)) (world (core t))))])%list.
Proof. apply interactive_device_setup_frame. Qed.

(** *** A program logic for the setup *)


Lemma triple_bind {A B} (m : IO W A) (k : A -> IO W B) P R Q :
  triple P m R ->
  (forall a, triple (R (Returns a)) (k a) Q) ->
  (forall f t, R (Fails f) t -> Q (Fails f) t) ->
  triple P (io_bind m k) Q.
Proof.
  intros Hm Hk Hf t Ht. specialize (Hm t Ht). unfold io_bind.
  destruct (m t) as [[a|f] t1]; cbn [fst snd] in *; [by apply Hk | by apply Hf].
Qed.

Lemma triple_weaken {A} (m : IO W A) (P P' : session W -> Prop) (Q Q' : outcome A -> session W -> Prop) :
  triple P' m Q' ->
  (forall t, P t -> P' t) ->
  (forall o t, Q' o t -> Q o t) ->
  triple P m Q.
Proof. intros Hm HP HQ t Ht. by apply HQ, Hm, HP. Qed.




Lemma settled_log F ds hk l f a :
  triple (W:=W) (settled F ds hk) (run_core (log l f a)) (fun _ => settled F ds hk).
Proof. by intros t Ht. Qed.


Lemma settled_device_setup F ds hk fuel bridge_ip username :
  triple (settled F ds hk) (interactive_device_setup http repr exc_text fuel bridge_ip username)
    (fun _ => settled F ds hk).
Proof.
  intros t (HF & Hds & Hhk).
  pose proof (interactive_device_setup_frame fuel bridge_ip username t) as Hframe.
  cbn zeta in Hframe. destruct Hframe as (H1 & H2 & H3 & _).
  unfold settled. rewrite H1, H2, H3. done.
Qed.






Lemma triple_pure {A} (phi : Prop) (P : session W -> Prop) (m : IO W A) Q :
  (phi -> triple P m Q) -> triple (fun t => phi /\ P t) m Q.
Proof. intros H t [Hphi Ht]. by apply H. Qed.

Lemma settled_exists F ds hk :
  triple (W:=W) (settled F ds hk) config_exists
    (fun o t => o = Returns (bool_decide (is_Some F)) /\ settled F ds hk t).
Proof. intros t Ht. pose proof Ht as (<- & _). by split. Qed.

Lemma settled_getenv F ds hk name :
  triple (W:=W) (settled F ds hk) (os_getenv getenv name)
    (fun o t => o = Returns (getenv F name) /\ settled F ds hk t).
Proof. intros t Ht. pose proof Ht as (<- & _). by split. Qed.



(** X19: when the user answers yes and gives a username for which the bridge
    returns a dictionary that is not empty, [update_username] stores the
    stripped answer without sending a pairing request; if the answer holds
    no line end (neither a line feed nor a carriage return), reading the
    file afterwards gives that username for ["HUE_USERNAME"] and, for
    every other key, what the file gave before. *)
Theorem update_username_accepts fuel (t : session W) content bridge_ip a1 a2 rest result :
  env_file t = Some content ->
  getenv (Some content) "HUE_BRIDGE_IP" = Some bridge_ip ->
  bridge_ip <> "" ->
  typed t = a1 :: a2 :: rest ->
  lower (strip a1) = "y" ->
  has_char newline a2 = false ->
  has_char carriage_return a2 = false ->
  parsed (fst (http (GET (lights_url bridge_ip (strip a2))) (world (core t)))) = Ok result ->
  is_nonempty_dict result = true ->
  fst (update_username http clock sleep repr getenv exc_text fuel t) = Returns tt /\
  typed (snd (update_username http clock sleep repr getenv exc_text fuel t)) = rest /\
  exchanges (core (snd (update_username http clock sleep repr getenv exc_text fuel t))) =
    (exchanges (core t) ++
     [(GET (lights_url bridge_ip (strip a2)),
       fst (http (GET (lights_url bridge_ip (strip a2))) (world (core t))))])%list /\
  dict_lookup "HUE_USERNAME"
    (read_config (env_file (snd (update_username http clock sleep repr getenv exc_text fuel t))))
    = Some (strip a2) /\
  (forall k, k <> "HUE_USERNAME" ->
     dict_lookup k
       (read_config (env_file (snd (update_username http clock sleep repr getenv exc_text
                                      fuel t))))
     = dict_lookup k (read_config (Some content))).
Proof.
  intros Hfile Hip Hne Htyped Hyes Hnl Hcr Hreply Hvalid.
  remember (update_username http clock sleep repr getenv exc_text fuel t) as r eqn:Hr.
  unfold update_username, update_username_from, lights_url, parsed in *. io_run.
  rewrite Hfile in Hr. rewrite bool_decide_eq_true_2 in Hr by eauto.
  cbn -[update_config_value read_config] in Hr. rewrite Hfile, Hip in Hr.
  destruct bridge_ip as [|a ip]; [done|].
  rewrite Htyped in Hr. cbn -[update_config_value read_config] in Hr.
  rewrite Hyes in Hr. cbn -[update_config_value read_config] in Hr.
  destruct (http (GET _) (world (core t))) as [[resp|] w]; [|done].
  cbn -[update_config_value read_config] in Hr, Hreply.
  destruct (body resp) as [j|]; [|done].
  injection Hreply as ->. cbn -[update_config_value read_config] in Hr.
  rewrite Hvalid in Hr. cbn -[update_config_value read_config] in Hr.
  subst r. cbn -[update_config_value read_config]. rewrite Hfile.
  assert (Hk : key_ok "HUE_USERNAME") by (by repeat split).
  pose proof (strip_value_ok a2 Hnl Hcr) as Hv.
  rewrite (update_read_back _ _ (Some content) Hk Hv).
  split; [done|]. split; [done|]. split; [done|].
  split; [apply dict_lookup_set|]. intros k Hkne. by apply dict_lookup_set_other.
Qed.



(** [edit_devices]: the file is left as it was, or it existed and has
    been rewritten for ["DEVICES"] with the dump of a list that is not
    empty. *)
Lemma edit_devices_spec F ds hk fuel :
  triple (settled F ds hk) (edit_devices http repr dumps getenv exc_text fuel)
    (fun _ t =>
       settled F ds hk t \/
       (is_Some F /\
        exists devices, truthy devices = true /\
          env_file t = update_config_value "DEVICES" (dumps devices) F)).
Proof.
  unfold edit_devices.
  eapply triple_bind; [apply settled_exists | | by intros f t [? _]].
  intros present. apply triple_pure. intros Hpresent.
  destruct (negb present) eqn:Hneg.
  - eapply triple_weaken; [apply settled_log | done | by left].
  - assert (HF : is_Some F).
    { destruct present; [|done]. injection Hpresent as Hp.
      symmetry in Hp. by apply bool_decide_eq_true_1 in Hp. }
    eapply triple_bind; [apply settled_getenv | | by intros f t [? _]].
    intros bridge_ip. apply triple_pure. intros _.
    eapply triple_bind; [apply settled_getenv | | by intros f t [? _]].
    intros username. apply triple_pure. intros _.
    destruct bridge_ip as [[|a ip]|];
      try (eapply triple_weaken; [apply settled_log | done | by left]).
    destruct username as [[|b user]|];
      try (eapply triple_weaken; [apply settled_log | done | by left]).
    eapply triple_bind with (R := fun _ => settled F ds hk);
      [apply settled_device_setup | | by left].
    intros devices. unfold no_devices.
    destruct (truthy devices) eqn:Htruthy; cbn [negb].
    + intros t (Hfile & _). right. split; [done|]. exists devices. split; [done|].
      unfold io_bind, io_update_config_value, run_core, log. cbn. by rewrite Hfile.
    + eapply triple_weaken; [apply settled_log | done | by left].
Qed.

(** X21: [edit_devices] rewrites the file for the key ["DEVICES"] only.  If
    [json.dumps] writes neither a line end nor trailing white space, then
    after [edit_devices], however it ends, the program's reader finds for
    every other key (the bridge address and the credential among them)
    what it found before; the file is as it was or gives for ["DEVICES"]
    the dump of a list that is not empty; and a file that does not exist
    is not created. *)
Theorem edit_devices_keeps_other_keys fuel (t : session W) k :
  (forall v, value_ok (dumps v)) ->
  k <> "DEVICES" ->
  dict_lookup k
    (read_config (env_file (snd (edit_devices http repr dumps getenv exc_text fuel t))))
    = dict_lookup k (read_config (env_file t)) /\
  (env_file (snd (edit_devices http repr dumps getenv exc_text fuel t)) = env_file t \/
   exists devices, truthy devices = true /\
     dict_lookup "DEVICES"
       (read_config (env_file (snd (edit_devices http repr dumps getenv exc_text fuel t))))
     = Some (dumps devices)) /\
  (env_file t = None ->
   env_file (snd (edit_devices http repr dumps getenv exc_text fuel t)) = None).
Proof.
  intros Hdumps Hk.
  assert (Hkey : key_ok "DEVICES") by (by repeat split).
  destruct (edit_devices_spec (env_file t) (device_states (core t)) (hotkeys (core t)) fuel t)
    as [(HF & _) | (HS & devices & Htruthy & HF)]; [by repeat split | | ].
  - rewrite HF. split; [done|]. split; [by left | done].
  - rewrite HF, (update_read_back _ _ (env_file t) Hkey (Hdumps devices)).
    split; [by apply dict_lookup_set_other|]. split.
    + right. exists devices. split; [done|]. apply dict_lookup_set.
    + intros Hnone. rewrite Hnone in HS. by destruct HS.
Qed.

End Setup_properties.

(** The user picks light 1 twice: both entries are returned, the second
    answer being stripped of its spaces. *)
Example device_setup_sample :
  fst (interactive_device_setup scripted_http plain_repr plain_exc_text 5
         "192.168.1.2" "user" picks_one_twice) =
    Returns (JList [JObj [("device_id", JStr "1"); ("hotkey", JStr "ctrl+shift+l");
                          ("name", JStr "Desk lamp")];
                    JObj [("device_id", JStr "1"); ("hotkey", JStr "ctrl+alt+l");
                          ("name", JStr "Desk lamp")]]).
Proof. vm_compute. reflexivity. Qed.

Lemma device_setup_fails_on_list_reply_witness :
  fst (interactive_device_setup scripted_http plain_repr plain_exc_text 1
         "192.168.1.2" "user" asks_unauthorized) = Fails (Uncaught AttributeError) /\
  typed (snd (interactive_device_setup scripted_http plain_repr plain_exc_text 1
                "192.168.1.2" "user" asks_unauthorized)) = typed asks_unauthorized.
Proof.
  apply (device_setup_fails_on_list_reply scripted_http plain_repr plain_exc_text 0
           "192.168.1.2" "user" asks_unauthorized
           (JList [JObj [("error", JObj [("type", JNum 1);
                                         ("description", JStr "unauthorized user")])]])).
  - reflexivity.
  - reflexivity.
  - intros items. discriminate.
Defined.

Lemma device_setup_returns_none_witness :
  fst (interactive_device_setup scripted_http plain_repr plain_exc_text 5
         "192.168.1.2" "user" asks_unreachable) = Returns JNull /\
  typed (snd (interactive_device_setup scripted_http plain_repr plain_exc_text 5
                "192.168.1.2" "user" asks_unreachable)) = typed asks_unreachable /\
  printed (snd (interactive_device_setup scripted_http plain_repr plain_exc_text 5
                  "192.168.1.2" "user" asks_unreachable)) = printed asks_unreachable.
Proof.
  apply (device_setup_returns_none scripted_http plain_repr plain_exc_text 5
           "192.168.1.2" "user" asks_unreachable).
  left. exists RequestException. reflexivity.
Defined.

Lemma device_setup_entries_from_list_witness :
  (JList [JObj [("device_id", JStr "1"); ("hotkey", JStr "ctrl+shift+l");
                ("name", JStr "Desk lamp")];
          JObj [("device_id", JStr "1"); ("hotkey", JStr "ctrl+alt+l");
                ("name", JStr "Desk lamp")]] = JNull /\
   [("1", JObj [("name", JStr "Desk lamp"); ("type", JStr "Dimmable light")]);
    ("2", JObj [("type", JStr "On/Off plug-in unit")])] = []) \/
  (exists entries,
     JList [JObj [("device_id", JStr "1"); ("hotkey", JStr "ctrl+shift+l");
                  ("name", JStr "Desk lamp")];
            JObj [("device_id", JStr "1"); ("hotkey", JStr "ctrl+alt+l");
                  ("name", JStr "Desk lamp")]] = JList entries /\
     Forall (chosen_from
               [("1", JObj [("name", JStr "Desk lamp"); ("type", JStr "Dimmable light")]);
                ("2", JObj [("type", JStr "On/Off plug-in unit")])]) entries).
Proof.
  apply (device_setup_entries_from_list scripted_http plain_repr plain_exc_text 5
           "192.168.1.2" "user" picks_one_twice).
  - reflexivity.
  - vm_compute. reflexivity.
Defined.

(** A first setup that succeeds writes the three lines. *)
Example setup_sample :
  fst (interactive_setup scripted_http now scripted_sleep plain_repr plain_dumps
         plain_exc_text 5 first_setup) = Returns true /\
  env_file (snd (interactive_setup scripted_http now scripted_sleep plain_repr plain_dumps
                   plain_exc_text 5 first_setup))
    = Some (setup_file "192.168.1.2" "k3yQ" "<json>").
Proof. by vm_compute. Qed.


(** The username typed with blanks around it is stored stripped, and the
    bridge address is still read from the file. *)
Lemma update_username_accepts_witness :
  dict_lookup "HUE_USERNAME"
    (read_config (env_file (snd (update_username scripted_http now scripted_sleep plain_repr
                                   plain_getenv plain_exc_text 5 gives_known_username))))
    = Some "k3yQ" /\
  dict_lookup "HUE_BRIDGE_IP"
    (read_config (env_file (snd (update_username scripted_http now scripted_sleep plain_repr
                                   plain_getenv plain_exc_text 5 gives_known_username))))
    = Some "192.168.1.2".
Proof.
  destruct (update_username_accepts scripted_http now scripted_sleep plain_repr plain_getenv
              plain_exc_text 5 gives_known_username paired_env "192.168.1.2" "Y " " k3yQ "
              ["left over"] two_lights)
    as (_ & _ & _ & Huser & Hother);
    [reflexivity | reflexivity | discriminate | reflexivity | reflexivity | reflexivity
    | reflexivity | reflexivity | reflexivity | ].
  split; [exact Huser | apply Hother; discriminate].
Defined.

(** Editing the devices keeps the credential. *)
Lemma edit_devices_keeps_other_keys_witness :
  dict_lookup "HUE_USERNAME"
    (read_config (env_file (snd (edit_devices scripted_http plain_repr plain_dumps plain_getenv
                                   plain_exc_text 5 edits_devices))))
    = Some "old".
Proof.
  apply (proj1 (edit_devices_keeps_other_keys scripted_http plain_repr plain_dumps plain_getenv
                  plain_exc_text 5 edits_devices "HUE_USERNAME"
                  (fun v => conj eq_refl (conj eq_refl eq_refl)) ltac:(discriminate))).
Defined.

(** The file of a first setup, read back. *)
Lemma setup_file_read_back_witness :
  read_config (Some (setup_file "192.168.1.2" "k3yQ" "<json>"))
    = [("HUE_BRIDGE_IP", "192.168.1.2"); ("HUE_USERNAME", "k3yQ"); ("DEVICES", "<json>")].
Proof.
  apply (proj1 (setup_file_read_back "192.168.1.2" "k3yQ" "<json>"
                  (conj eq_refl (conj eq_refl eq_refl)) (conj eq_refl (conj eq_refl eq_refl))
                  (conj eq_refl (conj eq_refl eq_refl)))).
Defined.
